(** * Streaming session and sentence batching: a model of the STT pipeline

    The development embeds four source files of the backend,

      - [app/config.py]                      (the buffer thresholds and timeouts),
      - [app/services/stt/text_corrector.py] ([TextCorrector.fix_text]),
      - [app/services/stt/buffer.py]         ([TranscriptBuffer]),
      - [app/services/stt/rtzr_client.py]    ([RTZRWebSocketClient]),

    as executable functions over explicit state, and then states and proves
    the properties of the pipeline against these functions.

    Python strings are lists of code points, so that [len], [endswith],
    [replace] and the whitespace tests count what Python counts.  The method
    calls of one object are atomic steps of the model: a call runs to its end
    (or to its next [await]) before the next one starts. *)

From Stdlib Require Import ZArith NArith List Bool Lia PrimFloat.
From Stdlib Require String Ascii.
Import ListNotations String.StringSyntax.

(* ================================================================== *)
(** * Python strings *)
(* ================================================================== *)

Module Py.

Open Scope N_scope.

(** A character is a Unicode code point, a [str] is a sequence of them. *)
Definition char := N.
Definition str := list char.

(** Decoding of the UTF-8 text of a literal: the literals of the source are
    written here as they are there, and decoded to their code points. *)
Fixpoint utf8_go (need : nat) (acc : N) (bs : list N) : str :=
  match bs with
  | [] => []
  | b :: bs' =>
      match need with
      | O => if b <? 128 then b :: utf8_go 0 0 bs'
             else if b <? 224 then utf8_go 1 (b - 192) bs'
             else if b <? 240 then utf8_go 2 (b - 224) bs'
             else utf8_go 3 (b - 240) bs'
      | S O => (acc * 64 + (b - 128)) :: utf8_go 0 0 bs'
      | S k => utf8_go k (acc * 64 + (b - 128)) bs'
      end
  end.

Definition lit (s : String.string) : str :=
  utf8_go 0 0 (map Ascii.N_of_ascii (String.list_ascii_of_string s)).

Delimit Scope string_scope with string.
Arguments lit s%_string.

(** [str.isspace] on one character: the code points CPython classifies as
    whitespace (the set used by [str.split()] and [str.strip()]). *)
Definition isspace (c : char) : bool :=
  ((9 <=? c) && (c <=? 13)) || ((28 <=? c) && (c <=? 32))
  || (c =? 133) || (c =? 160) || (c =? 5760)
  || ((8192 <=? c) && (c <=? 8202))
  || (c =? 8232) || (c =? 8233) || (c =? 8239) || (c =? 8287) || (c =? 12288).

(** Truth value of a string: non-empty. *)
Definition truthy (s : str) : bool :=
  match s with [] => false | _ :: _ => true end.

Definition len (s : str) : nat := List.length s.

Fixpoint lstrip (s : str) : str :=
  match s with
  | [] => []
  | c :: s' => if isspace c then lstrip s' else s
  end.

Fixpoint rstrip (s : str) : str :=
  match s with
  | [] => []
  | c :: s' =>
      match rstrip s' with
      | [] => if isspace c then [] else [c]
      | r => c :: r
      end
  end.

(** [s.strip()] *)
Definition strip (s : str) : str := lstrip (rstrip s).

Definition push_word (w : str) (ws : list str) : list str :=
  match w with [] => ws | _ :: _ => w :: ws end.

(** [split_go s] is the run of non-space characters [s] starts with, and the
    words that follow it. *)
Fixpoint split_go (s : str) : str * list str :=
  match s with
  | [] => ([], [])
  | c :: s' =>
      let (w, ws) := split_go s' in
      if isspace c then ([], push_word w ws) else (c :: w, ws)
  end.

(** [s.split()]: the maximal runs of non-whitespace characters. *)
Definition split (s : str) : list str :=
  let (w, ws) := split_go s in push_word w ws.

(** [sep.join(l)] *)
Fixpoint join (sep : str) (l : list str) : str :=
  match l with
  | [] => []
  | x :: l' =>
      match l' with
      | [] => x
      | _ :: _ => x ++ sep ++ join sep l'
      end
  end.

(** [s.startswith(p)] *)
Fixpoint startswith (s p : str) : bool :=
  match p with
  | [] => true
  | a :: p' =>
      match s with
      | [] => false
      | b :: s' => (a =? b) && startswith s' p'
      end
  end.

(** [s.endswith(p)] *)
Definition endswith (s p : str) : bool := startswith (rev s) (rev p).

(** [sub in s] *)
Fixpoint contains (s sub : str) : bool :=
  startswith s sub
  || match s with
     | [] => false
     | _ :: s' => contains s' sub
     end.

(** [s.replace(old, new)] for a non-empty [old]: the occurrences are taken
    from the left and do not overlap; [skip] counts the characters of a
    matched occurrence that are still to be passed over. *)
Fixpoint replace_go (old new : str) (skip : nat) (s : str) : str :=
  match s with
  | [] => []
  | c :: s' =>
      match skip with
      | S k => replace_go old new k s'
      | O => if startswith s old
             then new ++ replace_go old new (List.length old - 1) s'
             else c :: replace_go old new 0 s'
      end
  end.

Definition replace (s old new : str) : str :=
  match old with
  | [] => new ++ flat_map (fun c => c :: new) s
  | _ :: _ => replace_go old new 0 s
  end.

(** [s == t] *)
Definition eqb (s t : str) : bool :=
  if list_eq_dec N.eq_dec s t then true else false.

(** [l[-n:]], the last [n] entries of a list. *)
Definition last_n {A} (n : nat) (l : list A) : list A :=
  skipn (List.length l - n) l.

End Py.

(* ================================================================== *)
(** * app/config.py *)
(* ================================================================== *)

Module Config.

Record Settings := {
  BUFFER_TARGET_SENTENCES : Z;
  BUFFER_MAX_SENTENCES : Z;
  BUFFER_PARTIAL_TIMEOUT : float;
  BUFFER_SENTENCE_TIMEOUT : float
}.

(** The settings instance of the module, with the values of the class body. *)
Definition settings : Settings := {|
  BUFFER_TARGET_SENTENCES := 4;
  BUFFER_MAX_SENTENCES := 5;
  BUFFER_PARTIAL_TIMEOUT := 2.0%float;
  BUFFER_SENTENCE_TIMEOUT := 4.0%float
|}.

End Config.

(* ================================================================== *)
(** * app/services/stt/text_corrector.py *)
(* ================================================================== *)

Module TextCorrector.

Import Py.

(** The two dictionaries of [__init__], in insertion order (the order in
    which [items()] yields them). *)
Definition phonetic_corrections : list (str * str) := [
    (lit "성심", lit "성신");
    (lit "성인", lit "성신");
    (lit "성식", lit "성신");
    (lit "감정", lit "간증");
    (lit "간정", lit "간증");
    (lit "간점", lit "간증");
    (lit "구조", lit "구주");
    (lit "국주", lit "구주");
    (lit "형재", lit "형제");
    (lit "현제", lit "형제");
    (lit "형재님", lit "형제님");
    (lit "자미", lit "자매");
    (lit "자배", lit "자매");
    (lit "워드", lit "와드");
    (lit "왔드", lit "와드");
    (lit "원드", lit "와드");
    (lit "성찰", lit "성찬");
    (lit "생산", lit "성찬");
    (lit "성차", lit "성찬");
    (lit "신관", lit "신권");
    (lit "신원", lit "신권");
    (lit "측복", lit "축복");
    (lit "축보", lit "축복");
    (lit "축볼", lit "축복을");
    (lit "칠례", lit "침례");
    (lit "협게", lit "회개");
    (lit "회계", lit "회개");
    (lit "속제", lit "속죄");
    (lit "속재", lit "속죄");
    (lit "미듬", lit "믿음");
    (lit "미드믈", lit "믿음을");
    (lit "미들", lit "믿음");
    (lit "가치", lit "같이");
    (lit "바들", lit "받을");
    (lit "바즐", lit "받을");
    (lit "바다", lit "받다");
    (lit "이슬", lit "있을");
    (lit "이즐", lit "있을");
    (lit "가즐", lit "갖을");
    (lit "가질", lit "갖을");
    (lit "하난님", lit "하나님");
    (lit "한나님", lit "하나님");
    (lit "하눈님", lit "하나님");
    (lit "하나님게서", lit "하나님께서");
    (lit "하나님에서", lit "하나님께서");
    (lit "말슴", lit "말씀");
    (lit "말씸", lit "말씀");
    (lit "사랑한니다", lit "사랑합니다");
    (lit "그램", lit "그럼")
].

Definition text_fixes : list (str * str) := [
    (lit "교회 갑니다", lit "교회에 갑니다");
    (lit "교회 왔습니다", lit "교회에 왔습니다");
    (lit "저 생각", lit "저는 생각");
    (lit "우리 하나님", lit "우리의 하나님");
    (lit "우리 구주", lit "우리의 구주");
    (lit "예수 그리스도 이름으로", lit "예수 그리스도의 이름으로");
    (lit "말씀 드리겠습니다", lit "말씀드리겠습니다");
    (lit "간증 드립니다", lit "간증드립니다");
    (lit "축복 받을", lit "축복을 받을");
    (lit "성신 통해", lit "성신을 통해");
    (lit "감사 드립니다", lit "감사드립니다");
    (lit "예수그리스도", lit "예수 그리스도")
].

(** One [for wrong, correct in table.items()] loop of [fix_text]. *)
Definition apply_table (table : list (str * str)) (text : str) : str :=
  fold_left
    (fun text (entry : str * str) =>
       let (wrong, correct) := entry in
       if contains text wrong then replace text wrong correct else text)
    table text.

Definition subjects : list str :=
  [lit "저"; lit "우리"; lit "그"; lit "이"; lit "여러분"; lit "형제"; lit "자매"].

Definition verbs : list str :=
  [lit "합니다"; lit "입니다"; lit "드립니다"; lit "됩니다"].

(** [TextCorrector.fix_text]; the log lines, the only use of [room_id], are
    left out. *)
Definition fix_text (text context room_id : str) : str :=
  let text := strip text in
  let text := apply_table phonetic_corrections text in
  let text := apply_table text_fixes text in
  let text :=
    if eqb text (lit "그래서가") || eqb text (lit "그래서 가")
    then lit "그래서 우리가" else text in
  if negb (existsb (contains text) subjects) then
    if (len text <? 15)%nat && existsb (contains text) verbs then
      if truthy context
         && (contains context (lit "저는") || contains context (lit "저가"))
      then lit "저는 " ++ text
      else if truthy context && contains context (lit "우리")
      then lit "우리는 " ++ text
      else text
    else text
  else text.

End TextCorrector.

(* ================================================================== *)
(** * app/services/stt/buffer.py *)
(* ================================================================== *)

Module TranscriptBuffer.

Import Py.

(** A [threading.Timer] object: its identity and the interval it was
    created with. *)
Record Timer := { timer_id : nat; interval : float }.

(** The dictionary a flush returns. *)
Record Batch := { korean_processed : str; context : str }.

(** The attributes of a [TranscriptBuffer], and with them the part of the
    [threading] module's state the buffer acts on: [live_timers] holds the
    timers that were started and have neither fired nor been cancelled,
    [timers_made] counts the [Timer] objects created so far. [callback] is
    the truth value of [self.callback]. *)
Record t := mk {
  room_id : str;
  callback : bool;
  current_sentences : list str;
  partial_text : str;
  context_history : list str;
  timer : option Timer;
  TARGET_SENTENCES : Z;
  MAX_SENTENCES : Z;
  PARTIAL_TIMEOUT : float;
  SENTENCE_TIMEOUT : float;
  live_timers : list Timer;
  timers_made : nat
}.

Definition set_current_sentences (self : t) (v : list str) : t :=
  mk (room_id self) (callback self) v (partial_text self)
     (context_history self) (timer self) (TARGET_SENTENCES self)
     (MAX_SENTENCES self) (PARTIAL_TIMEOUT self) (SENTENCE_TIMEOUT self)
     (live_timers self) (timers_made self).

Definition set_partial_text (self : t) (v : str) : t :=
  mk (room_id self) (callback self) (current_sentences self) v
     (context_history self) (timer self) (TARGET_SENTENCES self)
     (MAX_SENTENCES self) (PARTIAL_TIMEOUT self) (SENTENCE_TIMEOUT self)
     (live_timers self) (timers_made self).

Definition set_context_history (self : t) (v : list str) : t :=
  mk (room_id self) (callback self) (current_sentences self)
     (partial_text self) v (timer self) (TARGET_SENTENCES self)
     (MAX_SENTENCES self) (PARTIAL_TIMEOUT self) (SENTENCE_TIMEOUT self)
     (live_timers self) (timers_made self).

Definition set_timer (self : t) (v : option Timer) : t :=
  mk (room_id self) (callback self) (current_sentences self)
     (partial_text self) (context_history self) v (TARGET_SENTENCES self)
     (MAX_SENTENCES self) (PARTIAL_TIMEOUT self) (SENTENCE_TIMEOUT self)
     (live_timers self) (timers_made self).

Definition set_threading (self : t) (live : list Timer) (made : nat) : t :=
  mk (room_id self) (callback self) (current_sentences self)
     (partial_text self) (context_history self) (timer self)
     (TARGET_SENTENCES self) (MAX_SENTENCES self) (PARTIAL_TIMEOUT self)
     (SENTENCE_TIMEOUT self) live made.

(** [TranscriptBuffer(room_id, callback)], with the thresholds and timeouts
    read from the settings. *)
Definition __init__ (cfg : Config.Settings) (room : str) (cb : bool) : t :=
  mk room cb [] [] [] None
     (Config.BUFFER_TARGET_SENTENCES cfg) (Config.BUFFER_MAX_SENTENCES cfg)
     (Config.BUFFER_PARTIAL_TIMEOUT cfg) (Config.BUFFER_SENTENCE_TIMEOUT cfg)
     [] 0.

(** [self.sentence_endings]. The source holds them in a set; the check below
    only asks whether some ending fits, so the order of the list and its
    repeated entries have no effect. *)
Definition sentence_endings : list str := [
  lit "다"; lit "니다"; lit "습니다"; lit "합니다"; lit "입니다"; lit "됩니다";
  lit "어요"; lit "아요"; lit "에요"; lit "예요"; lit "어"; lit "아"; lit "지";
  lit "죠"; lit "거든"; lit "걸";
  lit "는데"; lit "네"; lit "군"; lit "구나"; lit "란다"; lit "렴"; lit "마";
  lit "자"; lit "라";
  lit "까"; lit "니"; lit "나"; lit "가"; lit "냐"; lit "느냐"; lit "는가";
  lit "을까"; lit "을까요";
  lit "세요"; lit "십시오"; lit "라"; lit "어라"; lit "거라"; lit "자";
  lit "시다";
  lit "구나"; lit "군요"; lit "네요"; lit "는구나"; lit "는군요";
  lit "음"; lit "슴"; lit "심"; lit "임"
].

Definition punctuation : list str := [lit "."; lit "!"; lit "?"].

Definition particles : list str :=
  [lit "는"; lit "도"; lit "만"; lit "까지"; lit "부터"; lit "라고"; lit "고";
   lit "며"; lit "면서"].

(** The loop [for ending in self.sentence_endings] of
    [_split_into_sentences]: [next] is [words[i + 1]] when there is one. The
    result is the value of [is_sentence_end] when the loop is left. *)
Fixpoint check_endings (endings : list str) (word : str) (next : option str)
  : bool :=
  match endings with
  | [] => false
  | ending :: endings' =>
      if endswith word ending then
        match next with
        | Some next_word =>
            if negb (existsb (startswith next_word) particles) then true
            else check_endings endings' word next
        | None => true
        end
      else check_endings endings' word next
  end.

Definition is_sentence_end (word : str) (next : option str) : bool :=
  if existsb (endswith word) punctuation then true
  else check_endings sentence_endings word next.

(** The loop [for i, word in enumerate(words)], on the words still to come,
    with the loop's variables [current] and [sentences]. *)
Fixpoint split_loop (words : list str) (current : str) (sentences : list str)
  : list str * str :=
  match words with
  | [] => (sentences, current)
  | word :: rest =>
      let current := current ++ word in
      if is_sentence_end word (hd_error rest)
      then split_loop rest [] (sentences ++ [strip current])
      else if truthy current
      then split_loop rest (current ++ lit " ") sentences
      else split_loop rest current sentences
  end.

Definition _split_into_sentences (text : str) : list str * str :=
  let words := split text in
  let (sentences, current) := split_loop words [] [] in
  let remaining := if truthy current then strip current else [] in
  (sentences, remaining).

(** [_process_sentences]: the flush. *)
Definition _process_sentences (self : t) : t * option Batch :=
  if negb (0 <? length (current_sentences self))%nat
     && negb (truthy (partial_text self))
  then (self, None)
  else
    let sentences_to_process := current_sentences self in
    let (sentences_to_process, self) :=
      if truthy (partial_text self)
      then (sentences_to_process ++ [partial_text self],
            set_partial_text self [])
      else (sentences_to_process, self) in
    let full_text := join (lit " ") sentences_to_process in
    let context :=
      match context_history self with
      | [] => []
      | _ :: _ => join (lit " ") (last_n 3 (context_history self))
      end in
    let processed_text :=
      TextCorrector.fix_text full_text context (room_id self) in
    let self :=
      set_context_history self (context_history self ++ [processed_text]) in
    let self :=
      if (5 <? length (context_history self))%nat
      then set_context_history self (tl (context_history self))
      else self in
    let self := set_current_sentences self [] in
    (self, Some {| korean_processed := processed_text; context := context |}).

(** [_process_sentences] as far as line 183: all of it but the clearing of
    [current_sentences]. A timer runs its flush on a thread of its own, and
    [add_text] on the loop's thread can fall between any two lines of it;
    this is the cut before the last of them. *)
Definition _process_sentences_head (self : t) : t * option Batch :=
  if negb (0 <? length (current_sentences self))%nat
     && negb (truthy (partial_text self))
  then (self, None)
  else
    let sentences_to_process := current_sentences self in
    let (sentences_to_process, self) :=
      if truthy (partial_text self)
      then (sentences_to_process ++ [partial_text self],
            set_partial_text self [])
      else (sentences_to_process, self) in
    let full_text := join (lit " ") sentences_to_process in
    let context :=
      match context_history self with
      | [] => []
      | _ :: _ => join (lit " ") (last_n 3 (context_history self))
      end in
    let processed_text :=
      TextCorrector.fix_text full_text context (room_id self) in
    let self :=
      set_context_history self (context_history self ++ [processed_text]) in
    let self :=
      if (5 <? length (context_history self))%nat
      then set_context_history self (tl (context_history self))
      else self in
    (self, Some {| korean_processed := processed_text; context := context |}).

(** [_process_sentences], line 186. *)
Definition _process_sentences_clear (self : t) : t :=
  set_current_sentences self [].

(** [Timer.cancel()]: the timer leaves the live timers, if it was there. *)
Definition cancel (tm : Timer) (self : t) : t :=
  set_threading self
    (filter (fun x => negb (timer_id x =? timer_id tm)%nat) (live_timers self))
    (timers_made self).

(** [self.timer = Timer(interval, self._timeout_flush); self.timer.start()] *)
Definition start_timer (iv : float) (self : t) : t :=
  let tm := {| timer_id := timers_made self; interval := iv |} in
  set_timer
    (set_threading self (live_timers self ++ [tm]) (S (timers_made self)))
    (Some tm).

(** [add_text], lines 58 to 82: the text is stripped, the timer cancelled,
    the partial text put in front, the result segmented and stored. *)
Definition ingest (self : t) (text : str) : t :=
  let text := strip text in
  let self :=
    match timer self with
    | Some tm => set_timer (cancel tm self) None
    | None => self
    end in
  let (text, self) :=
    if truthy (partial_text self)
    then (partial_text self ++ lit " " ++ text, set_partial_text self [])
    else (text, self) in
  let (sentences, remaining) := _split_into_sentences text in
  let self :=
    match sentences with
    | _ :: _ =>
        set_current_sentences self (current_sentences self ++ sentences)
    | [] => self
    end in
  if truthy remaining then set_partial_text self remaining else self.

(** [add_text], lines 85 to 95: the two tests that set [should_process]. *)
Definition should_process (self : t) : bool :=
  if (Z.of_nat (length (current_sentences self)) >=? TARGET_SENTENCES self)%Z
  then true
  else if (Z.of_nat (length (current_sentences self)) >=? MAX_SENTENCES self)%Z
  then true
  else false.

(** [add_text], lines 102 to 111: the timer armed when nothing was flushed. *)
Definition arm_timer (self : t) : t :=
  match current_sentences self with
  | _ :: _ => start_timer (SENTENCE_TIMEOUT self) self
  | [] =>
      if truthy (partial_text self)
      then start_timer (PARTIAL_TIMEOUT self) self
      else self
  end.

(** [add_text]: the guard of lines 55 and 56, then the three stages above.
    The result is the buffer after the call and the value returned. *)
Definition add_text (self : t) (text : str) : t * option Batch :=
  if negb (truthy text) || negb (truthy (strip text)) then (self, None)
  else
    let self := ingest self text in
    if should_process self then _process_sentences self
    else (arm_timer self, None).

(** [_timeout_flush]: the second component is the pair of arguments
    [self.callback] is called with, when it is called. *)
Definition _timeout_flush (self : t) : t * option (str * str) :=
  let (self, result) := _process_sentences self in
  match result with
  | Some b =>
      if callback self
      then (self, Some (korean_processed b, context b))
      else (self, None)
  | None => (self, None)
  end.

(** A timer of the buffer runs out: if it is still live it leaves the live
    timers and runs [_timeout_flush], here to its end with no call of
    [add_text] in between; a cancelled timer never runs. The
    first component of the result tells what the flush produced. *)
Definition timer_fires (tm : Timer) (self : t)
  : t * option Batch * option (str * str) :=
  if existsb (fun x => (timer_id x =? timer_id tm)%nat) (live_timers self)
  then
    let self := cancel tm self in
    (fst (_process_sentences self), snd (_process_sentences self),
     snd (_timeout_flush self))
  else (self, None, None).

End TranscriptBuffer.

(* ================================================================== *)
(** * Decoded JSON *)
(* ================================================================== *)

Module Json.

Import Py.

(** What [json.loads] and [Response.json] return. A dictionary is given by
    the pairs it was built from, in order; a later pair with the same key
    replaces an earlier one. *)
#[local] Unset Elimination Schemes.
Inductive value :=
| Null
| Bool (b : bool)
| Int (n : Z)
| Float (f : float)
| Str (s : str)
| Arr (l : list value)
| Obj (items : list (str * value)).
#[local] Set Elimination Schemes.

(** Truth value of a decoded value. *)
Definition truthy (v : value) : bool :=
  match v with
  | Null => false
  | Bool b => b
  | Int n => negb (n =? 0)%Z
  | Float f => negb (PrimFloat.eqb f 0%float)
  | Str s => Py.truthy s
  | Arr l => match l with [] => false | _ :: _ => true end
  | Obj items => match items with [] => false | _ :: _ => true end
  end.

(** [key in d] and [d[key]]: of the pairs with this key the last one
    counts. *)
Fixpoint lookup (items : list (str * value)) (key : str) : option value :=
  match items with
  | [] => None
  | (k, v) :: items' =>
      match lookup items' key with
      | Some later => Some later
      | None => if Py.eqb k key then Some v else None
      end
  end.

(** [d.get(key, default)] *)
Definition get_default (items : list (str * value)) (key : str)
  (default : value) : value :=
  match lookup items key with Some v => v | None => default end.

(** [d.get(key)] *)
Definition get (items : list (str * value)) (key : str) : value :=
  get_default items key Null.

End Json.

(* ================================================================== *)
(** * app/services/stt/rtzr_client.py *)
(* ================================================================== *)

Module RTZRWebSocketClient.

Import Py.

(** An audio frame. *)
Definition bytes := list Byte.byte.

(** Identity of a callable, and of an open socket. *)
Definition Callable := nat.
Definition Socket := nat.

Record Token := { access_token : Json.value; expire_at : float }.

(** The attributes of a client the model needs, and two counters of what the
    client asked of the outside: [auth_posts] counts the requests sent to
    the token endpoint, [ws_connects] the calls of [websockets.connect]. *)
Record t := mk {
  room_id : str;
  _token : option Token;
  ws : option Socket;
  audio_queue : list bytes;
  is_running : bool;
  on_transcript : option Callable;
  connection_ready : bool;
  pending_audio : list bytes;
  auth_posts : nat;
  ws_connects : nat
}.

Definition set_token (self : t) v : t :=
  mk (room_id self) v (ws self) (audio_queue self) (is_running self)
     (on_transcript self) (connection_ready self) (pending_audio self)
     (auth_posts self) (ws_connects self).

Definition set_ws (self : t) v : t :=
  mk (room_id self) (_token self) v (audio_queue self) (is_running self)
     (on_transcript self) (connection_ready self) (pending_audio self)
     (auth_posts self) (ws_connects self).

Definition set_audio_queue (self : t) v : t :=
  mk (room_id self) (_token self) (ws self) v (is_running self)
     (on_transcript self) (connection_ready self) (pending_audio self)
     (auth_posts self) (ws_connects self).

Definition set_is_running (self : t) v : t :=
  mk (room_id self) (_token self) (ws self) (audio_queue self) v
     (on_transcript self) (connection_ready self) (pending_audio self)
     (auth_posts self) (ws_connects self).

Definition set_on_transcript (self : t) v : t :=
  mk (room_id self) (_token self) (ws self) (audio_queue self) (is_running
     self) v (connection_ready self) (pending_audio self) (auth_posts self)
     (ws_connects self).

Definition set_connection_ready (self : t) v : t :=
  mk (room_id self) (_token self) (ws self) (audio_queue self) (is_running
     self) (on_transcript self) v (pending_audio self) (auth_posts self)
     (ws_connects self).

Definition set_pending_audio (self : t) v : t :=
  mk (room_id self) (_token self) (ws self) (audio_queue self) (is_running
     self) (on_transcript self) (connection_ready self) v (auth_posts self)
     (ws_connects self).

Definition set_auth_posts (self : t) v : t :=
  mk (room_id self) (_token self) (ws self) (audio_queue self) (is_running
     self) (on_transcript self) (connection_ready self) (pending_audio self)
     v (ws_connects self).

Definition set_ws_connects (self : t) v : t :=
  mk (room_id self) (_token self) (ws self) (audio_queue self) (is_running
     self) (on_transcript self) (connection_ready self) (pending_audio self)
     (auth_posts self) v.

(** [RTZRWebSocketClient(room_id)] *)
Definition __init__ (room : str) : t :=
  mk room None None [] false None false [] 0 0.

(** What the token endpoint does with a request: the request fails with an
    exception, or a response comes back with its status code and, when its
    body is JSON, the decoded body. *)
Inductive AuthReply :=
| Unreachable
| Response (status_code : Z) (body : option Json.value).

(** [get_token]. [now] is the reading of the clock, [endpoint n] the reply
    to the [n]-th request made by this client. *)
Definition get_token (self : t) (now : float) (endpoint : nat -> AuthReply)
  : t * Json.value :=
  let stale :=
    match _token self with
    | None => true
    | Some tk => PrimFloat.ltb (expire_at tk) now
    end in
  if stale then
    let reply := endpoint (auth_posts self) in
    let self := set_auth_posts self (S (auth_posts self)) in
    match reply with
    | Unreachable => (self, Json.Null)
    | Response status_code body =>
        if negb (status_code =? 200)%Z then (self, Json.Null)
        else
          match body with
          | Some (Json.Obj token_data) =>
              match Json.lookup token_data (lit "access_token") with
              | Some tok =>
                  let tk := {| access_token := tok;
                               expire_at := PrimFloat.add now 86400%float |} in
                  (set_token self (Some tk), tok)
              | None => (self, Json.Null)
              end
          | _ => (self, Json.Null)
          end
    end
  else
    match _token self with
    | Some tk => (self, access_token tk)
    | None => (self, Json.Null)
    end.

(** The [finally] clause of [connect_websocket]. *)
Definition connect_websocket_finally (self : t) : t :=
  set_connection_ready (set_is_running self false) false.

Inductive Handshake := HandshakeFails | HandshakeOk (sock : Socket).

(** How far [connect_websocket] got: it returned, or it holds an open socket
    and waits in [asyncio.sleep(0.5)]. *)
Inductive Stage := Returned | Connected.

(** [connect_websocket], lines 68 to 100: the callback is stored, the token
    fetched, and with a token the socket opened. [hs] is what
    [websockets.connect] does when it is called. *)
Definition connect_websocket_open (self : t) (cb : option Callable)
  (now : float) (endpoint : nat -> AuthReply) (hs : Handshake) : t * Stage :=
  let self := set_on_transcript self cb in
  let (self, token) := get_token self now endpoint in
  if negb (Json.truthy token) then (self, Returned)
  else
    let self := set_ws_connects self (S (ws_connects self)) in
    match hs with
    | HandshakeFails => (connect_websocket_finally self, Returned)
    | HandshakeOk sock =>
        (set_is_running (set_ws self (Some sock)) true, Connected)
    end.

(** [self.audio_queue.put(audio_data)] *)
Definition put (queue : list bytes) (audio_data : bytes) : list bytes :=
  queue ++ [audio_data].

(** [connect_websocket], lines 101 to 108, run with no step of another
    thread in between: the link is marked ready and the pending frames are
    handed to the queue. *)
Definition connect_websocket_ready (self : t) : t :=
  let self := set_connection_ready self true in
  match pending_audio self with
  | _ :: _ =>
      let self :=
        set_audio_queue self
          (fold_left put (pending_audio self) (audio_queue self)) in
      set_pending_audio self []
  | [] => self
  end.

(** [add_audio] *)
Definition add_audio (self : t) (audio_data : bytes) : t :=
  if connection_ready self
  then set_audio_queue self (put (audio_queue self) audio_data)
  else set_pending_audio self (pending_audio self ++ [audio_data]).

(** ** Two threads around the queue

    [add_audio] is called on the server's thread, lines 101 to 108 of
    [connect_websocket] run on the room's thread, and neither takes a lock:
    the steps of one can fall between the steps of the other.
    [connect_websocket_ready] and [add_audio] above are these steps run
    without a step of the other thread in between. *)

(** Where the room's thread stands in lines 101 to 108. *)
Inductive ReadyAt :=
| AtFlag
| AtTest
| AtLoop (taken : nat)
| AtClear
| AtTasks.

(** The next step of the room's thread: line 101, the test of line 104, one
    pass of the loop of lines 106 and 107, line 108. The loop walks the list
    by index, so it meets what is appended while it runs. *)
Definition ready_step (st : ReadyAt * t) : ReadyAt * t :=
  let (pc, self) := st in
  match pc with
  | AtFlag => (AtTest, set_connection_ready self true)
  | AtTest =>
      match pending_audio self with
      | _ :: _ => (AtLoop 0, self)
      | [] => (AtTasks, self)
      end
  | AtLoop taken =>
      match nth_error (pending_audio self) taken with
      | Some audio_data =>
          (AtLoop (S taken),
           set_audio_queue self (put (audio_queue self) audio_data))
      | None => (AtClear, self)
      end
  | AtClear => (AtTasks, set_pending_audio self [])
  | AtTasks => (AtTasks, self)
  end.

(** [add_audio] in its two steps: the test of line 175, and line 176 or line
    179 as the test came out. *)
Definition add_audio_test (self : t) : bool := connection_ready self.

Definition add_audio_act (self : t) (ready : bool) (audio_data : bytes) : t :=
  if ready
  then set_audio_queue self (put (audio_queue self) audio_data)
  else set_pending_audio self (pending_audio self ++ [audio_data]).

(** [disconnect]: the two flags. The task it creates to close the socket,
    when there is one, is left to the event loop. *)
Definition disconnect (self : t) : t :=
  set_connection_ready (set_is_running self false) false.

Definition running (self : t) : bool :=
  is_running self && match ws self with Some _ => true | None => false end.

(** One pass of the loop of [send_audio]: the frame at the head of the queue
    is sent, if there is one; [send_ok] tells whether [ws.send] returns. The
    second component is the frame that went out. *)
Definition send_audio_step (self : t) (send_ok : bool) : t * option bytes :=
  if running self then
    match audio_queue self with
    | audio_data :: queue =>
        let self := set_audio_queue self queue in
        if send_ok then (self, Some audio_data)
        else (set_is_running self false, None)
    | [] => (self, None)
    end
  else (set_is_running self false, None).

(** What [ws.recv()] yields: a message, with its decoding when
    [json.loads] accepts it, or one of the two kinds of exception. *)
Inductive Incoming :=
| Message (data : option Json.value)
| ConnectionClosed
| RecvError.

(** What the receive loop does to the outside. *)
Inductive Effect :=
| Transcript (f : Callable) (text : str)
| LogSttError (e : Json.value)
| LogRecvError.

(** The part of the loop body under [if data.get("alternatives")]; [None]
    when an exception is raised. *)
Definition handle_alternatives (self : t) (data : list (str * Json.value))
  : option (list Effect) :=
  if Json.truthy (Json.get data (lit "alternatives")) then
    match Json.get data (lit "alternatives") with
    | Json.Arr (Json.Obj alt :: _) =>
        match Json.get_default alt (lit "text") (Json.Str []) with
        | Json.Str s =>
            let text := strip s in
            if truthy text && Json.truthy (Json.get data (lit "final")) then
              match on_transcript self with
              | Some f => Some [Transcript f text]
              | None => Some []
              end
            else Some []
        | _ => None
        end
    | _ => None
    end
  else Some [].

(** The body of the loop of [receive_messages] on a decoded message. *)
Definition handle_message (self : t) (data : Json.value)
  : option (list Effect) :=
  match data with
  | Json.Obj items =>
      match handle_alternatives self items with
      | Some effects =>
          if Json.truthy (Json.get items (lit "error"))
          then Some (effects ++ [LogSttError (Json.get items (lit "error"))])
          else Some effects
      | None => None
      end
  | _ => None
  end.

(** [receive_messages] on the messages the socket delivers. When they are
    used up the loop is left waiting in [recv]. *)
Fixpoint receive_messages (self : t) (incoming : list Incoming)
  : t * list Effect :=
  match incoming with
  | [] => if running self then (self, []) else (set_is_running self false, [])
  | event :: rest =>
      if running self then
        match event with
        | Message (Some data) =>
            match handle_message self data with
            | Some effects =>
                let (self', later) := receive_messages self rest in
                (self', effects ++ later)
            | None => (set_is_running self false, [LogRecvError])
            end
        | Message None => (set_is_running self false, [LogRecvError])
        | ConnectionClosed => (set_is_running self false, [])
        | RecvError => (set_is_running self false, [LogRecvError])
        end
      else (set_is_running self false, [])
  end.

(** [receive_messages] taken up inside [await self.ws.recv()] (line 126): the
    loop passed its test earlier and waits for the socket. What the socket
    delivers next is decoded and handled whatever has become of the flags
    meanwhile; the test of line 125 comes only after it. *)
Definition receive_resumed (self : t) (incoming : list Incoming)
  : t * list Effect :=
  match incoming with
  | [] => (self, [])
  | event :: rest =>
      match event with
      | Message (Some data) =>
          match handle_message self data with
          | Some effects =>
              let (self', later) := receive_messages self rest in
              (self', effects ++ later)
          | None => (set_is_running self false, [LogRecvError])
          end
      | Message None => (set_is_running self false, [LogRecvError])
      | ConnectionClosed => (set_is_running self false, [])
      | RecvError => (set_is_running self false, [LogRecvError])
      end
  end.

(** [send_audio]: the passes of the loop, one after the other. [passes]
    tells for each pass whether [ws.send] would return; a pass that finds
    the loop stopped leaves it, a pass that finds the queue empty sleeps. The
    second component lists the frames that went out, in order. When the
    passes are used up the loop is where the last pass left it. *)
Fixpoint send_audio (self : t) (passes : list bool) : t * list bytes :=
  match passes with
  | [] => (self, [])
  | send_ok :: rest =>
      let (self', sent) := send_audio_step self send_ok in
      let (self'', later) := send_audio self' rest in
      (self'',
       match sent with
       | Some audio_data => audio_data :: later
       | None => later
       end)
  end.

End RTZRWebSocketClient.

(* ================================================================== *)
(** * Python dictionaries and sets with string keys *)
(* ================================================================== *)

Module PyDict.

Import Py.

Section Dict.

Variable V : Type.

(** A [dict] with [str] keys, as its items in insertion order; a key occurs
    in it once. *)
Definition dict := list (str * V).

(** [d.get(key)] *)
Fixpoint get (d : dict) (key : str) : option V :=
  match d with
  | [] => None
  | (k, v) :: d' => if eqb k key then Some v else get d' key
  end.

(** [key in d] *)
Definition has (d : dict) (key : str) : bool :=
  match get d key with Some _ => true | None => false end.

(** [d[key] = value]: the value of a key that is there is replaced where it
    stands, a new key goes to the end. *)
Fixpoint set (d : dict) (key : str) (value : V) : dict :=
  match d with
  | [] => [(key, value)]
  | (k, v) :: d' =>
      if eqb k key then (k, value) :: d' else (k, v) :: set d' key value
  end.

(** [del d[key]], for a key that is there. *)
Fixpoint del (d : dict) (key : str) : dict :=
  match d with
  | [] => []
  | (k, v) :: d' => if eqb k key then d' else (k, v) :: del d' key
  end.

Definition keys (d : dict) : list str := map fst d.

Definition values (d : dict) : list V := map snd d.

End Dict.

Arguments get {V}.
Arguments has {V}.
Arguments set {V}.
Arguments del {V}.
Arguments keys {V}.
Arguments values {V}.

(** A [set] of strings, as its members in the order they came in. *)
Definition pyset := list str.

(** [x in s] *)
Definition mem (x : str) (s : pyset) : bool := existsb (eqb x) s.

(** [s.add(x)] *)
Definition add (s : pyset) (x : str) : pyset :=
  if mem x s then s else s ++ [x].

(** [s.discard(x)] *)
Definition discard (s : pyset) (x : str) : pyset :=
  filter (fun y => negb (eqb x y)) s.

End PyDict.

(* ================================================================== *)
(** * app/models/room.py *)
(* ================================================================== *)

Module Room.

Import Py.

Inductive RoomStatus := ACTIVE | INACTIVE | CLOSING.

(** The fields of a [Room] the services read and write. [created_at] is
    the reading of the clock at creation. *)
Record t := mk {
  room_id : str;
  speaker_sid : str;
  speaker_name : str;
  listeners : PyDict.pyset;
  status : RoomStatus;
  created_at : float;
  stt_client : option RTZRWebSocketClient.t;
  transcript_buffer : option TranscriptBuffer.t
}.

Definition set_listeners (room : t) (v : PyDict.pyset) : t :=
  mk (room_id room) (speaker_sid room) (speaker_name room) v (status room)
     (created_at room) (stt_client room) (transcript_buffer room).

Definition set_status (room : t) (v : RoomStatus) : t :=
  mk (room_id room) (speaker_sid room) (speaker_name room) (listeners room)
     v (created_at room) (stt_client room) (transcript_buffer room).

Definition set_stt_client (room : t) (v : option RTZRWebSocketClient.t) : t :=
  mk (room_id room) (speaker_sid room) (speaker_name room) (listeners room)
     (status room) (created_at room) v (transcript_buffer room).

(** [Room(room_id=..., speaker_sid=..., speaker_name=...)], the other
    fields at their defaults. *)
Definition new (rid sid name : str) (now : float) : t :=
  mk rid sid name [] ACTIVE now None None.

End Room.

(* ================================================================== *)
(** * app/services/room_manager.py *)
(* ================================================================== *)

Module RoomManager.

Import Py.

(** [self.rooms] *)
Definition t := PyDict.dict Room.t.

Definition __init__ : t := [].

(** [generate_room_id]: [draws] are the strings [random.choices] yields,
    one per pass of the loop. [None] when the draws are used up with the
    loop still running. *)
Fixpoint generate_room_id (self : t) (draws : list str) : option str :=
  match draws with
  | [] => None
  | room_id :: rest =>
      if negb (PyDict.has self room_id) then Some room_id
      else generate_room_id self rest
  end.

(** [create_room]: the manager after the call and the room returned;
    [None] when no room id was given and [generate_room_id] does not
    return. *)
Definition create_room (self : t) (speaker_sid speaker_name : str)
  (room_id : option str) (draws : list str) (now : float)
  : option (t * Room.t) :=
  match (match room_id with
         | None => generate_room_id self draws
         | Some rid => Some rid
         end) with
  | None => None
  | Some room_id =>
      let room := Room.new room_id speaker_sid speaker_name now in
      let room :=
        Room.set_stt_client room
          (Some (RTZRWebSocketClient.__init__ room_id)) in
      Some (PyDict.set self room_id room, room)
  end.

Definition get_room (self : t) (room_id : str) : option Room.t :=
  PyDict.get self room_id.

Definition add_listener (self : t) (room_id listener_sid : str) : t * bool :=
  match get_room self room_id with
  | None => (self, false)
  | Some room =>
      (PyDict.set self room_id
         (Room.set_listeners room
            (PyDict.add (Room.listeners room) listener_sid)),
       true)
  end.

Definition remove_listener (self : t) (room_id listener_sid : str)
  : t * bool :=
  match get_room self room_id with
  | None => (self, false)
  | Some room =>
      (PyDict.set self room_id
         (Room.set_listeners room
            (PyDict.discard (Room.listeners room) listener_sid)),
       true)
  end.

(** The room object as [close_room] leaves it: marked as closing, its
    recognition client disconnected. [disconnect] is taken to return: the
    task it creates to close the socket finds a running event loop. *)
Definition closing (room : Room.t) : Room.t :=
  let room := Room.set_status room Room.CLOSING in
  match Room.stt_client room with
  | Some client =>
      Room.set_stt_client room (Some (RTZRWebSocketClient.disconnect client))
  | None => room
  end.

(** [close_room]: the manager after the call, the value returned, and the
    room object taken out of the manager, when there was one. *)
Definition close_room (self : t) (room_id : str)
  : t * bool * option Room.t :=
  match get_room self room_id with
  | None => (self, false, None)
  | Some room => (PyDict.del self room_id, true, Some (closing room))
  end.

(** [find_room_by_speaker]: the first room, in the order of creation, whose
    speaker is the session. *)
Fixpoint find_room_by_speaker (self : t) (speaker_sid : str) : option str :=
  match self with
  | [] => None
  | (room_id, room) :: rest =>
      if eqb (Room.speaker_sid room) speaker_sid then Some room_id
      else find_room_by_speaker rest speaker_sid
  end.

Fixpoint find_rooms_with_listener (self : t) (listener_sid : str)
  : list str :=
  match self with
  | [] => []
  | (room_id, room) :: rest =>
      if PyDict.mem listener_sid (Room.listeners room)
      then room_id :: find_rooms_with_listener rest listener_sid
      else find_rooms_with_listener rest listener_sid
  end.

Definition get_total_listeners (self : t) : nat :=
  list_sum (map (fun room => length (Room.listeners room))
                (PyDict.values self)).

(** [cleanup_disconnected_user]: a speaker's room is closed and the call
    returns; otherwise the session leaves every room it listens to. The
    test [if room_id] fails for the empty string as it does for [None]. *)
Definition cleanup_disconnected_user (self : t) (session_id : str) : t :=
  match find_room_by_speaker self session_id with
  | Some ((_ :: _) as room_id) => fst (fst (close_room self room_id))
  | _ =>
      fold_left
        (fun manager room_id =>
           fst (remove_listener manager room_id session_id))
        (find_rooms_with_listener self session_id) self
  end.

End RoomManager.

(* ================================================================== *)
(** * app/services/translation/openai_service.py *)
(* ================================================================== *)

Module TranslationService.

Import Py.

(** The attributes of the service: [client] is the truth value of
    [self.client]; [api_calls] counts the requests made to the API. *)
Record t := mk {
  client : bool;
  translation_cache : PyDict.dict str;
  max_cache_size : Z;
  api_calls : nat
}.

Definition set_translation_cache (self : t) (v : PyDict.dict str) : t :=
  mk (client self) v (max_cache_size self) (api_calls self).

Definition set_api_calls (self : t) (v : nat) : t :=
  mk (client self) (translation_cache self) (max_cache_size self) v.

(** [TranslationService()], with the cache size of the settings
    ([TRANSLATION_CACHE_SIZE], 100 in [app/config.py]). *)
Definition TRANSLATION_CACHE_SIZE : Z := 100.

Definition __init__ (has_client : bool) : t :=
  mk has_client [] TRANSLATION_CACHE_SIZE 0.

(** [_contains_korean]: some character is a Hangul syllable. *)
Definition _contains_korean (text : str) : bool :=
  existsb (fun c => ((44032 <=? c) && (c <=? 55203))%N) text.

(** [_add_to_cache]; [None] when [next(iter(...))] raises on an empty
    cache. *)
Definition _add_to_cache (self : t) (key value : str) : option t :=
  if (Z.of_nat (length (translation_cache self)) >=? max_cache_size self)%Z
  then
    match translation_cache self with
    | [] => None
    | (oldest, _) :: _ =>
        let self :=
          set_translation_cache self
            (PyDict.del (translation_cache self) oldest) in
        Some (set_translation_cache self
                (PyDict.set (translation_cache self) key value))
    end
  else
    Some (set_translation_cache self
            (PyDict.set (translation_cache self) key value)).

(** What the request to the API comes to: an exception (raised by the call,
    or by reading and stripping the content of the first choice of the
    reply), or the content of the first choice. *)
Inductive Completion :=
| ApiFails
| ApiContent (content : str).

(** [translate_with_gpt]. [api n] is what the [n]-th request of this
    service comes to; the texts of the prompts, which go into the request
    only, are left out. *)
Definition translate_with_gpt (self : t) (korean_text previous_context : str)
  (api : nat -> Completion) : t * option str :=
  if negb (truthy korean_text) then (self, None)
  else
    let cache_key := korean_text in
    match PyDict.get (translation_cache self) cache_key with
    | Some cached => (self, Some cached)
    | None =>
        if negb (client self)
        then (self, Some (lit "Translation service unavailable"))
        else
          let reply := api (api_calls self) in
          let self := set_api_calls self (S (api_calls self)) in
          match reply with
          | ApiFails => (self, Some (lit "Translation error"))
          | ApiContent content =>
              let translated_text := strip content in
              if _contains_korean translated_text
              then (self, Some (lit "Translation error - please try again"))
              else
                match _add_to_cache self korean_text translated_text with
                | Some self => (self, Some translated_text)
                | None => (self, Some (lit "Translation error"))
                end
          end
    end.

End TranslationService.

(* ================================================================== *)
(** * app/api/websocket.py *)
(* ================================================================== *)

Module WebSocket.

Import Py.

(** The payload of a [transcript] event, by its [type]: the recognised
    text as it came, or a batch with its translation. *)
Inductive Payload :=
| SttText (roomId text : str) (timestamp : float)
| TranslationOf (roomId batchId korean english : str) (timestamp : float).

(** [on_buffered_transcript], of [create_room_from_nodejs]: the service
    after the call and the events emitted to the session, in order.
    [batch_id] is what [str(uuid.uuid4())[:8]] gives, [t1] and [t2] are the
    readings of [time.time()], [api] as for [translate_with_gpt]; each
    [sio.emit] returns. *)
Definition on_buffered_transcript
  (translation_service : TranslationService.t)
  (room_id korean_text context batch_id : str) (t1 t2 : float)
  (api : nat -> TranslationService.Completion)
  : TranslationService.t * list Payload :=
  let placeholder :=
    TranslationOf room_id batch_id korean_text (lit "번역 중...") t1 in
  let (translation_service, english_text) :=
    TranslationService.translate_with_gpt translation_service korean_text
      context api in
  match english_text with
  | Some english_text =>
      if truthy english_text
         && negb (eqb english_text (lit "Translation error"))
      then
        (translation_service,
         [placeholder;
          TranslationOf room_id batch_id korean_text english_text t2])
      else (translation_service, [placeholder])
  | None => (translation_service, [placeholder])
  end.

End WebSocket.

(* ================================================================== *)
(** * Vocabulary of the properties *)
(* ================================================================== *)

Module Spec.

Import Py.

(** A word is what [split] produces: non-empty, with no whitespace in it. *)
Definition nospace (w : str) : Prop := Forall (fun c => isspace c = false) w.
Definition word (w : str) : Prop := w <> [] /\ nospace w.

(** The words of [pend], each followed by a blank: the value of [current]
    in [_split_into_sentences] while the words [pend] are held back. *)
Definition spaced (pend : list str) : str :=
  flat_map (fun w => w ++ lit " ") pend.

(** The loop of [_split_into_sentences] seen on lists of words: [pend] are
    the words of the sentence under way; the result is the sentences that
    get closed, each as its list of words, and the words left over. *)
Fixpoint group (words pend : list str) : list (list str) * list str :=
  match words with
  | [] => ([], pend)
  | w :: rest =>
      if TranscriptBuffer.is_sentence_end w (hd_error rest)
      then ((pend ++ [w]) :: fst (group rest []), snd (group rest []))
      else group rest (pend ++ [w])
  end.

(** A closed sentence has at least one word. *)
Definition sentence_words (g : list str) : Prop := g <> [] /\ Forall word g.

(** The words held by a text, by a list of sentences, and by a buffer. *)
Definition tokens (sentences : list str) (partial : str) : list str :=
  concat (map split sentences) ++ split partial.

(** The text [add_text] segments: the partial text carried over, a blank,
    and the stripped fragment. *)
Definition combined (self : TranscriptBuffer.t) (text : str) : str :=
  if truthy (TranscriptBuffer.partial_text self)
  then TranscriptBuffer.partial_text self ++ lit " " ++ strip text
  else strip text.

(** The text a flush of the buffer would join: the entries of
    [current_sentences], then [partial_text] when it is not empty. *)
Definition flush_text (self : TranscriptBuffer.t) : str :=
  join (lit " ")
    (TranscriptBuffer.current_sentences self
     ++ (if truthy (TranscriptBuffer.partial_text self)
         then [TranscriptBuffer.partial_text self] else [])).

(** [add_text] called on the fragments one by one; the batches the calls
    return are collected in order. *)
Fixpoint feed (self : TranscriptBuffer.t) (fragments : list str)
  : TranscriptBuffer.t * list TranscriptBuffer.Batch :=
  match fragments with
  | [] => (self, [])
  | fragment :: rest =>
      let (self', result) := TranscriptBuffer.add_text self fragment in
      let (self'', batches) := feed self' rest in
      (self'',
       match result with Some b => b :: batches | None => batches end)
  end.

(** The sentences [cs] and the partial text [partial] extend the sentences
    [cs0] by the words [ws]: what was added to [cs0] are sentences of whole
    words, [partial] is words joined by blanks, and together they hold
    exactly the words [ws]. *)
Definition extends (cs0 cs : list str) (partial : str) (ws : list str)
  : Prop :=
  exists (g : list (list str)) (p : list str),
    cs = cs0 ++ map (join (lit " ")) g
    /\ partial = join (lit " ") p
    /\ Forall sentence_words g
    /\ Forall word p
    /\ concat g ++ p = ws.

(** The content of the buffer as a sequence: the complete sentences, then
    the partial text. *)
Definition content (self : TranscriptBuffer.t) : list str :=
  TranscriptBuffer.current_sentences self
  ++ [TranscriptBuffer.partial_text self].

(** The buffer [TranscriptBuffer(room, callback)] of a session that runs
    with the settings of [app/config.py]. *)
Definition fresh : TranscriptBuffer.t :=
  TranscriptBuffer.__init__ Config.settings (lit "room") true.

(** What happens to a buffer: text arrives, or one of its timers runs
    out. *)
Inductive Op :=
| AddText (text : str)
| TimerFires (tm : TranscriptBuffer.Timer).

(** One event: the buffer after it, and the batch of the flush when the
    event flushed. *)
Definition step (self : TranscriptBuffer.t) (op : Op)
  : TranscriptBuffer.t * option TranscriptBuffer.Batch :=
  match op with
  | AddText text => TranscriptBuffer.add_text self text
  | TimerFires tm => fst (TranscriptBuffer.timer_fires tm self)
  end.

(** A sequence of events, with the batches of its flushes in order. *)
Fixpoint run (self : TranscriptBuffer.t) (ops : list Op)
  : TranscriptBuffer.t * list TranscriptBuffer.Batch :=
  match ops with
  | [] => (self, [])
  | op :: rest =>
      (fst (run (fst (step self op)) rest),
       match snd (step self op) with
       | Some b => b :: snd (run (fst (step self op)) rest)
       | None => snd (run (fst (step self op)) rest)
       end)
  end.

(** The buffer as the flush of an event finds it: after the text is stored
    for an inline flush, after the timer left the live timers for a deferred
    one. *)
Definition before_flush (self : TranscriptBuffer.t) (op : Op)
  : TranscriptBuffer.t :=
  match op with
  | AddText text => TranscriptBuffer.ingest self text
  | TimerFires tm => TranscriptBuffer.cancel tm self
  end.

(** Something is there to flush. *)
Definition outstanding (self : TranscriptBuffer.t) : Prop :=
  TranscriptBuffer.current_sentences self <> []
  \/ TranscriptBuffer.partial_text self <> [].

(** A history that has grown past five entries loses its oldest one. *)
Definition cap5 (history : list str) : list str :=
  if (5 <? length history)%nat then tl history else history.

(** The buffers a session can be in: built by [__init__] from the settings,
    then driven by events. *)
Inductive reachable (cfg : Config.Settings)
  : TranscriptBuffer.t -> Prop :=
| reach_init (room : str) (cb : bool) :
    reachable cfg (TranscriptBuffer.__init__ cfg room cb)
| reach_step (self : TranscriptBuffer.t) (op : Op) :
    reachable cfg self -> reachable cfg (fst (step self op)).

(** The timers of a buffer are in order: a live timer is the one
    [self.timer] refers to, and it was created before now. *)
Definition timers_ok (self : TranscriptBuffer.t) : Prop :=
  (TranscriptBuffer.live_timers self = []
   \/ exists tm,
        TranscriptBuffer.timer self = Some tm
        /\ TranscriptBuffer.live_timers self = [tm])
  /\ Forall (fun x => (TranscriptBuffer.timer_id x
                       < TranscriptBuffer.timers_made self)%nat)
            (TranscriptBuffer.live_timers self).

(** [add_text] with the second threshold test taken out: the flush is
    decided by the target alone. *)
Definition should_process_target_only (self : TranscriptBuffer.t) : bool :=
  if (Z.of_nat (length (TranscriptBuffer.current_sentences self))
      >=? TranscriptBuffer.TARGET_SENTENCES self)%Z
  then true else false.

Definition add_text_target_only (self : TranscriptBuffer.t) (text : str)
  : TranscriptBuffer.t * option TranscriptBuffer.Batch :=
  if negb (truthy text) || negb (truthy (strip text)) then (self, None)
  else
    let self := TranscriptBuffer.ingest self text in
    if should_process_target_only self
    then TranscriptBuffer._process_sentences self
    else (TranscriptBuffer.arm_timer self, None).

(** ** The recognition link *)

(** What goes on around the audio queue: a frame is submitted, or the send
    loop makes one pass with a [send] that returns. *)
Inductive Traffic :=
| Submit (audio_data : RTZRWebSocketClient.bytes)
| SendPass.

(** The frames submitted, in order. *)
Fixpoint submitted (events : list Traffic)
  : list RTZRWebSocketClient.bytes :=
  match events with
  | [] => []
  | Submit audio_data :: rest => audio_data :: submitted rest
  | SendPass :: rest => submitted rest
  end.

(** The client after the events, and the frames that went out on the
    socket, in order. *)
Fixpoint traffic (self : RTZRWebSocketClient.t) (events : list Traffic)
  : RTZRWebSocketClient.t * list RTZRWebSocketClient.bytes :=
  match events with
  | [] => (self, [])
  | Submit audio_data :: rest =>
      traffic (RTZRWebSocketClient.add_audio self audio_data) rest
  | SendPass :: rest =>
      let (self', sent) := RTZRWebSocketClient.send_audio_step self true in
      let (self'', later) := traffic self' rest in
      (self'',
       match sent with Some audio_data => audio_data :: later | None => later end)
  end.

(** A step of the two threads: the room's thread makes its next step, or the
    server's thread begins a call of [add_audio] with the test of line 175,
    or it ends the call in progress with line 176 or line 179. The server
    makes its calls one after the other. *)
Inductive Turn :=
| RoomStep
| SubmitTests (audio_data : RTZRWebSocketClient.bytes)
| SubmitActs.

(** The two threads and the client they share: where the room's thread
    stands, and the call of [add_audio] in progress with the outcome of its
    test. *)
Record Threads := {
  room_at : RTZRWebSocketClient.ReadyAt;
  client : RTZRWebSocketClient.t;
  in_call : option (RTZRWebSocketClient.bytes * bool)
}.

Definition turn (st : Threads) (e : Turn) : Threads :=
  match e with
  | RoomStep =>
      let (pc, self) :=
        RTZRWebSocketClient.ready_step (room_at st, client st) in
      {| room_at := pc; client := self; in_call := in_call st |}
  | SubmitTests audio_data =>
      match in_call st with
      | None =>
          {| room_at := room_at st; client := client st;
             in_call :=
               Some (audio_data,
                     RTZRWebSocketClient.add_audio_test (client st)) |}
      | Some _ => st
      end
  | SubmitActs =>
      match in_call st with
      | Some (audio_data, ready) =>
          {| room_at := room_at st;
             client :=
               RTZRWebSocketClient.add_audio_act (client st) ready audio_data;
             in_call := None |}
      | None => st
      end
  end.

Definition schedule (st : Threads) (turns : list Turn) : Threads :=
  fold_left turn turns st.

(** The threads when the room's thread comes to line 101. *)
Definition at_line_101 (self : RTZRWebSocketClient.t) : Threads :=
  {| room_at := RTZRWebSocketClient.AtFlag; client := self;
     in_call := None |}.

(** The text of a message that carries a finalized alternative: the message
    is a dictionary, its [alternatives] a list whose first entry is a
    dictionary with a string under [text] that is not empty once stripped,
    and its [final] is true. *)
Definition final_text (data : Json.value) : option str :=
  match data with
  | Json.Obj items =>
      match Json.lookup items (lit "alternatives") with
      | Some (Json.Arr (Json.Obj alt :: _)) =>
          match Json.lookup alt (lit "text") with
          | Some (Json.Str s) =>
              if truthy (strip s)
                 && Json.truthy (Json.get items (lit "final"))
              then Some (strip s) else None
          | _ => None
          end
      | _ => None
      end
  | _ => None
  end.

(** The calls of the transcript callback among the effects. *)
Fixpoint calls (effects : list RTZRWebSocketClient.Effect)
  : list (RTZRWebSocketClient.Callable * str) :=
  match effects with
  | [] => []
  | RTZRWebSocketClient.Transcript f text :: rest => (f, text) :: calls rest
  | _ :: rest => calls rest
  end.

(** The decoded messages the receive loop gets to handle: those up to the
    first event that ends the loop, a message that raises included. *)
Fixpoint handled (self : RTZRWebSocketClient.t)
  (incoming : list RTZRWebSocketClient.Incoming) : list Json.value :=
  match incoming with
  | RTZRWebSocketClient.Message (Some data) :: rest =>
      data :: match RTZRWebSocketClient.handle_message self data with
              | Some _ => handled self rest
              | None => []
              end
  | _ => []
  end.

(** The call a message is due. *)
Definition due (f : RTZRWebSocketClient.Callable) (data : Json.value)
  : list (RTZRWebSocketClient.Callable * str) :=
  match final_text data with
  | Some text => [(f, text)]
  | None => []
  end.

End Spec.

(* ================================================================== *)
(** * Vocabulary of the further properties *)
(* ================================================================== *)

Module Props.

Import Py.

(** ** The buffer *)

(** An event that [add_text] does not turn away at its first test. *)
Definition has_effect (op : Spec.Op) : bool :=
  match op with
  | Spec.AddText text => truthy (strip text)
  | Spec.TimerFires _ => true
  end.

(** The words an event brings. *)
Definition fed (op : Spec.Op) : list str :=
  match op with
  | Spec.AddText text => split text
  | Spec.TimerFires _ => []
  end.

(** The words the flushes of a sequence of events hand on, in order: for
    each event that flushes, the words of the text its flush joins. *)
Fixpoint flushed_words (self : TranscriptBuffer.t) (ops : list Spec.Op)
  : list str :=
  match ops with
  | [] => []
  | op :: rest =>
      match snd (Spec.step self op) with
      | Some _ => split (Spec.flush_text (Spec.before_flush self op))
      | None => []
      end ++ flushed_words (fst (Spec.step self op)) rest
  end.

(** The words a buffer holds. *)
Definition held (self : TranscriptBuffer.t) : list str :=
  Spec.tokens (TranscriptBuffer.current_sentences self)
              (TranscriptBuffer.partial_text self).

(** While a timer is live, something is outstanding. *)
Definition live_means_outstanding (self : TranscriptBuffer.t) : Prop :=
  TranscriptBuffer.live_timers self <> [] -> Spec.outstanding self.

(** A text with its words joined by single blanks and nothing around
    them. *)
Definition normalised (s : str) : Prop := s = join (lit " ") (split s).


(** ** The corrector *)

(** No entry of the two tables occurs in the text. *)
Definition clean (text : str) : bool :=
  forallb (fun entry : str * str => negb (contains text (fst entry)))
    (TextCorrector.phonetic_corrections ++ TextCorrector.text_fixes).

(** ** The recognition link *)

(** The client holds no token, or one that has run out at [now]: the
    first test of [get_token]. *)
Definition stale (self : RTZRWebSocketClient.t) (now : float) : bool :=
  match RTZRWebSocketClient._token self with
  | None => true
  | Some tk => PrimFloat.ltb (RTZRWebSocketClient.expire_at tk) now
  end.

(** The token a reply of the endpoint grants: the reply has status 200 and
    its body is a dictionary with an entry [access_token]. *)
Definition granted (reply : RTZRWebSocketClient.AuthReply)
  : option Json.value :=
  match reply with
  | RTZRWebSocketClient.Response status_code (Some (Json.Obj token_data)) =>
      if (status_code =? 200)%Z
      then Json.lookup token_data (lit "access_token")
      else None
  | _ => None
  end.

(** The decoded messages as the socket delivers them. *)
Definition delivered (messages : list Json.value)
  : list RTZRWebSocketClient.Incoming :=
  map (fun data => RTZRWebSocketClient.Message (Some data)) messages.

(** The messages of which none makes the loop body raise. *)
Definition all_handled (self : RTZRWebSocketClient.t)
  (messages : list Json.value) : Prop :=
  Forall (fun data => RTZRWebSocketClient.handle_message self data <> None)
         messages.

(** An event that ends the receive loop: a message that cannot be decoded
    or makes the body raise, or an exception of the socket. *)
Definition ends_loop (self : RTZRWebSocketClient.t)
  (event : RTZRWebSocketClient.Incoming) : Prop :=
  match event with
  | RTZRWebSocketClient.Message (Some data) =>
      RTZRWebSocketClient.handle_message self data = None
  | _ => True
  end.

(** ** The translation service *)

(** A sequence of calls of [translate_with_gpt], each with its text and
    context; the results in order. *)
Fixpoint translate_all (self : TranslationService.t)
  (requests : list (str * str)) (api : nat -> TranslationService.Completion)
  : TranslationService.t * list (option str) :=
  match requests with
  | [] => (self, [])
  | (korean_text, previous_context) :: rest =>
      let (self', result) :=
        TranslationService.translate_with_gpt self korean_text
          previous_context api in
      let (self'', results) := translate_all self' rest api in
      (self'', result :: results)
  end.

(** What holds of the cache of a service at all times: it is no longer
    than the size allows, its keys are a dictionary's, no translation in it
    contains Hangul, and the empty text is not among its keys. *)
Definition cache_ok (self : TranslationService.t) : Prop :=
  (Z.of_nat (length (TranslationService.translation_cache self))
   <= Z.max 0 (TranslationService.max_cache_size self))%Z
  /\ NoDup (PyDict.keys (TranslationService.translation_cache self))
  /\ Forall (fun v => TranslationService._contains_korean v = false)
            (PyDict.values (TranslationService.translation_cache self))
  /\ ~ In [] (PyDict.keys (TranslationService.translation_cache self)).

(** ** The rooms *)

(** The room ids of a manager are a dictionary's keys: each occurs once. *)
Definition unique_ids (self : RoomManager.t) : Prop :=
  NoDup (PyDict.keys self).

(** The session listens to the room. *)
Definition listens (self : RoomManager.t) (room_id session_id : str) : bool :=
  match RoomManager.get_room self room_id with
  | Some room => PyDict.mem session_id (Room.listeners room)
  | None => false
  end.

(** The calls of the manager's methods, with what the environment gives
    each. *)
Inductive RoomOp :=
| CreateRoom (speaker_sid speaker_name : str) (room_id : option str)
    (draws : list str) (now : float)
| AddListener (room_id listener_sid : str)
| RemoveListener (room_id listener_sid : str)
| CloseRoom (room_id : str)
| Cleanup (session_id : str).

(** The manager after a call; a [create_room] that does not return leaves
    it as it is. *)
Definition room_step (self : RoomManager.t) (op : RoomOp) : RoomManager.t :=
  match op with
  | CreateRoom speaker_sid speaker_name room_id draws now =>
      match RoomManager.create_room self speaker_sid speaker_name room_id
              draws now with
      | Some (self', _) => self'
      | None => self
      end
  | AddListener room_id listener_sid =>
      fst (RoomManager.add_listener self room_id listener_sid)
  | RemoveListener room_id listener_sid =>
      fst (RoomManager.remove_listener self room_id listener_sid)
  | CloseRoom room_id => fst (fst (RoomManager.close_room self room_id))
  | Cleanup session_id =>
      RoomManager.cleanup_disconnected_user self session_id
  end.

(** Every room is stored under its own id and its listeners are a set's
    members. *)
Definition rooms_ok (self : RoomManager.t) : Prop :=
  unique_ids self
  /\ Forall (fun entry : str * Room.t =>
               Room.room_id (snd entry) = fst entry
               /\ NoDup (Room.listeners (snd entry)))
            self.

End Props.

(** The corrector is a table-driven rewriting of its argument; the proofs
    below treat it as a function and never unfold it. *)
Arguments TextCorrector.fix_text : simpl never.
Opaque TextCorrector.fix_text.

(** Reading an attribute of a buffer, or of a client, that was built or
    written. *)
Ltac buffer_fields :=
  cbn [TranscriptBuffer.room_id TranscriptBuffer.callback
       TranscriptBuffer.current_sentences TranscriptBuffer.partial_text
       TranscriptBuffer.context_history TranscriptBuffer.timer
       TranscriptBuffer.TARGET_SENTENCES TranscriptBuffer.MAX_SENTENCES
       TranscriptBuffer.PARTIAL_TIMEOUT TranscriptBuffer.SENTENCE_TIMEOUT
       TranscriptBuffer.live_timers TranscriptBuffer.timers_made
       TranscriptBuffer.set_current_sentences
       TranscriptBuffer.set_partial_text
       TranscriptBuffer.set_context_history TranscriptBuffer.set_timer
       TranscriptBuffer.set_threading fst snd] in *.

Ltac client_fields :=
  cbn [RTZRWebSocketClient.room_id RTZRWebSocketClient._token
       RTZRWebSocketClient.ws RTZRWebSocketClient.audio_queue
       RTZRWebSocketClient.is_running RTZRWebSocketClient.on_transcript
       RTZRWebSocketClient.connection_ready
       RTZRWebSocketClient.pending_audio RTZRWebSocketClient.auth_posts
       RTZRWebSocketClient.ws_connects RTZRWebSocketClient.set_token
       RTZRWebSocketClient.set_ws RTZRWebSocketClient.set_audio_queue
       RTZRWebSocketClient.set_is_running
       RTZRWebSocketClient.set_on_transcript
       RTZRWebSocketClient.set_connection_ready
       RTZRWebSocketClient.set_pending_audio
       RTZRWebSocketClient.set_auth_posts
       RTZRWebSocketClient.set_ws_connects fst snd] in *.

(* ================================================================== *)
(** * Words, splitting and joining *)
(* ================================================================== *)

Section PyFacts.

Import Spec.

Import Py.

Lemma push_word_app (w : str) (ws l : list str) :
  push_word w (ws ++ l) = push_word w ws ++ l.
Proof. destruct w; reflexivity. Qed.

Lemma split_go_rstrip (s : str) : split_go (rstrip s) = split_go s.
Proof.
  induction s as [|c s IH]; [reflexivity|].
  cbn [rstrip]. destruct (rstrip s) as [|r rs] eqn:E.
  - cbn [split_go]. rewrite <- IH. cbn [split_go push_word].
    destruct (isspace c) eqn:Ec; [reflexivity|].
    cbn [split_go]. rewrite Ec. reflexivity.
  - cbn [split_go] in *. rewrite IH. reflexivity.
Qed.

Lemma split_lstrip (s : str) : split (lstrip s) = split s.
Proof.
  induction s as [|c s IH]; [reflexivity|].
  cbn [lstrip]. destruct (isspace c) eqn:Ec; [|reflexivity].
  rewrite IH. unfold split. cbn [split_go]. rewrite Ec.
  destruct (split_go s) as [w ws]. reflexivity.
Qed.

Lemma split_strip (s : str) : split (strip s) = split s.
Proof.
  unfold strip. rewrite split_lstrip. unfold split.
  rewrite split_go_rstrip. reflexivity.
Qed.

Lemma split_go_app_space (a b : str) (c : char) :
  isspace c = true ->
  split_go (a ++ c :: b) = (fst (split_go a), snd (split_go a) ++ split b).
Proof.
  intros Hc. induction a as [|x a IH]; cbn [app split_go].
  - rewrite Hc. unfold split. destruct (split_go b); reflexivity.
  - rewrite IH. destruct (split_go a) as [w ws]. cbn [fst snd].
    destruct (isspace x); cbn [fst snd]; [|reflexivity].
    rewrite push_word_app. reflexivity.
Qed.

Lemma split_app_space (a b : str) (c : char) :
  isspace c = true -> split (a ++ c :: b) = split a ++ split b.
Proof.
  intros Hc. unfold split at 1 2. rewrite (split_go_app_space a b c Hc).
  destruct (split_go a) as [w ws]. cbn [fst snd]. apply push_word_app.
Qed.

Lemma isspace_blank : isspace 32 = true.
Proof. reflexivity. Qed.

Lemma lit_space : lit " " = [32%N].
Proof. reflexivity. Qed.

Lemma split_go_nospace (w : str) : nospace w -> split_go w = (w, []).
Proof.
  induction 1 as [|c w Hc _ IH]; [reflexivity|].
  cbn [split_go]. rewrite IH, Hc. reflexivity.
Qed.

Lemma split_word (w : str) : word w -> split w = [w].
Proof.
  intros [Hne Hw]. unfold split. rewrite (split_go_nospace w Hw).
  destruct w; [congruence | reflexivity].
Qed.

Lemma split_join (l : list str) :
  split (join (lit " ") l) = concat (map split l).
Proof.
  induction l as [|x l IH]; [reflexivity|].
  cbn [join map concat]. destruct l as [|y l].
  - cbn [map concat]. rewrite app_nil_r. reflexivity.
  - rewrite lit_space. cbn [app].
    rewrite (split_app_space x _ _ isspace_blank). rewrite <- lit_space, IH.
    reflexivity.
Qed.

Lemma concat_map_split_words (ws : list str) :
  Forall word ws -> concat (map split ws) = ws.
Proof.
  induction 1 as [|w ws Hw _ IH]; [reflexivity|].
  cbn [map concat]. rewrite (split_word w Hw), IH. reflexivity.
Qed.

Lemma split_join_words (ws : list str) :
  Forall word ws -> split (join (lit " ") ws) = ws.
Proof. intros H. rewrite split_join. apply concat_map_split_words, H. Qed.

(** What [split] returns are words. *)
Lemma split_go_words (s : str) :
  nospace (fst (split_go s)) /\ Forall word (snd (split_go s)).
Proof.
  induction s as [|c s [IHw IHws]]; cbn [split_go].
  - split; constructor.
  - destruct (split_go s) as [w ws]. cbn [fst snd] in *.
    destruct (isspace c) eqn:Ec; cbn [fst snd].
    + split; [constructor|]. destruct w as [|x w]; cbn [push_word]; auto.
      constructor; auto. split; [discriminate | assumption].
    + split; [constructor; assumption | assumption].
Qed.

Lemma split_words (s : str) : Forall word (split s).
Proof.
  unfold split. destruct (split_go_words s) as [Hw Hws].
  destruct (split_go s) as [w ws]. cbn [fst snd] in *.
  destruct w as [|x w]; cbn [push_word]; auto.
  constructor; auto. split; [discriminate | assumption].
Qed.

(** Stripping a text of words joined by blanks. *)
Lemma rstrip_nospace (w : str) : nospace w -> rstrip w = w.
Proof.
  induction 1 as [|c w Hc _ IH]; [reflexivity|].
  cbn [rstrip]. rewrite IH, Hc. destruct w; reflexivity.
Qed.

Lemma rstrip_app_word (a w : str) : word w -> rstrip (a ++ w) = a ++ w.
Proof.
  intros [Hne Hw]. induction a as [|c a IH]; cbn [app].
  - apply rstrip_nospace, Hw.
  - cbn [rstrip]. rewrite IH. destruct (a ++ w) eqn:E; [|reflexivity].
    apply app_eq_nil in E. destruct E; congruence.
Qed.

Lemma rstrip_app_space (a : str) (c : char) :
  isspace c = true -> rstrip (a ++ [c]) = rstrip a.
Proof.
  intros Hc. induction a as [|x a IH]; cbn [app rstrip].
  - rewrite Hc. reflexivity.
  - rewrite IH. reflexivity.
Qed.

Lemma lstrip_word_app (w b : str) : word w -> lstrip (w ++ b) = w ++ b.
Proof.
  intros [Hne Hw]. destruct Hw as [|c w Hc Hw]; [congruence|].
  cbn [app lstrip]. rewrite Hc. reflexivity.
Qed.

End PyFacts.

(* ================================================================== *)
(** * Segmentation *)
(* ================================================================== *)

Section Segmentation.

Import Py TranscriptBuffer Spec.

(** The loop over the endings only asks whether some ending fits: its
    result does not depend on the order in which the set is walked. *)
Lemma check_endings_any (endings : list str) (word : str)
  (next : option str) :
  check_endings endings word next
  = existsb (endswith word) endings
    && match next with
       | Some next_word => negb (existsb (startswith next_word) particles)
       | None => true
       end.
Proof.
  induction endings as [|ending endings IH]; [reflexivity|].
  cbn [check_endings existsb]. rewrite IH.
  destruct (endswith word ending); cbn [orb andb]; [|reflexivity].
  destruct next as [next_word|]; [|reflexivity].
  destruct (negb (existsb (startswith next_word) particles));
    [reflexivity | apply andb_false_r].
Qed.

(** The literals are decoded to code points. *)
Example lit_code_points : lit "다 a" = [45796%N; 32%N; 97%N].
Proof. reflexivity. Qed.

(** The scenario of the design notes: the text has four words with a
    sentence-final ending of the polite style, and the segmentation also
    closes a sentence at [날씨가], whose last syllable is an ending of the
    table; it finds five sentences and no remainder. *)
Example scenario_five_sentences :
  _split_into_sentences
    (lit "안녕하세요 반갑습니다 저는 발표를 시작합니다 오늘 날씨가 좋습니다")
  = ([lit "안녕하세요"; lit "반갑습니다"; lit "저는 발표를 시작합니다";
      lit "오늘 날씨가"; lit "좋습니다"], []).
Proof. vm_compute. reflexivity. Qed.

(** A text with no sentence end is all remainder. *)
Example scenario_no_terminator :
  _split_into_sentences (lit "그리고 생각해보면")
  = ([], lit "그리고 생각해보면").
Proof. vm_compute. reflexivity. Qed.

Lemma join_cons (sep x : str) (l : list str) :
  l <> [] -> join sep (x :: l) = x ++ sep ++ join sep l.
Proof. destruct l; [congruence | reflexivity]. Qed.

Lemma join_snoc (pend : list str) (w : str) :
  join (lit " ") (pend ++ [w]) = spaced pend ++ w.
Proof.
  induction pend as [|x pend IH]; [reflexivity|].
  cbn [app]. rewrite join_cons by (destruct pend; discriminate).
  rewrite IH. unfold spaced. cbn [flat_map].
  rewrite <- !app_assoc. reflexivity.
Qed.

Lemma spaced_snoc (pend : list str) (w : str) :
  spaced (pend ++ [w]) = (spaced pend ++ w) ++ lit " ".
Proof.
  unfold spaced. rewrite flat_map_app. cbn [flat_map].
  rewrite app_nil_r, app_assoc. reflexivity.
Qed.

Lemma strip_join_words (ws : list str) :
  Forall word ws -> strip (join (lit " ") ws) = join (lit " ") ws.
Proof.
  intros H. destruct ws as [|w ws]; [reflexivity|].
  unfold strip.
  assert (Hr : rstrip (join (lit " ") (w :: ws)) = join (lit " ") (w :: ws)).
  { destruct (exists_last (l := w :: ws)) as [pend [z E]]; [discriminate|].
    rewrite E in *. rewrite join_snoc. apply rstrip_app_word.
    apply Forall_app in H. destruct H as [_ H]. inversion H; assumption. }
  rewrite Hr. inversion H as [|? ? Hw Hws]; subst.
  cbn [join]. destruct ws; [|apply lstrip_word_app, Hw].
  rewrite <- (app_nil_r w). apply lstrip_word_app, Hw.
Qed.

Lemma strip_spaced (pend : list str) :
  Forall word pend -> strip (spaced pend) = join (lit " ") pend.
Proof.
  intros H. destruct pend as [|w ws]; [reflexivity|].
  destruct (exists_last (l := w :: ws)) as [p [z E]]; [discriminate|].
  rewrite E in *. rewrite spaced_snoc, join_snoc.
  unfold strip. rewrite lit_space, rstrip_app_space by reflexivity.
  rewrite <- join_snoc. apply strip_join_words, H.
Qed.

Lemma truthy_spaced_snoc (pend : list str) (w : str) :
  word w -> truthy (spaced pend ++ w) = true.
Proof.
  intros [Hne _]. destruct (spaced pend ++ w) eqn:E; [|reflexivity].
  apply app_eq_nil in E. destruct E; congruence.
Qed.

(** The loop of the source, which builds texts, and the loop on words. *)
Lemma split_loop_group (words : list str) :
  Forall word words ->
  forall pend sentences,
    Forall word pend ->
    split_loop words (spaced pend) sentences
    = (sentences ++ map (join (lit " ")) (fst (group words pend)),
       spaced (snd (group words pend))).
Proof.
  induction 1 as [|w rest Hw Hrest IH]; intros pend sentences Hpend.
  - cbn [split_loop group fst snd map]. rewrite app_nil_r. reflexivity.
  - cbn [split_loop group].
    assert (Hpw : Forall word (pend ++ [w])).
    { apply Forall_app; split; [assumption | constructor; auto]. }
    destruct (is_sentence_end w (hd_error rest)).
    + change (@nil char) with (spaced []).
      rewrite IH by constructor. cbn [fst snd map].
      rewrite <- join_snoc, strip_join_words by assumption.
      rewrite <- app_assoc. reflexivity.
    + rewrite truthy_spaced_snoc by assumption.
      rewrite <- spaced_snoc. apply IH, Hpw.
Qed.

Lemma group_partition (words : list str) :
  Forall word words ->
  forall pend,
    Forall word pend ->
    Forall sentence_words (fst (group words pend))
    /\ Forall word (snd (group words pend))
    /\ concat (fst (group words pend)) ++ snd (group words pend)
       = pend ++ words.
Proof.
  induction 1 as [|w rest Hw Hrest IH]; intros pend Hpend.
  - cbn [group fst snd concat app]. rewrite app_nil_r. auto.
  - cbn [group].
    assert (Hpw : Forall word (pend ++ [w])).
    { apply Forall_app; split; [assumption | constructor; auto]. }
    destruct (is_sentence_end w (hd_error rest)); cbn [fst snd].
    + destruct (IH [] (Forall_nil _)) as (Hg & Hp & Hc).
      repeat split; try assumption.
      * constructor; [|assumption]. split; [|assumption].
        destruct pend; discriminate.
      * cbn [concat]. rewrite <- app_assoc, Hc. cbn [app].
        rewrite <- app_assoc. reflexivity.
    + destruct (IH _ Hpw) as (Hg & Hp & Hc).
      repeat split; try assumption.
      rewrite Hc, <- app_assoc. reflexivity.
Qed.

Lemma spaced_nil_iff (p : list str) :
  Forall word p -> truthy (spaced p) = match p with [] => false | _ => true end.
Proof.
  intros H. destruct H as [|w p [Hne _] _]; [reflexivity|].
  unfold spaced. cbn [flat_map]. destruct w; [congruence | reflexivity].
Qed.

(** [_split_into_sentences] in terms of the words of the text. *)
Lemma split_into_sentences_group (text : str) :
  _split_into_sentences text
  = (map (join (lit " ")) (fst (group (split text) [])),
     join (lit " ") (snd (group (split text) []))).
Proof.
  unfold _split_into_sentences.
  change (@nil char) with (spaced []) at 1.
  rewrite (split_loop_group (split text) (split_words text) [] [])
    by constructor.
  cbn [app].
  destruct (group_partition (split text) (split_words text) [] (Forall_nil _))
    as (_ & Hp & _).
  rewrite (spaced_nil_iff _ Hp).
  destruct (snd (group (split text) [])) eqn:E; [reflexivity|].
  rewrite strip_spaced by assumption. reflexivity.
Qed.

Lemma tokens_of_groups (g : list (list str)) (p : list str) :
  Forall sentence_words g -> Forall word p ->
  tokens (map (join (lit " ")) g) (join (lit " ") p) = concat g ++ p.
Proof.
  intros Hg Hp. unfold tokens. rewrite (split_join_words p Hp). f_equal.
  induction Hg as [|x g [_ Hx] _ IH]; [reflexivity|].
  cbn [map concat]. rewrite (split_join_words x Hx), IH. reflexivity.
Qed.

End Segmentation.

(** C9. [_split_into_sentences] is a total function, so it returns on every
    input and raises nothing; the pair it returns partitions the words of the
    input: the words of the sentences, in order, followed by the words of the
    remainder, are the words of the input. When no word closes a sentence,
    the list of sentences is empty and the remainder holds every word. *)
Theorem split_into_sentences_partition (text : Py.str) :
  Spec.tokens (fst (TranscriptBuffer._split_into_sentences text))
              (snd (TranscriptBuffer._split_into_sentences text))
  = Py.split text
  /\ (fst (TranscriptBuffer._split_into_sentences text) = [] ->
      Py.split (snd (TranscriptBuffer._split_into_sentences text))
      = Py.split text).
Proof.
  rewrite split_into_sentences_group. cbn [fst snd].
  destruct (group_partition (Py.split text) (split_words text) []
              (Forall_nil _)) as (Hg & Hp & Hc).
  assert (Ht := tokens_of_groups _ _ Hg Hp).
  rewrite Hc in Ht. cbn [app] in Ht. split; [exact Ht|].
  intros E. rewrite E in Ht. exact Ht.
Qed.

(* ================================================================== *)
(** * The buffer: what [add_text] stores *)
(* ================================================================== *)

Section Ingest.

Import Py TranscriptBuffer Spec.

Lemma lstrip_head (s r : str) (c : char) :
  lstrip s = c :: r -> isspace c = false.
Proof.
  induction s as [|x s IH]; cbn [lstrip]; [discriminate|].
  destruct (isspace x) eqn:Ex; [exact IH|].
  intros E. injection E as -> _. exact Ex.
Qed.

Lemma split_nil_strip (s : str) : split s = [] <-> strip s = [].
Proof.
  split; intros H.
  - destruct (strip s) as [|c r] eqn:E; [reflexivity|].
    rewrite <- split_strip, E in H.
    apply lstrip_head in E. unfold split in H. cbn [split_go] in H.
    rewrite E in H. destruct (split_go r). discriminate.
  - rewrite <- split_strip, H. reflexivity.
Qed.

Lemma add_text_blank (self : t) (text : str) :
  split text = [] -> add_text self text = (self, None).
Proof.
  intros H. apply split_nil_strip in H. unfold add_text. rewrite H.
  cbn [truthy negb]. rewrite orb_true_r. reflexivity.
Qed.

Lemma truthy_strip (text : str) :
  split text <> [] -> negb (truthy text) || negb (truthy (strip text)) = false.
Proof.
  intros H. destruct text as [|c text]; [contradiction H; reflexivity|].
  destruct (strip (c :: text)) eqn:E; [|reflexivity].
  apply split_nil_strip in E. contradiction.
Qed.

Lemma add_text_words (self : t) (text : str) :
  split text <> [] ->
  add_text self text
  = if should_process (ingest self text)
    then _process_sentences (ingest self text)
    else (arm_timer (ingest self text), None).
Proof. intros H. unfold add_text. rewrite truthy_strip by exact H. reflexivity. Qed.

Lemma split_combined (self : t) (text : str) :
  split (combined self text) = split (partial_text self) ++ split text.
Proof.
  unfold combined. destruct (partial_text self) as [|c p] eqn:E; cbn [truthy].
  - apply split_strip.
  - rewrite lit_space. cbn [app].
    change (c :: p ++ 32%N :: strip text) with ((c :: p) ++ 32%N :: strip text).
    rewrite (split_app_space _ _ _ isspace_blank), split_strip. reflexivity.
Qed.

Lemma ingest_current_sentences (self : t) (text : str) :
  current_sentences (ingest self text)
  = current_sentences self ++ fst (_split_into_sentences (combined self text)).
Proof.
  destruct self as [rid cb cs p h tm T M PT ST live made].
  unfold ingest, combined; cbn. destruct tm, p; cbn;
    match goal with |- context [_split_into_sentences ?x] =>
      destruct (_split_into_sentences x) as [[|s ss] r] end;
    destruct r; cbn; rewrite ?app_nil_r; reflexivity.
Qed.

Lemma ingest_partial_text (self : t) (text : str) :
  partial_text (ingest self text)
  = snd (_split_into_sentences (combined self text)).
Proof.
  destruct self as [rid cb cs p h tm T M PT ST live made].
  unfold ingest, combined; cbn. destruct tm, p; cbn;
    match goal with |- context [_split_into_sentences ?x] =>
      destruct (_split_into_sentences x) as [[|s ss] r] end;
    destruct r; cbn; reflexivity.
Qed.

Lemma ingest_extends (self : t) (text : str) :
  extends (current_sentences self)
          (current_sentences (ingest self text))
          (partial_text (ingest self text))
          (split (partial_text self) ++ split text).
Proof.
  rewrite ingest_current_sentences, ingest_partial_text.
  rewrite split_into_sentences_group. cbn [fst snd].
  rewrite split_combined.
  set (ws := split (partial_text self) ++ split text).
  assert (Hws : Forall word ws).
  { apply Forall_app; split; apply split_words. }
  destruct (group_partition ws Hws [] (Forall_nil _)) as (Hg & Hp & Hc).
  exists (fst (group ws [])), (snd (group ws [])). auto.
Qed.

Lemma truthy_join_words (p : list str) :
  Forall word p ->
  truthy (join (lit " ") p) = match p with [] => false | _ => true end.
Proof.
  intros H. destruct H as [|w p [Hne _] _]; [reflexivity|].
  cbn [join]. destruct w; [congruence|]. destruct p; reflexivity.
Qed.

(** After a fragment with a word in it something is outstanding. *)
Lemma ingest_outstanding (self : t) (text : str) :
  split text <> [] ->
  current_sentences (ingest self text) <> []
  \/ partial_text (ingest self text) <> [].
Proof.
  intros Hne.
  destruct (ingest_extends self text) as (g & p & Hcs & Hp & Hg & Hw & Hc).
  destruct g as [|x g].
  - right. rewrite Hp. cbn [concat app] in Hc.
    assert (Ht := truthy_join_words p Hw).
    destruct p as [|w p].
    + destruct (split (partial_text self)); cbn [app] in Hc; congruence.
    + destruct (join (lit " ") (w :: p)); discriminate.
  - left. rewrite Hcs. destruct (current_sentences self); discriminate.
Qed.

(** A flush with something outstanding yields a batch. *)
Lemma process_some (self : t) :
  current_sentences self <> [] \/ partial_text self <> [] ->
  exists b, snd (_process_sentences self) = Some b.
Proof.
  intros H. unfold _process_sentences.
  destruct (current_sentences self) as [|s ss] eqn:Ecs;
    destruct (partial_text self) as [|c p] eqn:Ep; cbn.
  - destruct H; congruence.
  - eexists; reflexivity.
  - eexists; reflexivity.
  - eexists; reflexivity.
Qed.

End Ingest.

(* ================================================================== *)
(** * One call or many: the content of the buffer *)
(* ================================================================== *)

Section Refeeding.

Import Py TranscriptBuffer Spec.

Lemma join_app (sep : str) (a b : list str) :
  a <> [] -> b <> [] ->
  join sep (a ++ b) = join sep a ++ sep ++ join sep b.
Proof.
  intros Ha Hb. induction a as [|x a IH]; [congruence|].
  destruct a as [|y a].
  - cbn [app]. rewrite join_cons by assumption. reflexivity.
  - change ((x :: y :: a) ++ b) with (x :: ((y :: a) ++ b)).
    rewrite join_cons by discriminate. rewrite IH by discriminate.
    rewrite (join_cons sep x (y :: a)) by discriminate.
    rewrite <- !app_assoc. reflexivity.
Qed.

Lemma concat_sentence_words (g : list (list str)) :
  Forall sentence_words g -> g <> [] -> concat g <> [].
Proof.
  intros H Hne. destruct H as [|x g [Hx _] _]; [congruence|].
  cbn [concat]. intros E. apply app_eq_nil in E. destruct E; congruence.
Qed.

Lemma join_groups (g : list (list str)) :
  Forall sentence_words g ->
  join (lit " ") (map (join (lit " ")) g) = join (lit " ") (concat g).
Proof.
  induction 1 as [|x g Hx Hg IH]; [reflexivity|].
  destruct g as [|y g].
  - cbn [map concat join]. rewrite app_nil_r. reflexivity.
  - change (map (join (lit " ")) (x :: y :: g))
      with (join (lit " ") x :: map (join (lit " ")) (y :: g)).
    rewrite join_cons by discriminate. rewrite IH.
    change (concat (x :: y :: g)) with (x ++ concat (y :: g)).
    rewrite join_app; [reflexivity | apply Hx |].
    apply (concat_sentence_words (y :: g)); [assumption | discriminate].
Qed.

(** The text to flush is fixed by the words that were added. *)
Lemma extends_flush_text (self : t) (cs0 ws : list str) :
  extends cs0 (current_sentences self) (partial_text self) ws ->
  flush_text self
  = join (lit " ")
      (cs0 ++ match ws with [] => [] | _ :: _ => [join (lit " ") ws] end).
Proof.
  intros (g & p & Hcs & Hp & Hg & Hw & Hc). unfold flush_text.
  rewrite Hcs, Hp, (truthy_join_words p Hw).
  remember (g ++ match p with [] => [] | _ :: _ => [p] end) as G eqn:EG.
  assert (HG : Forall sentence_words G).
  { subst G. apply Forall_app; split; [assumption|].
    destruct p; constructor; auto. split; [discriminate | assumption]. }
  assert (HcG : concat G = ws).
  { subst G. rewrite concat_app, <- Hc. destruct p; cbn [concat];
      rewrite ?app_nil_r; reflexivity. }
  assert (Hrew :
    (cs0 ++ map (join (lit " ")) g)
    ++ (if match p with [] => false | _ :: _ => true end
        then [join (lit " ") p] else [])
    = cs0 ++ map (join (lit " ")) G).
  { subst G. rewrite map_app, app_assoc. destruct p; reflexivity. }
  rewrite Hrew. clear EG Hrew. destruct G as [|x G'].
  - cbn [concat] in HcG. rewrite <- HcG. reflexivity.
  - assert (Hne : ws <> []).
    { rewrite <- HcG. apply concat_sentence_words; [assumption | discriminate]. }
    destruct ws as [|w ws]; [congruence|].
    destruct cs0 as [|c cs0].
    + cbn [app]. rewrite (join_groups _ HG), HcG. reflexivity.
    + rewrite !join_app by discriminate.
      rewrite (join_groups _ HG), HcG. reflexivity.
Qed.

Lemma extends_tokens (cs0 cs : list str) (partial : str) (ws : list str) :
  extends cs0 cs partial ws ->
  tokens cs partial = concat (map split cs0) ++ ws.
Proof.
  intros (g & p & -> & -> & Hg & Hw & Hc). unfold tokens.
  rewrite map_app, concat_app, <- app_assoc. f_equal.
  rewrite <- Hc. apply (tokens_of_groups g p Hg Hw).
Qed.

Lemma extends_trans (cs0 cs1 cs2 : list str) (p1 p2 : str)
  (ws1 ws2 : list str) :
  extends cs0 cs1 p1 ws1 ->
  extends cs1 cs2 p2 (split p1 ++ ws2) ->
  extends cs0 cs2 p2 (ws1 ++ ws2).
Proof.
  intros (g1 & q1 & Hcs1 & Hp1 & Hg1 & Hw1 & Hc1)
         (g2 & q2 & Hcs2 & Hp2 & Hg2 & Hw2 & Hc2).
  exists (g1 ++ g2), q2. repeat split; try assumption.
  - rewrite Hcs2, Hcs1, map_app, app_assoc. reflexivity.
  - apply Forall_app; split; assumption.
  - rewrite concat_app, <- app_assoc, Hc2, Hp1, (split_join_words q1 Hw1).
    rewrite app_assoc, Hc1. reflexivity.
Qed.

Lemma arm_timer_content (self : t) :
  current_sentences (arm_timer self) = current_sentences self
  /\ partial_text (arm_timer self) = partial_text self.
Proof.
  unfold arm_timer. destruct (current_sentences self) eqn:E.
  - destruct (truthy (partial_text self)); cbn; auto.
  - cbn. auto.
Qed.

(** A call that returns no batch has either changed nothing (the fragment is
    blank) or stored the words of the fragment. *)
Lemma add_text_quiet (self : t) (text : str) :
  snd (add_text self text) = None ->
  (split text = [] /\ fst (add_text self text) = self)
  \/ (split text <> []
      /\ extends (current_sentences self)
                 (current_sentences (fst (add_text self text)))
                 (partial_text (fst (add_text self text)))
                 (split (partial_text self) ++ split text)).
Proof.
  intros Hq. destruct (split text) as [|w0 ws0] eqn:E.
  - left. rewrite add_text_blank by assumption. auto.
  - right. split; [discriminate|]. rewrite <- E.
    assert (Hne : split text <> []) by (rewrite E; discriminate).
    rewrite add_text_words in * by assumption.
    destruct (should_process (ingest self text)) eqn:Es.
    + destruct (process_some (ingest self text)
                  (ingest_outstanding self text Hne)) as [b Hb].
      congruence.
    + cbn [fst]. destruct (arm_timer_content (ingest self text)) as [-> ->].
      apply ingest_extends.
Qed.

Lemma feed_quiet (fragments : list str) :
  forall self,
    snd (feed self fragments) = [] ->
    (concat (map split fragments) = [] /\ fst (feed self fragments) = self)
    \/ (concat (map split fragments) <> []
        /\ extends (current_sentences self)
                   (current_sentences (fst (feed self fragments)))
                   (partial_text (fst (feed self fragments)))
                   (split (partial_text self)
                    ++ concat (map split fragments))).
Proof.
  induction fragments as [|f rest IH]; intros self Hq.
  - left. auto.
  - cbn [feed map concat] in *.
    destruct (add_text self f) as [s1 r] eqn:E1.
    destruct (feed s1 rest) as [s2 bs] eqn:E2. cbn [fst snd] in *.
    assert (Hr : r = None) by (destruct r; [discriminate | reflexivity]).
    subst r bs.
    specialize (IH s1). rewrite E2 in IH. cbn [fst snd] in IH.
    specialize (IH eq_refl).
    destruct (add_text_quiet self f) as [[Hb Hs]|[Hw Hx]];
      rewrite E1 in *; cbn [fst snd] in *; try reflexivity.
    + subst s1. rewrite Hb. cbn [app]. exact IH.
    + right. split.
      { intros E. apply app_eq_nil in E. destruct E; contradiction. }
      destruct IH as [[Hrest ->]|[_ Hrest]].
      * rewrite Hrest, app_nil_r. exact Hx.
      * rewrite app_assoc. eapply extends_trans; eassumption.
Qed.

End Refeeding.

(** C2, the claim as it is written, at two fragments: fed one by one, the
    first closes a sentence at its last word; fed as one text, the word that
    follows is a continuation particle and the sentence goes on. No call
    flushes, and the buffers end with different sentences. *)
Lemma refeeding_counterexample :
  let fragments := [Py.lit "간다"; Py.lit "고 했다"] in
  Forall (fun f => Py.strip f <> []) fragments
  /\ snd (Spec.feed Spec.fresh fragments) = []
  /\ snd (TranscriptBuffer.add_text Spec.fresh
            (Py.join (Py.lit " ") fragments)) = None
  /\ Spec.content (fst (Spec.feed Spec.fresh fragments))
     = [Py.lit "간다"; Py.lit "고 했다"; []]
  /\ Spec.content (fst (TranscriptBuffer.add_text Spec.fresh
                          (Py.join (Py.lit " ") fragments)))
     = [Py.lit "간다 고 했다"; []]
  /\ Spec.content (fst (Spec.feed Spec.fresh fragments))
     <> Spec.content (fst (TranscriptBuffer.add_text Spec.fresh
                             (Py.join (Py.lit " ") fragments))).
Proof.
  cbv zeta. split; [|split; [|split; [|split; [|split]]]].
  - repeat constructor; intros H; vm_compute in H; discriminate H.
  - vm_compute. reflexivity.
  - vm_compute. reflexivity.
  - vm_compute. reflexivity.
  - vm_compute. reflexivity.
  - intros H. vm_compute in H. discriminate H.
Qed.

(** C2, amended. When neither the calls on the fragments one by one nor the
    single call on the fragments joined by blanks flushes, the two buffers
    hold the same words in the same order, and a flush would join the same
    text from them: the entries of [current_sentences] followed by
    [partial_text], joined by blanks, are the same text. Where the sentences
    are cut may differ. *)
Theorem refeeding_same_text (self : TranscriptBuffer.t)
  (fragments : list Py.str) :
  snd (Spec.feed self fragments) = [] ->
  snd (TranscriptBuffer.add_text self (Py.join (Py.lit " ") fragments))
  = None ->
  let one_by_one := fst (Spec.feed self fragments) in
  let at_once :=
    fst (TranscriptBuffer.add_text self (Py.join (Py.lit " ") fragments)) in
  Spec.flush_text one_by_one = Spec.flush_text at_once
  /\ Spec.tokens (TranscriptBuffer.current_sentences one_by_one)
                 (TranscriptBuffer.partial_text one_by_one)
     = Spec.tokens (TranscriptBuffer.current_sentences at_once)
                   (TranscriptBuffer.partial_text at_once).
Proof.
  intros Hfeed Honce. cbv zeta.
  destruct (feed_quiet fragments self Hfeed) as [[Hb E1]|[Hw Hx]];
    destruct (add_text_quiet self _ Honce) as [[Hb' E2]|[Hw' Hx']].
  - rewrite E1, E2. split; reflexivity.
  - rewrite split_join in Hw'. contradiction.
  - rewrite split_join in Hb'. contradiction.
  - rewrite split_join in Hx'. split.
    + rewrite (extends_flush_text _ _ _ Hx), (extends_flush_text _ _ _ Hx').
      reflexivity.
    + rewrite (extends_tokens _ _ _ _ Hx), (extends_tokens _ _ _ _ Hx').
      reflexivity.
Qed.

Lemma refeeding_same_text_witness :
  Spec.flush_text
    (fst (Spec.feed Spec.fresh [Py.lit "간다"; Py.lit "고 했다"]))
  = Spec.flush_text
      (fst (TranscriptBuffer.add_text Spec.fresh
              (Py.join (Py.lit " ") [Py.lit "간다"; Py.lit "고 했다"]))).
Proof.
  apply (refeeding_same_text Spec.fresh [Py.lit "간다"; Py.lit "고 했다"]);
    vm_compute; reflexivity.
Defined.

(* ================================================================== *)
(** * The buffer: what each step leaves alone *)
(* ================================================================== *)

Section Frames.

Import Py TranscriptBuffer Spec.

(** The attributes [ingest] does not write, and what it does to the timer. *)
Lemma ingest_frame (self : t) (text : str) :
  timer (ingest self text) = None
  /\ timers_made (ingest self text) = timers_made self
  /\ live_timers (ingest self text)
     = match timer self with
       | Some tm =>
           filter (fun x => negb (timer_id x =? timer_id tm)%nat)
                  (live_timers self)
       | None => live_timers self
       end
  /\ context_history (ingest self text) = context_history self
  /\ room_id (ingest self text) = room_id self
  /\ callback (ingest self text) = callback self
  /\ TARGET_SENTENCES (ingest self text) = TARGET_SENTENCES self
  /\ MAX_SENTENCES (ingest self text) = MAX_SENTENCES self
  /\ PARTIAL_TIMEOUT (ingest self text) = PARTIAL_TIMEOUT self
  /\ SENTENCE_TIMEOUT (ingest self text) = SENTENCE_TIMEOUT self.
Proof.
  destruct self as [rid cb cs p h tm T M PT ST live made].
  unfold ingest; cbn. destruct tm, p; cbn;
    match goal with |- context [_split_into_sentences ?x] =>
      destruct (_split_into_sentences x) as [[|s ss] r] end;
    destruct r; cbn; repeat split; reflexivity.
Qed.

(** The flush in closed form. *)
Lemma process_eq (self : t) :
  outstanding self ->
  let context := join (lit " ") (last_n 3 (context_history self)) in
  let text := TextCorrector.fix_text (flush_text self) context (room_id self) in
  _process_sentences self
  = (mk (room_id self) (callback self) [] []
        (cap5 (context_history self ++ [text])) (timer self)
        (TARGET_SENTENCES self) (MAX_SENTENCES self) (PARTIAL_TIMEOUT self)
        (SENTENCE_TIMEOUT self) (live_timers self) (timers_made self),
     Some {| korean_processed := text; context := context |}).
Proof.
  destruct self as [rid cb cs p h tm T M PT ST live made].
  unfold outstanding, _process_sentences, cap5, flush_text.
  buffer_fields. intros Hout.
  assert (Hany : negb (0 <? length cs)%nat && negb (truthy p) = false).
  { destruct cs, p; try reflexivity. destruct Hout; congruence. }
  rewrite Hany.
  assert (Hctx : match h with
                 | [] => []
                 | _ :: _ => join (lit " ") (last_n 3 h)
                 end = join (lit " ") (last_n 3 h)).
  { destruct h; reflexivity. }
  destruct p as [|c p]; cbn [truthy]; buffer_fields;
    rewrite ?app_nil_r, Hctx; destruct (5 <? _)%nat; reflexivity.
Qed.

Lemma process_outstanding (self : t) (b : Batch) :
  snd (_process_sentences self) = Some b -> outstanding self.
Proof.
  destruct self as [rid cb cs p h tm T M PT ST live made].
  unfold outstanding, _process_sentences. buffer_fields.
  destruct cs as [|s ss], p as [|c p]; cbn [length Nat.ltb Nat.leb negb andb truthy snd];
    try discriminate; intros _; solve [left; discriminate | right; discriminate].
Qed.

(** What a flush that yields a batch does. *)
Lemma process_result (self : t) (b : Batch) :
  snd (_process_sentences self) = Some b ->
  outstanding self
  /\ context b = join (lit " ") (last_n 3 (context_history self))
  /\ korean_processed b
     = TextCorrector.fix_text (flush_text self) (context b) (room_id self)
  /\ current_sentences (fst (_process_sentences self)) = []
  /\ partial_text (fst (_process_sentences self)) = []
  /\ context_history (fst (_process_sentences self))
     = cap5 (context_history self ++ [korean_processed b]).
Proof.
  intros E. assert (Hout := process_outstanding self b E).
  rewrite (process_eq self Hout) in *. cbn [fst snd] in *.
  injection E as <-. cbn [context korean_processed current_sentences
                           partial_text context_history].
  repeat split; auto.
Qed.

Lemma process_none (self : t) :
  snd (_process_sentences self) = None -> fst (_process_sentences self) = self.
Proof.
  destruct self as [rid cb cs p h tm T M PT ST live made].
  unfold _process_sentences. buffer_fields.
  destruct cs as [|s ss], p as [|c p]; cbn [length Nat.ltb Nat.leb negb andb truthy snd fst];
    try discriminate. reflexivity.
Qed.

Lemma process_frame (self : t) :
  timer (fst (_process_sentences self)) = timer self
  /\ timers_made (fst (_process_sentences self)) = timers_made self
  /\ live_timers (fst (_process_sentences self)) = live_timers self
  /\ room_id (fst (_process_sentences self)) = room_id self
  /\ callback (fst (_process_sentences self)) = callback self
  /\ TARGET_SENTENCES (fst (_process_sentences self)) = TARGET_SENTENCES self
  /\ MAX_SENTENCES (fst (_process_sentences self)) = MAX_SENTENCES self
  /\ PARTIAL_TIMEOUT (fst (_process_sentences self)) = PARTIAL_TIMEOUT self
  /\ SENTENCE_TIMEOUT (fst (_process_sentences self)) = SENTENCE_TIMEOUT self.
Proof.
  destruct (_process_sentences self) as [self' [b|]] eqn:E.
  - assert (Hout : outstanding self).
    { apply (process_outstanding self b). rewrite E. reflexivity. }
    rewrite (process_eq self Hout) in E. injection E as <- _.
    buffer_fields. repeat split; reflexivity.
  - assert (H := process_none self). rewrite E in H. cbn [fst snd] in *.
    rewrite (H eq_refl). repeat split; reflexivity.
Qed.

End Frames.

(* ================================================================== *)
(** * The buffer: flushes *)
(* ================================================================== *)

Section Flushes.

Import Py TranscriptBuffer Spec.


Lemma cancel_frame (tm : Timer) (self : t) :
  current_sentences (cancel tm self) = current_sentences self
  /\ partial_text (cancel tm self) = partial_text self
  /\ context_history (cancel tm self) = context_history self
  /\ room_id (cancel tm self) = room_id self
  /\ callback (cancel tm self) = callback self
  /\ timer (cancel tm self) = timer self
  /\ timers_made (cancel tm self) = timers_made self
  /\ TARGET_SENTENCES (cancel tm self) = TARGET_SENTENCES self
  /\ MAX_SENTENCES (cancel tm self) = MAX_SENTENCES self
  /\ PARTIAL_TIMEOUT (cancel tm self) = PARTIAL_TIMEOUT self
  /\ SENTENCE_TIMEOUT (cancel tm self) = SENTENCE_TIMEOUT self.
Proof. destruct self. unfold cancel. buffer_fields. repeat split. Qed.

Lemma arm_timer_frame (self : t) :
  context_history (arm_timer self) = context_history self
  /\ room_id (arm_timer self) = room_id self
  /\ callback (arm_timer self) = callback self
  /\ TARGET_SENTENCES (arm_timer self) = TARGET_SENTENCES self
  /\ MAX_SENTENCES (arm_timer self) = MAX_SENTENCES self
  /\ PARTIAL_TIMEOUT (arm_timer self) = PARTIAL_TIMEOUT self
  /\ SENTENCE_TIMEOUT (arm_timer self) = SENTENCE_TIMEOUT self.
Proof.
  destruct self as [rid cb cs p h tm T M PT ST live made].
  unfold arm_timer, start_timer. buffer_fields.
  destruct cs; [destruct p|]; cbn [truthy]; buffer_fields; repeat split.
Qed.

(** Every flush of the model is [_process_sentences], run on the buffer
    the event prepared. *)
Lemma step_flush (self : t) (op : Op) (b : Batch) :
  snd (step self op) = Some b ->
  step self op = _process_sentences (before_flush self op).
Proof.
  destruct op as [text|tm]; cbn [step before_flush].
  - destruct (split text) as [|w ws] eqn:E.
    + rewrite add_text_blank by assumption. discriminate.
    + rewrite add_text_words by (rewrite E; discriminate).
      destruct (should_process (ingest self text)); [reflexivity|discriminate].
  - unfold timer_fires.
    destruct (existsb _ (live_timers self)); cbn [fst snd].
    + intros _. destruct (_process_sentences (cancel tm self)); reflexivity.
    + discriminate.
Qed.






End Flushes.

Section Thresholds.

Import Py TranscriptBuffer Spec.

Lemma geb_ge (a b : Z) : (a >=? b)%Z = true <-> (a >= b)%Z.
Proof. rewrite Z.geb_le. lia. Qed.



Lemma reachable_settings (cfg : Config.Settings) (self : t) :
  reachable cfg self ->
  TARGET_SENTENCES self = Config.BUFFER_TARGET_SENTENCES cfg
  /\ MAX_SENTENCES self = Config.BUFFER_MAX_SENTENCES cfg
  /\ PARTIAL_TIMEOUT self = Config.BUFFER_PARTIAL_TIMEOUT cfg
  /\ SENTENCE_TIMEOUT self = Config.BUFFER_SENTENCE_TIMEOUT cfg.
Proof.
  induction 1 as [room cb|self op Hr IH]; [repeat split|].
  destruct IH as (<- & <- & <- & <-).
  assert (Hp : forall s,
    TARGET_SENTENCES (fst (_process_sentences s)) = TARGET_SENTENCES s
    /\ MAX_SENTENCES (fst (_process_sentences s)) = MAX_SENTENCES s
    /\ PARTIAL_TIMEOUT (fst (_process_sentences s)) = PARTIAL_TIMEOUT s
    /\ SENTENCE_TIMEOUT (fst (_process_sentences s)) = SENTENCE_TIMEOUT s).
  { intros s. destruct (process_frame s) as (_ & _ & _ & _ & _ & H). exact H. }
  assert (Hi : forall text,
    TARGET_SENTENCES (ingest self text) = TARGET_SENTENCES self
    /\ MAX_SENTENCES (ingest self text) = MAX_SENTENCES self
    /\ PARTIAL_TIMEOUT (ingest self text) = PARTIAL_TIMEOUT self
    /\ SENTENCE_TIMEOUT (ingest self text) = SENTENCE_TIMEOUT self).
  { intros text.
    destruct (ingest_frame self text) as (_ & _ & _ & _ & _ & _ & H). exact H. }
  destruct op as [text|tm]; cbn [step].
  - destruct (split text) as [|w ws] eqn:E.
    + rewrite add_text_blank by assumption. repeat split.
    + rewrite add_text_words by (rewrite E; discriminate).
      destruct (Hi text) as (H1 & H2 & H3 & H4).
      destruct (should_process (ingest self text)).
      * destruct (Hp (ingest self text)) as (-> & -> & -> & ->). auto.
      * cbn [fst].
        destruct (arm_timer_frame (ingest self text))
          as (_ & _ & _ & -> & -> & -> & ->). auto.
  - unfold timer_fires.
    destruct (existsb _ (live_timers self)); cbn [fst]; [|repeat split].
    destruct (Hp (cancel tm self)) as (-> & -> & -> & ->).
    destruct (cancel_frame tm self) as (_ & _ & _ & _ & _ & _ & _ & H).
    exact H.
Qed.

End Thresholds.



(** Four sentences in one call: the call returns them joined by blanks,
    leaves the buffer empty with one entry in the history, and no timer was
    ever created. *)
Example exactly_four_flushes :
  let result :=
    TranscriptBuffer.add_text Spec.fresh (Py.lit "가자! 와! 끝. 좋습니다") in
  snd result
  = Some {| TranscriptBuffer.korean_processed :=
              Py.lit "가자! 와! 끝. 좋습니다";
            TranscriptBuffer.context := [] |}
  /\ TranscriptBuffer.current_sentences (fst result) = []
  /\ TranscriptBuffer.partial_text (fst result) = []
  /\ length (TranscriptBuffer.context_history (fst result)) = 1%nat
  /\ TranscriptBuffer.timer (fst result) = None
  /\ TranscriptBuffer.timers_made (fst result) = 0%nat.
Proof. vm_compute. repeat split. Qed.

(** C10. When the target is not above the maximum, the second threshold
    test of [add_text] never decides: where the first test fails the second
    fails too, and [add_text] is the function that tests the target alone.
    So it is for every buffer of a session run with the settings of
    [app/config.py], target 4 and maximum 5. *)
Theorem max_test_redundant (self : TranscriptBuffer.t) :
  (TranscriptBuffer.TARGET_SENTENCES self
   <= TranscriptBuffer.MAX_SENTENCES self)%Z ->
  (forall text,
     TranscriptBuffer.add_text self text = Spec.add_text_target_only self text)
  /\ (forall text,
        let stored := TranscriptBuffer.ingest self text in
        let count :=
          Z.of_nat (length (TranscriptBuffer.current_sentences stored)) in
        (count >=? TranscriptBuffer.TARGET_SENTENCES stored)%Z = false ->
        (count >=? TranscriptBuffer.MAX_SENTENCES stored)%Z = false)
  /\ (forall s,
        Spec.reachable Config.settings s ->
        forall text,
          TranscriptBuffer.add_text s text
          = Spec.add_text_target_only s text).
Proof.
  intros Hle.
  assert (Hgen : forall s : TranscriptBuffer.t,
    (TranscriptBuffer.TARGET_SENTENCES s
     <= TranscriptBuffer.MAX_SENTENCES s)%Z ->
    forall text,
      TranscriptBuffer.add_text s text = Spec.add_text_target_only s text).
  { intros s Hs text.
    unfold TranscriptBuffer.add_text, Spec.add_text_target_only.
    destruct (negb (Py.truthy text) || negb (Py.truthy (Py.strip text)));
      [reflexivity|].
    cbv zeta.
    replace (Spec.should_process_target_only (TranscriptBuffer.ingest s text))
      with (TranscriptBuffer.should_process (TranscriptBuffer.ingest s text));
      [reflexivity|].
    unfold TranscriptBuffer.should_process, Spec.should_process_target_only.
    destruct (ingest_frame s text) as (_ & _ & _ & _ & _ & _ & -> & -> & _).
    destruct (_ >=? TranscriptBuffer.TARGET_SENTENCES s)%Z eqn:Et;
      [reflexivity|].
    destruct (_ >=? TranscriptBuffer.MAX_SENTENCES s)%Z eqn:Em;
      [|reflexivity].
    apply geb_ge in Em. rewrite Z.geb_leb in Et.
    apply Z.leb_gt in Et. lia. }
  split; [apply Hgen, Hle|]. split.
  - intros text. cbv zeta.
    destruct (ingest_frame self text) as (_ & _ & _ & _ & _ & _ & -> & -> & _).
    intros Et. rewrite Z.geb_leb in *. apply Z.leb_gt in Et.
    apply Z.leb_gt. lia.
  - intros s Hs. apply Hgen.
    destruct (reachable_settings Config.settings s Hs) as (-> & -> & _).
    cbn. lia.
Qed.

Lemma max_test_redundant_witness :
  TranscriptBuffer.add_text Spec.fresh (Py.lit "간다 고 했다")
  = Spec.add_text_target_only Spec.fresh (Py.lit "간다 고 했다").
Proof.
  refine (proj1 (max_test_redundant Spec.fresh _) _).
  vm_compute. discriminate.
Defined.






(* ================================================================== *)
(** * The buffer: timers *)
(* ================================================================== *)

Section Timers.

Import Py TranscriptBuffer Spec.

Lemma ingest_no_live (self : t) (text : str) :
  timers_ok self -> live_timers (ingest self text) = [].
Proof.
  intros [Hlive _].
  destruct (ingest_frame self text) as (_ & _ & -> & _).
  destruct Hlive as [E|(tm & Et & El)].
  - rewrite E. destruct (timer self); reflexivity.
  - rewrite Et, El. cbn [filter]. rewrite Nat.eqb_refl. reflexivity.
Qed.

Lemma process_timers_ok (self : t) :
  timers_ok self -> timers_ok (fst (_process_sentences self)).
Proof.
  unfold timers_ok.
  destruct (process_frame self) as (-> & -> & -> & _). auto.
Qed.

Lemma cancel_timers_ok (tm : Timer) (self : t) :
  timers_ok self -> timers_ok (cancel tm self).
Proof.
  intros [Hlive Hids]. unfold timers_ok.
  destruct self as [rid cb cs p h tmr T M PT ST live made].
  unfold cancel. buffer_fields. split.
  - destruct Hlive as [->|(tm0 & Et & ->)]; [left; reflexivity|].
    cbn [filter]. destruct (negb _); [right; exists tm0; auto | left; auto].
  - apply Forall_forall. intros x Hx. apply filter_In in Hx.
    rewrite Forall_forall in Hids. apply Hids, Hx.
Qed.

(** What [arm_timer] does to a buffer with no live timer. *)
Lemma arm_timer_spec (self : t) :
  live_timers self = [] ->
  outstanding self ->
  exists tm,
    timer (arm_timer self) = Some tm
    /\ live_timers (arm_timer self) = [tm]
    /\ timer_id tm = timers_made self
    /\ timers_made (arm_timer self) = S (timers_made self)
    /\ current_sentences (arm_timer self) = current_sentences self
    /\ partial_text (arm_timer self) = partial_text self
    /\ interval tm
       = match current_sentences self with
         | _ :: _ => SENTENCE_TIMEOUT self
         | [] => PARTIAL_TIMEOUT self
         end.
Proof.
  destruct self as [rid cb cs p h tmr T M PT ST live made].
  unfold arm_timer, start_timer, outstanding. buffer_fields.
  intros -> Hout. destruct cs as [|s ss].
  - destruct p as [|c p]; [destruct Hout; congruence|].
    cbn [truthy]. buffer_fields. eexists. repeat split.
  - buffer_fields. eexists. repeat split.
Qed.

Lemma add_text_timers (self : t) (text : str) :
  timers_ok self ->
  split text <> [] ->
  let after := fst (add_text self text) in
  (forall b, snd (add_text self text) = Some b ->
     timer after = None /\ live_timers after = []
     /\ timers_made after = timers_made self)
  /\ (snd (add_text self text) = None ->
      exists tm,
        timer after = Some tm
        /\ live_timers after = [tm]
        /\ timer_id tm = timers_made self
        /\ timers_made after = S (timers_made self)
        /\ ((current_sentences after <> []
             /\ interval tm = SENTENCE_TIMEOUT self)
            \/ (current_sentences after = []
                /\ partial_text after <> []
                /\ interval tm = PARTIAL_TIMEOUT self))).
Proof.
  intros Hok Hw. cbv zeta. rewrite add_text_words by assumption.
  assert (Hlive := ingest_no_live self text Hok).
  assert (Hout := ingest_outstanding self text Hw).
  destruct (ingest_frame self text)
    as (Ht & Hm & _ & _ & _ & _ & _ & _ & Hpt & Hst).
  destruct (should_process (ingest self text)).
  - split; [|intros Hn;
             destruct (process_some _ Hout) as [b Hb]; congruence].
    intros b _.
    destruct (process_frame (ingest self text)) as (-> & -> & -> & _). auto.
  - split; [discriminate|]. intros _. cbn [fst].
    destruct (arm_timer_spec _ Hlive Hout)
      as (tm & H1 & H2 & H3 & H4 & H5 & H6 & H7).
    exists tm. rewrite H1, H2, H3, H4, H5, H6, Hm.
    repeat split; try reflexivity.
    rewrite H7, Hpt, Hst.
    destruct (current_sentences (ingest self text)) as [|s ss] eqn:E.
    + right. repeat split. destruct Hout; [congruence | assumption].
    + left. split; [discriminate | reflexivity].
Qed.

Lemma step_timers_ok (self : t) (op : Op) :
  timers_ok self -> timers_ok (fst (step self op)).
Proof.
  intros Hok. destruct op as [text|tm]; cbn [step].
  - destruct (split text) as [|w ws] eqn:E.
    + rewrite add_text_blank by assumption. exact Hok.
    + assert (Hw : split text <> []) by (rewrite E; discriminate).
      destruct (add_text_timers self text Hok Hw) as [Hs Hn].
      destruct (snd (add_text self text)) as [b|] eqn:Er.
      * destruct (Hs b eq_refl) as (_ & Hl & _). unfold timers_ok.
        rewrite Hl. split; [left; reflexivity | constructor].
      * destruct (Hn eq_refl) as (tm & H1 & H2 & H3 & H4 & _).
        unfold timers_ok. rewrite H1, H2, H4. split.
        -- right. exists tm. auto.
        -- constructor; [lia | constructor].
  - unfold timer_fires.
    destruct (existsb _ (live_timers self)); cbn [fst]; [|exact Hok].
    apply process_timers_ok, cancel_timers_ok, Hok.
Qed.

Lemma reachable_timers_ok (cfg : Config.Settings) (self : t) :
  reachable cfg self -> timers_ok self.
Proof.
  induction 1 as [room cb|self op _ IH].
  - split; [left; reflexivity | constructor].
  - apply step_timers_ok, IH.
Qed.


End Timers.



(* ================================================================== *)
(** * The recognition link *)
(* ================================================================== *)

Section Link.

Import Py RTZRWebSocketClient Spec.

Lemma fold_put (pending queue : list bytes) :
  fold_left put pending queue = queue ++ pending.
Proof.
  revert queue. induction pending as [|a pending IH]; intros queue.
  - cbn [fold_left]. rewrite app_nil_r. reflexivity.
  - cbn [fold_left]. rewrite IH. unfold put. rewrite <- app_assoc.
    reflexivity.
Qed.

(** Entering the ready state: the pending frames go behind what the queue
    holds, in their order, and nothing stays pending. *)
Lemma ready_moves_pending (self : t) :
  connection_ready (connect_websocket_ready self) = true
  /\ audio_queue (connect_websocket_ready self)
     = audio_queue self ++ pending_audio self
  /\ pending_audio (connect_websocket_ready self) = []
  /\ ws (connect_websocket_ready self) = ws self
  /\ is_running (connect_websocket_ready self) = is_running self.
Proof.
  destruct self as [rid tk sock q run cb rdy pend posts conns].
  unfold connect_websocket_ready. client_fields.
  destruct pend as [|a pend]; client_fields.
  - rewrite app_nil_r. repeat split.
  - rewrite fold_put. repeat split.
Qed.

(** While the link is not ready and the queue is empty, frames gather in
    [pending_audio] and nothing goes out. *)
Lemma traffic_not_ready (events : list Traffic) :
  forall self,
    connection_ready self = false ->
    audio_queue self = [] ->
    snd (traffic self events) = []
    /\ audio_queue (fst (traffic self events)) = []
    /\ pending_audio (fst (traffic self events))
       = pending_audio self ++ submitted events
    /\ connection_ready (fst (traffic self events)) = false.
Proof.
  induction events as [|[a|] events IH]; intros self Hr Hq.
  - cbn [traffic submitted fst snd]. rewrite app_nil_r. auto.
  - cbn [traffic submitted].
    assert (Ha : add_audio self a
                 = set_pending_audio self (pending_audio self ++ [a])).
    { unfold add_audio. rewrite Hr. reflexivity. }
    rewrite Ha.
    destruct (IH (set_pending_audio self (pending_audio self ++ [a])))
      as (H1 & H2 & H3 & H4);
      [destruct self; exact Hr | destruct self; exact Hq |].
    rewrite H1, H2, H3, H4. repeat split.
    destruct self. client_fields. rewrite <- app_assoc. reflexivity.
  - cbn [traffic submitted].
    assert (Hs : exists self',
      send_audio_step self true = (self', None)
      /\ connection_ready self' = false /\ audio_queue self' = []
      /\ pending_audio self' = pending_audio self).
    { unfold send_audio_step. rewrite Hq.
      destruct (running self); eexists; (split; [reflexivity|]);
        destruct self; client_fields; auto. }
    destruct Hs as (self' & -> & Hr' & Hq' & Hp').
    destruct (IH self' Hr' Hq') as (H1 & H2 & H3 & H4).
    destruct (traffic self' events) as [s later]. client_fields.
    subst later. rewrite Hp' in H3. auto.
Qed.

(** Once the link is ready, what went out followed by what is queued is
    what was queued followed by what was submitted. *)
Lemma traffic_ready (events : list Traffic) :
  forall self,
    connection_ready self = true ->
    snd (traffic self events) ++ audio_queue (fst (traffic self events))
    = audio_queue self ++ submitted events
    /\ pending_audio (fst (traffic self events)) = pending_audio self
    /\ connection_ready (fst (traffic self events)) = true.
Proof.
  induction events as [|[a|] events IH]; intros self Hr.
  - cbn [traffic submitted fst snd app]. rewrite app_nil_r. auto.
  - cbn [traffic submitted].
    assert (Ha : add_audio self a
                 = set_audio_queue self (audio_queue self ++ [a])).
    { unfold add_audio, put. rewrite Hr. reflexivity. }
    rewrite Ha.
    destruct (IH (set_audio_queue self (audio_queue self ++ [a])))
      as (H1 & H2 & H3); [destruct self; exact Hr|].
    rewrite H1, H2, H3. destruct self. client_fields.
    rewrite <- app_assoc. auto.
  - cbn [traffic submitted].
    assert (Hs : exists self' sent,
      send_audio_step self true = (self', sent)
      /\ connection_ready self' = true
      /\ pending_audio self' = pending_audio self
      /\ match sent with
         | Some a => a :: audio_queue self'
         | None => audio_queue self'
         end = audio_queue self).
    { unfold send_audio_step.
      destruct (running self); [destruct (audio_queue self) eqn:Eq|];
        do 2 eexists; (split; [reflexivity|]);
        destruct self; client_fields; subst; auto. }
    destruct Hs as (self' & sent & -> & Hr' & Hp' & Hq').
    destruct (IH self' Hr') as (H1 & H2 & H3).
    destruct (traffic self' events) as [s later]. client_fields.
    rewrite H2, H3, Hp', <- Hq'. repeat split.
    destruct sent; cbn [app]; rewrite H1; reflexivity.
Qed.

Lemma get_token_frame (self : t) (now : float) (endpoint : nat -> AuthReply) :
  ws (fst (get_token self now endpoint)) = ws self
  /\ audio_queue (fst (get_token self now endpoint)) = audio_queue self
  /\ is_running (fst (get_token self now endpoint)) = is_running self
  /\ on_transcript (fst (get_token self now endpoint)) = on_transcript self
  /\ connection_ready (fst (get_token self now endpoint))
     = connection_ready self
  /\ pending_audio (fst (get_token self now endpoint)) = pending_audio self
  /\ ws_connects (fst (get_token self now endpoint)) = ws_connects self
  /\ (auth_posts self <= auth_posts (fst (get_token self now endpoint))
      <= S (auth_posts self))%nat.
Proof.
  destruct self as [rid tk sock q run cb rdy pend posts conns].
  unfold get_token. client_fields.
  destruct (match tk with
            | Some tk0 => PrimFloat.ltb (expire_at tk0) now
            | None => true
            end).
  - destruct (endpoint posts) as [|code [[| | | | | |items]|]];
      try (client_fields; repeat split; lia).
    all: destruct (negb (code =? 200)%Z);
      try (client_fields; repeat split; lia).
    destruct (Json.lookup items (lit "access_token"));
      client_fields; repeat split; lia.
  - destruct tk; client_fields; repeat split; lia.
Qed.

Lemma get_token_callback (self : t) (cb : option Callable) (now : float)
  (endpoint : nat -> AuthReply) :
  snd (get_token (set_on_transcript self cb) now endpoint)
  = snd (get_token self now endpoint).
Proof.
  destruct self as [rid tk sock q run cb0 rdy pend posts conns].
  unfold get_token. client_fields.
  destruct (match tk with
            | Some tk0 => PrimFloat.ltb (expire_at tk0) now
            | None => true
            end).
  - destruct (endpoint posts) as [|code [[| | | | | |items]|]];
      try reflexivity.
    all: destruct (negb (code =? 200)%Z); try reflexivity.
    destruct (Json.lookup items (lit "access_token")); reflexivity.
  - destruct tk; reflexivity.
Qed.

Lemma submissions_not_ready (frames : list bytes) :
  forall self,
    connection_ready self = false ->
    audio_queue (fold_left add_audio frames self) = audio_queue self
    /\ pending_audio (fold_left add_audio frames self)
       = pending_audio self ++ frames
    /\ connection_ready (fold_left add_audio frames self) = false
    /\ ws (fold_left add_audio frames self) = ws self.
Proof.
  induction frames as [|a frames IH]; intros self Hr; cbn [fold_left].
  - rewrite app_nil_r. auto.
  - assert (Ha : add_audio self a
                 = set_pending_audio self (pending_audio self ++ [a])).
    { unfold add_audio. rewrite Hr. reflexivity. }
    rewrite Ha.
    destruct (IH (set_pending_audio self (pending_audio self ++ [a])))
      as (H1 & H2 & H3 & H4); [destruct self; exact Hr|].
    rewrite H1, H2, H3, H4. destruct self. client_fields.
    rewrite <- app_assoc. auto.
Qed.

End Link.

Section LinkTheorems.

Import Py RTZRWebSocketClient Spec.

(** Opening the socket does not touch the frames, and until the link is
    marked ready it is not ready. *)
Lemma open_frame (self : t) (cb : option Callable) (now : float)
  (endpoint : nat -> AuthReply) (hs : Handshake) :
  audio_queue (fst (connect_websocket_open self cb now endpoint hs))
  = audio_queue self
  /\ pending_audio (fst (connect_websocket_open self cb now endpoint hs))
     = pending_audio self
  /\ (connection_ready self = false ->
      connection_ready (fst (connect_websocket_open self cb now endpoint hs))
      = false).
Proof.
  unfold connect_websocket_open.
  destruct (get_token_frame (set_on_transcript self cb) now endpoint)
    as (_ & Hq & _ & _ & Hr & Hp & _).
  destruct (get_token (set_on_transcript self cb) now endpoint) as [s tok].
  client_fields.
  assert (Hq' : audio_queue s = audio_queue self)
    by (rewrite Hq; destruct self; reflexivity).
  assert (Hp' : pending_audio s = pending_audio self)
    by (rewrite Hp; destruct self; reflexivity).
  assert (Hr' : connection_ready s = connection_ready self)
    by (rewrite Hr; destruct self; reflexivity).
  clear Hq Hp Hr.
  destruct (negb (Json.truthy tok)); client_fields.
  - rewrite Hq', Hp', Hr'. auto.
  - destruct hs; unfold connect_websocket_finally; destruct s;
      client_fields; subst; auto.
Qed.

Lemma calls_app (a b : list Effect) : calls (a ++ b) = calls a ++ calls b.
Proof.
  induction a as [|[f text|e|] a IH]; cbn [app calls]; rewrite ?IH;
    reflexivity.
Qed.

(** The calls one message causes. *)
Lemma handle_message_calls (self : t) (f : Callable) (data : Json.value) :
  on_transcript self = Some f ->
  calls (match handle_message self data with
         | Some effects => effects
         | None => []
         end) = due f data.
Proof.
  intros Hf. unfold due, final_text, handle_message.
  destruct data as [| | | | | |items]; try reflexivity.
  assert (Hdone : forall effects,
    calls (match (if Json.truthy (Json.get items (lit "error"))
                  then Some (effects
                             ++ [LogSttError (Json.get items (lit "error"))])
                  else Some effects)
           with Some e => e | None => [] end) = calls effects).
  { intros effects. destruct (Json.truthy (Json.get items (lit "error")));
      [|reflexivity].
    rewrite calls_app. cbn [calls]. apply app_nil_r. }
  unfold handle_alternatives, Json.get, Json.get_default.
  destruct (Json.lookup items (lit "alternatives")) as [v|].
  2:{ cbn [Json.truthy]. apply Hdone. }
  destruct v as [| [|] | n | x | [|c s] | [|a l] | [|e l]];
    cbn [Json.truthy Py.truthy]; try apply Hdone; try reflexivity.
  - destruct (negb (n =? 0)%Z); [reflexivity | apply Hdone].
  - destruct (negb (PrimFloat.eqb x 0)); [reflexivity | apply Hdone].
  - destruct a as [| | | | | |alt]; try reflexivity.
    destruct (Json.lookup alt (lit "text")) as [t|].
    + destruct t as [| | | |s| |]; try reflexivity.
      destruct (truthy (strip s)
                && Json.truthy match Json.lookup items (lit "final") with
                               | Some v => v
                               | None => Json.Null
                               end).
      * rewrite Hf. rewrite Hdone. reflexivity.
      * apply Hdone.
    + cbn [strip rstrip lstrip truthy andb]. apply Hdone.
Qed.

Lemma receive_calls (self : t) (f : Callable) (incoming : list Incoming) :
  on_transcript self = Some f ->
  running self = true ->
  calls (snd (receive_messages self incoming))
  = flat_map (due f) (handled self incoming).
Proof.
  intros Hf Hrun. induction incoming as [|event rest IH].
  - cbn [receive_messages]. rewrite Hrun. reflexivity.
  - cbn [receive_messages handled]. rewrite Hrun.
    destruct event as [[data|]| |]; try reflexivity.
    assert (Hm := handle_message_calls self f data Hf).
    destruct (handle_message self data) as [effects|].
    + destruct (receive_messages self rest) as [s later].
      cbn [snd flat_map] in *. rewrite calls_app, Hm, IH. reflexivity.
    + cbn [snd flat_map calls] in *. rewrite <- Hm. reflexivity.
Qed.

End LinkTheorems.

Section Threads.

Import Py RTZRWebSocketClient Spec.

(** The two steps of [add_audio], one after the other, are [add_audio]. *)
Lemma add_audio_steps (self : t) (audio_data : bytes) :
  add_audio_act self (add_audio_test self) audio_data
  = add_audio self audio_data.
Proof. reflexivity. Qed.

Lemma schedule_app (st : Threads) (a b : list Turn) :
  schedule st (a ++ b) = schedule (schedule st a) b.
Proof. apply fold_left_app. Qed.

(** The loop of lines 106 and 107, left alone, hands over the entries from
    where it stands to the end of the list. *)
Lemma ready_loop (k : nat) :
  forall (self : t) (taken : nat) (call : option (bytes * bool)),
    (taken + k)%nat = length (pending_audio self) ->
    schedule {| room_at := AtLoop taken; client := self; in_call := call |}
      (repeat RoomStep k)
    = {| room_at := AtLoop (taken + k)%nat;
         client :=
           set_audio_queue self
             (audio_queue self ++ skipn taken (pending_audio self));
         in_call := call |}.
Proof.
  induction k as [|k IH]; intros self taken call Hlen.
  - cbn [repeat schedule fold_left]. rewrite Nat.add_0_r in *.
    rewrite skipn_all2 by lia. rewrite app_nil_r.
    destruct self; reflexivity.
  - cbn [repeat]. unfold schedule in *. cbn [fold_left].
    unfold turn at 2. cbn [room_at client in_call ready_step].
    destruct (nth_error (pending_audio self) taken) as [a|] eqn:E.
    2:{ apply nth_error_None in E. lia. }
    rewrite IH by (destruct self; cbn in *; lia).
    f_equal; [f_equal; lia|].
    assert (Hs : skipn taken (pending_audio self)
                 = a :: skipn (S taken) (pending_audio self)).
    { clear -E. revert taken E.
      induction (pending_audio self) as [|x l IHl]; intros [|n] E;
        cbn in *; try discriminate.
      - injection E as ->. reflexivity.
      - apply IHl, E. }
    rewrite Hs. destruct self. client_fields. unfold put.
    rewrite <- app_assoc. reflexivity.
Qed.

(** Lines 101 to 108 with no step of the server's thread in between are
    [connect_websocket_ready]. *)
Lemma ready_uninterrupted (self : t) :
  schedule (at_line_101 self)
    (repeat RoomStep (4 + length (pending_audio self))%nat)
  = {| room_at := AtTasks; client := connect_websocket_ready self;
       in_call := None |}.
Proof.
  unfold at_line_101, connect_websocket_ready.
  destruct (pending_audio self) as [|a pending] eqn:Ep.
  - cbn. destruct self. cbn in *. subst. reflexivity.
  - replace (4 + length (a :: pending))%nat
      with (S (S (S (length pending) + 2)))%nat by (cbn [length]; lia).
    cbn [repeat]. unfold schedule. cbn [fold_left].
    unfold turn at 2 3. cbn [room_at client in_call ready_step].
    assert (Hp : pending_audio (set_connection_ready self true)
                 = a :: pending) by (destruct self; exact Ep).
    rewrite Hp. rewrite repeat_app, fold_left_app.
    fold (schedule
            {| room_at := AtLoop 0; client := set_connection_ready self true;
               in_call := None |}
            (repeat RoomStep (S (length pending)))).
    rewrite ready_loop by (rewrite Hp; reflexivity).
    cbn [repeat fold_left Nat.add]. unfold turn.
    cbn [room_at client in_call ready_step].
    assert (Hn : nth_error
                   (pending_audio
                      (set_audio_queue (set_connection_ready self true)
                         (audio_queue (set_connection_ready self true)
                          ++ skipn 0
                               (pending_audio
                                  (set_connection_ready self true)))))
                   (S (length pending)) = None).
    { apply nth_error_None. destruct self. cbn in *. subst. cbn. lia. }
    rewrite Hn. cbn [skipn]. rewrite Hp, fold_put.
    destruct self. cbn in *. subst. cbn. rewrite <- ?app_assoc.
    reflexivity.
Qed.

End Threads.

(** When every call of [add_audio] falls wholly before line 101 or wholly
    after line 108: nothing goes out before the link is ready; on becoming
    ready the queue holds the frames submitted so far, in their order; from
    then on the frames that went out, followed by the frames in the queue,
    are all the frames submitted, in the order of submission, and none is
    left pending. *)
Lemma audio_order_sequential (room : Py.str)
  (cb : option RTZRWebSocketClient.Callable) (now : float)
  (endpoint : nat -> RTZRWebSocketClient.AuthReply)
  (sock : RTZRWebSocketClient.Socket)
  (early during later : list Spec.Traffic) :
  let created := RTZRWebSocketClient.__init__ room in
  let c1 := fst (Spec.traffic created early) in
  let opened :=
    RTZRWebSocketClient.connect_websocket_open c1 cb now endpoint
      (RTZRWebSocketClient.HandshakeOk sock) in
  snd opened = RTZRWebSocketClient.Connected ->
  let c3 := fst (Spec.traffic (fst opened) during) in
  let ready := RTZRWebSocketClient.connect_websocket_ready c3 in
  let final := fst (Spec.traffic ready later) in
  snd (Spec.traffic created early) = []
  /\ snd (Spec.traffic (fst opened) during) = []
  /\ RTZRWebSocketClient.audio_queue ready
     = Spec.submitted early ++ Spec.submitted during
  /\ snd (Spec.traffic ready later) ++ RTZRWebSocketClient.audio_queue final
     = Spec.submitted early ++ Spec.submitted during ++ Spec.submitted later
  /\ RTZRWebSocketClient.pending_audio final = [].
Proof.
  cbv zeta. intros _.
  destruct (traffic_not_ready early (RTZRWebSocketClient.__init__ room)
              eq_refl eq_refl) as (Ho1 & Hq1 & Hp1 & Hr1).
  cbn [RTZRWebSocketClient.__init__ RTZRWebSocketClient.pending_audio app]
    in Hp1.
  destruct (open_frame
              (fst (Spec.traffic (RTZRWebSocketClient.__init__ room) early))
              cb now endpoint (RTZRWebSocketClient.HandshakeOk sock))
    as (Hq2 & Hp2 & Hr2).
  specialize (Hr2 Hr1). rewrite Hq1 in Hq2. rewrite Hp1 in Hp2.
  destruct (traffic_not_ready during _ Hr2 Hq2) as (Ho3 & Hq3 & Hp3 & Hr3).
  rewrite Hp2 in Hp3.
  destruct (ready_moves_pending
              (fst (Spec.traffic
                      (fst (RTZRWebSocketClient.connect_websocket_open
                              (fst (Spec.traffic
                                      (RTZRWebSocketClient.__init__ room)
                                      early))
                              cb now endpoint
                              (RTZRWebSocketClient.HandshakeOk sock)))
                      during)))
    as (Hr4 & Hq4 & Hp4 & _).
  rewrite Hq3, Hp3 in Hq4. cbn [app] in Hq4.
  destruct (traffic_ready later _ Hr4) as (Ho5 & Hp5 & _).
  rewrite Hq4 in Ho5. rewrite Hp4 in Hp5.
  split; [exact Ho1|]. split; [exact Ho3|]. split; [exact Hq4|].
  split; [rewrite Ho5, <- app_assoc; reflexivity | exact Hp5].
Qed.

(** C1. The claim fails on the code when a call of [add_audio] on the
    server's thread falls inside lines 101 to 108 on the room's thread. A
    frame [f1] is pending when the link opens, and [f2] is submitted next.
    If the call for [f2] runs between line 101 and the loop, the queue is
    [f2; f1]. If it makes its test before line 101 and appends after line
    108, [f2] stays in [pending_audio] of a ready client, and whatever is
    submitted and sent afterwards it never reaches the queue. If it appends
    after the loop has ended and before line 108, [f2] is erased. With the
    call wholly before line 101 the queue is [f1; f2]. *)
Theorem audio_order_race (f1 f2 : RTZRWebSocketClient.bytes) :
  let endpoint := fun _ : nat =>
    RTZRWebSocketClient.Response 200
      (Some (Json.Obj [(Py.lit "access_token", Json.Str (Py.lit "tok"))])) in
  let waiting :=
    RTZRWebSocketClient.add_audio
      (RTZRWebSocketClient.__init__ (Py.lit "room")) f1 in
  let opened :=
    fst (RTZRWebSocketClient.connect_websocket_open waiting (Some 0%nat)
           0%float endpoint (RTZRWebSocketClient.HandshakeOk 0%nat)) in
  let reordered :=
    Spec.client
      (Spec.schedule (Spec.at_line_101 opened)
         [Spec.RoomStep; Spec.SubmitTests f2; Spec.SubmitActs; Spec.RoomStep;
          Spec.RoomStep; Spec.RoomStep; Spec.RoomStep]) in
  let stranded :=
    Spec.client
      (Spec.schedule (Spec.at_line_101 opened)
         [Spec.SubmitTests f2; Spec.RoomStep; Spec.RoomStep; Spec.RoomStep;
          Spec.RoomStep; Spec.RoomStep; Spec.SubmitActs]) in
  let erased :=
    Spec.client
      (Spec.schedule (Spec.at_line_101 opened)
         [Spec.SubmitTests f2; Spec.RoomStep; Spec.RoomStep; Spec.RoomStep;
          Spec.RoomStep; Spec.SubmitActs; Spec.RoomStep]) in
  (RTZRWebSocketClient.audio_queue reordered = [f2; f1]
   /\ RTZRWebSocketClient.pending_audio reordered = [])
  /\ (RTZRWebSocketClient.audio_queue stranded = [f1]
      /\ RTZRWebSocketClient.pending_audio stranded = [f2]
      /\ RTZRWebSocketClient.connection_ready stranded = true
      /\ forall events,
           RTZRWebSocketClient.pending_audio
             (fst (Spec.traffic stranded events)) = [f2]
           /\ snd (Spec.traffic stranded events)
              ++ RTZRWebSocketClient.audio_queue
                   (fst (Spec.traffic stranded events))
              = f1 :: Spec.submitted events)
  /\ (RTZRWebSocketClient.audio_queue erased = [f1]
      /\ RTZRWebSocketClient.pending_audio erased = [])
  /\ RTZRWebSocketClient.audio_queue
       (RTZRWebSocketClient.connect_websocket_ready
          (RTZRWebSocketClient.add_audio opened f2))
     = [f1; f2].
Proof.
  cbv zeta.
  split; [split; vm_compute; reflexivity|].
  split.
  { split; [vm_compute; reflexivity|]. split; [vm_compute; reflexivity|].
    split; [vm_compute; reflexivity|]. intros events.
    match goal with
    | |- context [Spec.traffic ?c events] =>
        destruct (traffic_ready events c) as (Hsent & Hpend & _);
          [vm_compute; reflexivity|]
    end.
    split.
    - etransitivity; [exact Hpend | vm_compute; reflexivity].
    - etransitivity; [exact Hsent | vm_compute; reflexivity]. }
  split; [split; vm_compute; reflexivity|].
  vm_compute. reflexivity.
Qed.

(** C8, the claim as it is written, at one frame: the endpoint rejects the
    first request for a token and [connect_websocket] returns; the frame
    submitted afterwards is not discarded but kept in [pending_audio]; when
    the caller connects again, the second request is granted, the link opens
    and the frame is handed to the queue and sent. *)
Lemma token_failure_counterexample :
  let endpoint := fun n : nat =>
    match n with
    | O => RTZRWebSocketClient.Response 401 None
    | S _ =>
        RTZRWebSocketClient.Response 200
          (Some (Json.Obj [(Py.lit "access_token", Json.Str (Py.lit "tok"))]))
    end in
  let created := RTZRWebSocketClient.__init__ (Py.lit "room") in
  let failed :=
    RTZRWebSocketClient.connect_websocket_open created (Some 0%nat) 0%float
      endpoint (RTZRWebSocketClient.HandshakeOk 0%nat) in
  let held := RTZRWebSocketClient.add_audio (fst failed) [Byte.x01] in
  let retried :=
    RTZRWebSocketClient.connect_websocket_open held (Some 0%nat) 1%float
      endpoint (RTZRWebSocketClient.HandshakeOk 0%nat) in
  let ready := RTZRWebSocketClient.connect_websocket_ready (fst retried) in
  snd (RTZRWebSocketClient.get_token created 0%float endpoint) = Json.Null
  /\ snd failed = RTZRWebSocketClient.Returned
  /\ RTZRWebSocketClient.pending_audio held = [[Byte.x01]]
  /\ snd retried = RTZRWebSocketClient.Connected
  /\ RTZRWebSocketClient.audio_queue ready = [[Byte.x01]]
  /\ snd (RTZRWebSocketClient.send_audio_step ready true) = Some [Byte.x01].
Proof. cbv zeta. repeat split; vm_compute; reflexivity. Qed.

(** C8, amended. When [get_token] returns [None], [connect_websocket]
    returns before it opens a socket: no [websockets.connect] is called, at
    most one request has gone to the token endpoint whatever a second request
    would have been answered, and [ws], [connection_ready] and the queue are
    as they were. On a client that is not ready, each frame submitted
    afterwards is kept on [pending_audio], in order, and none reaches
    [audio_queue]; the client stays not ready, and with an empty queue
    nothing goes out whatever frames are submitted and whatever send passes
    are made. Nothing is discarded: when the caller calls
    [connect_websocket] again and the link opens, the frames kept are handed
    to the queue, in the order of submission. *)
Theorem token_failure_keeps_frames (self : RTZRWebSocketClient.t)
  (cb : option RTZRWebSocketClient.Callable) (now : float)
  (endpoint : nat -> RTZRWebSocketClient.AuthReply)
  (hs : RTZRWebSocketClient.Handshake) :
  snd (RTZRWebSocketClient.get_token self now endpoint) = Json.Null ->
  RTZRWebSocketClient.connection_ready self = false ->
  let after :=
    fst (RTZRWebSocketClient.connect_websocket_open self cb now endpoint hs) in
  snd (RTZRWebSocketClient.connect_websocket_open self cb now endpoint hs)
  = RTZRWebSocketClient.Returned
  /\ RTZRWebSocketClient.ws after = RTZRWebSocketClient.ws self
  /\ RTZRWebSocketClient.ws_connects after
     = RTZRWebSocketClient.ws_connects self
  /\ (RTZRWebSocketClient.auth_posts after
      <= S (RTZRWebSocketClient.auth_posts self))%nat
  /\ RTZRWebSocketClient.connection_ready after = false
  /\ RTZRWebSocketClient.audio_queue after
     = RTZRWebSocketClient.audio_queue self
  /\ (forall frames,
        let final := fold_left RTZRWebSocketClient.add_audio frames after in
        RTZRWebSocketClient.audio_queue final
        = RTZRWebSocketClient.audio_queue self
        /\ RTZRWebSocketClient.pending_audio final
           = RTZRWebSocketClient.pending_audio self ++ frames
        /\ RTZRWebSocketClient.connection_ready final = false
        /\ RTZRWebSocketClient.ws final = RTZRWebSocketClient.ws self)
  /\ (RTZRWebSocketClient.audio_queue self = [] ->
      forall events,
        snd (Spec.traffic after events) = []
        /\ RTZRWebSocketClient.audio_queue (fst (Spec.traffic after events))
           = []
        /\ RTZRWebSocketClient.connection_ready
             (fst (Spec.traffic after events)) = false)
  /\ (forall frames cb' now' endpoint' sock,
        let retried :=
          RTZRWebSocketClient.connect_websocket_open
            (fold_left RTZRWebSocketClient.add_audio frames after)
            cb' now' endpoint' (RTZRWebSocketClient.HandshakeOk sock) in
        snd retried = RTZRWebSocketClient.Connected ->
        RTZRWebSocketClient.audio_queue
          (RTZRWebSocketClient.connect_websocket_ready (fst retried))
        = RTZRWebSocketClient.audio_queue self
          ++ RTZRWebSocketClient.pending_audio self ++ frames
        /\ RTZRWebSocketClient.pending_audio
             (RTZRWebSocketClient.connect_websocket_ready (fst retried))
           = []).
Proof.
  intros Hnone Hnr. cbv zeta.
  rewrite <- (get_token_callback self cb now endpoint) in Hnone.
  destruct (get_token_frame (RTZRWebSocketClient.set_on_transcript self cb)
              now endpoint) as (Hws & Hq & _ & _ & Hr & Hp & Hc & Ha).
  assert (Hopen :
    RTZRWebSocketClient.connect_websocket_open self cb now endpoint hs
    = (fst (RTZRWebSocketClient.get_token
              (RTZRWebSocketClient.set_on_transcript self cb) now endpoint),
       RTZRWebSocketClient.Returned)).
  { unfold RTZRWebSocketClient.connect_websocket_open.
    destruct (RTZRWebSocketClient.get_token
                (RTZRWebSocketClient.set_on_transcript self cb) now endpoint)
      as [s0 tok].
    cbn [fst snd] in *. subst tok. reflexivity. }
  rewrite Hopen. cbn [fst snd].
  set (s := fst (RTZRWebSocketClient.get_token
                   (RTZRWebSocketClient.set_on_transcript self cb) now
                   endpoint)) in *.
  assert (E : RTZRWebSocketClient.ws s = RTZRWebSocketClient.ws self
              /\ RTZRWebSocketClient.audio_queue s
                 = RTZRWebSocketClient.audio_queue self
              /\ RTZRWebSocketClient.connection_ready s = false
              /\ RTZRWebSocketClient.pending_audio s
                 = RTZRWebSocketClient.pending_audio self
              /\ RTZRWebSocketClient.ws_connects s
                 = RTZRWebSocketClient.ws_connects self
              /\ (RTZRWebSocketClient.auth_posts s
                  <= S (RTZRWebSocketClient.auth_posts self))%nat).
  { rewrite Hws, Hq, Hr, Hp, Hc. destruct self. cbn in *. repeat split; auto.
    lia. }
  destruct E as (E1 & E2 & E3 & E4 & E5 & E6).
  repeat (split; [first [assumption | reflexivity]|]). split; [|split].
  - intros frames. cbv zeta.
    destruct (submissions_not_ready frames s E3) as (H1 & H2 & H3 & H4).
    rewrite H1, H2, H3, H4, E1, E2, E4. auto.
  - intros Hq0 events. rewrite Hq0 in E2.
    destruct (traffic_not_ready events s E3 E2) as (H1 & H2 & _ & H4). auto.
  - intros frames cb' now' endpoint' sock _.
    destruct (submissions_not_ready frames s E3) as (H1 & H2 & _ & _).
    destruct (open_frame (fold_left RTZRWebSocketClient.add_audio frames s)
                cb' now' endpoint' (RTZRWebSocketClient.HandshakeOk sock))
      as (Hq' & Hp' & _).
    destruct (ready_moves_pending
                (fst (RTZRWebSocketClient.connect_websocket_open
                        (fold_left RTZRWebSocketClient.add_audio frames s)
                        cb' now' endpoint'
                        (RTZRWebSocketClient.HandshakeOk sock))))
      as (_ & Hq'' & Hp'' & _).
    rewrite Hq'', Hp'', Hq', Hp', H1, H2, E2, E4. auto.
Qed.

(** The endpoint rejects the first request and would grant the second. *)
Lemma token_failure_keeps_frames_witness :
  let endpoint := fun n : nat =>
    match n with
    | O => RTZRWebSocketClient.Response 401 None
    | S _ =>
        RTZRWebSocketClient.Response 200
          (Some (Json.Obj [(Py.lit "access_token", Json.Str (Py.lit "tok"))]))
    end in
  let after :=
    fst (RTZRWebSocketClient.connect_websocket_open
           (RTZRWebSocketClient.__init__ (Py.lit "room")) (Some 0%nat)
           0%float endpoint (RTZRWebSocketClient.HandshakeOk 0%nat)) in
  RTZRWebSocketClient.auth_posts after = 1%nat
  /\ RTZRWebSocketClient.pending_audio
       (fold_left RTZRWebSocketClient.add_audio [[Byte.x01]; [Byte.x02]] after)
     = [[Byte.x01]; [Byte.x02]].
Proof.
  cbv zeta. split; [vm_compute; reflexivity|].
  destruct (token_failure_keeps_frames
       (RTZRWebSocketClient.__init__ (Py.lit "room")) (Some 0%nat) 0%float
       (fun n : nat =>
          match n with
          | O => RTZRWebSocketClient.Response 401 None
          | S _ =>
              RTZRWebSocketClient.Response 200
                (Some (Json.Obj
                         [(Py.lit "access_token", Json.Str (Py.lit "tok"))]))
          end)
       (RTZRWebSocketClient.HandshakeOk 0%nat)
       ltac:(vm_compute; reflexivity) eq_refl)
    as (_ & _ & _ & _ & _ & _ & Hframes & _).
  apply (Hframes [[Byte.x01]; [Byte.x02]]).
Defined.

(** C7. With a callback registered and the loop running: a decoded message
    causes one call of the callback, with the stripped text, when it carries
    a finalized alternative with text, and no call otherwise; over the
    messages the loop handles, the calls are those due to the messages, in
    the order of receipt; a message with no alternatives and an error field
    causes no call, is logged, and the loop goes on with the next message,
    still running. *)
Theorem transcript_callback (self : RTZRWebSocketClient.t)
  (f : RTZRWebSocketClient.Callable) :
  RTZRWebSocketClient.on_transcript self = Some f ->
  RTZRWebSocketClient.running self = true ->
  (forall data,
     Spec.calls (match RTZRWebSocketClient.handle_message self data with
                 | Some effects => effects
                 | None => []
                 end)
     = match Spec.final_text data with
       | Some text => [(f, text)]
       | None => []
       end)
  /\ (forall incoming,
        Spec.calls (snd (RTZRWebSocketClient.receive_messages self incoming))
        = flat_map (Spec.due f) (Spec.handled self incoming))
  /\ (forall items rest,
        Json.lookup items (Py.lit "alternatives") = None ->
        Json.truthy (Json.get items (Py.lit "error")) = true ->
        Spec.final_text (Json.Obj items) = None
        /\ RTZRWebSocketClient.receive_messages self
             (RTZRWebSocketClient.Message (Some (Json.Obj items)) :: rest)
           = (fst (RTZRWebSocketClient.receive_messages self rest),
              RTZRWebSocketClient.LogSttError
                (Json.get items (Py.lit "error"))
              :: snd (RTZRWebSocketClient.receive_messages self rest))
        /\ RTZRWebSocketClient.is_running
             (fst (RTZRWebSocketClient.receive_messages self
                     [RTZRWebSocketClient.Message (Some (Json.Obj items))]))
           = true).
Proof.
  intros Hf Hrun. split; [|split].
  - intros data. apply (handle_message_calls self f data Hf).
  - intros incoming. apply (receive_calls self f incoming Hf Hrun).
  - intros items rest Halt Herr.
    assert (Hm : RTZRWebSocketClient.handle_message self (Json.Obj items)
                 = Some [RTZRWebSocketClient.LogSttError
                           (Json.get items (Py.lit "error"))]).
    { unfold RTZRWebSocketClient.handle_message,
        RTZRWebSocketClient.handle_alternatives.
      unfold Json.get at 1, Json.get_default at 1. rewrite Halt.
      cbn [Json.truthy]. rewrite Herr. reflexivity. }
    split; [|split].
    + unfold Spec.final_text. rewrite Halt. reflexivity.
    + cbn [RTZRWebSocketClient.receive_messages]. rewrite Hrun, Hm.
      destruct (RTZRWebSocketClient.receive_messages self rest). reflexivity.
    + cbn [RTZRWebSocketClient.receive_messages]. rewrite Hrun, Hm.
      cbn [fst]. unfold RTZRWebSocketClient.running in Hrun.
      apply andb_true_iff in Hrun. apply Hrun.
Qed.

(** An interim result, a final one, an error, an empty text and a second
    final result: the callback gets the two final texts, in order. *)
Lemma transcript_callback_witness :
  let self :=
    RTZRWebSocketClient.mk (Py.lit "room") None (Some 0%nat) [] true
      (Some 7%nat) true [] 0 0 in
  let message (text : Py.str) (final : bool) :=
    RTZRWebSocketClient.Message
      (Some (Json.Obj
               [(Py.lit "alternatives",
                 Json.Arr [Json.Obj [(Py.lit "text", Json.Str text)]]);
                (Py.lit "final", Json.Bool final)])) in
  Spec.calls
    (snd (RTZRWebSocketClient.receive_messages self
            [message (Py.lit "안녕") false;
             message (Py.lit " 안녕하세요 ") true;
             RTZRWebSocketClient.Message
               (Some (Json.Obj [(Py.lit "error", Json.Str (Py.lit "E"))]));
             message (Py.lit "  ") true;
             message (Py.lit "반갑습니다") true]))
  = [(7%nat, Py.lit "안녕하세요"); (7%nat, Py.lit "반갑습니다")].
Proof.
  cbv zeta.
  rewrite (proj1 (proj2 (transcript_callback
    (RTZRWebSocketClient.mk (Py.lit "room") None (Some 0%nat) [] true
       (Some 7%nat) true [] 0 0) 7%nat eq_refl eq_refl))).
  vm_compute. reflexivity.
Defined.

(* ================================================================== *)
(** * Further properties of the buffer *)
(* ================================================================== *)

Section BufferSessions.

Import Py TranscriptBuffer Spec Props.

Lemma ingest_held (self : t) (text : str) :
  held (ingest self text) = held self ++ split text.
Proof.
  unfold held. rewrite (extends_tokens _ _ _ _ (ingest_extends self text)).
  unfold tokens. rewrite app_assoc. reflexivity.
Qed.

Lemma arm_timer_held (self : t) : held (arm_timer self) = held self.
Proof.
  unfold held. destruct (arm_timer_content self) as [-> ->]. reflexivity.
Qed.

Lemma cancel_held (tm : Timer) (self : t) : held (cancel tm self) = held self.
Proof.
  unfold held. destruct (cancel_frame tm self) as (-> & -> & _). reflexivity.
Qed.

(** The words of the text a flush joins are the words the buffer holds. *)
Lemma split_flush_text (self : t) : split (flush_text self) = held self.
Proof.
  unfold flush_text, held, tokens. rewrite split_join, map_app, concat_app.
  f_equal. destruct (partial_text self); cbn [truthy map concat];
    [reflexivity | apply app_nil_r].
Qed.

Lemma before_flush_held (self : t) (op : Op) :
  held (before_flush self op) = held self ++ fed op.
Proof.
  destruct op as [text|tm]; cbn [before_flush fed].
  - apply ingest_held.
  - rewrite cancel_held, app_nil_r. reflexivity.
Qed.

(** One event: what it flushes and what the buffer then holds are what the
    buffer held and what the event brought. *)
Lemma step_words (self : t) (op : Op) :
  match snd (step self op) with
  | Some _ => split (flush_text (before_flush self op))
  | None => []
  end ++ held (fst (step self op))
  = held self ++ fed op.
Proof.
  destruct (snd (step self op)) as [b|] eqn:E.
  - assert (Hp := E). rewrite (step_flush self op b E) in Hp.
    rewrite (step_flush self op b E).
    destruct (process_result _ b Hp) as (_ & _ & _ & Hcs & Hpt & _).
    unfold held at 1. rewrite Hcs, Hpt. cbn [tokens map concat app].
    rewrite app_nil_r, split_flush_text. apply before_flush_held.
  - cbn [app]. destruct op as [text|tm]; cbn [step fed] in *.
    + destruct (split text) as [|w ws] eqn:Ew.
      * rewrite add_text_blank by assumption. cbn [fst].
        rewrite app_nil_r. reflexivity.
      * assert (Hw : split text <> []) by (rewrite Ew; discriminate).
        rewrite add_text_words in * by assumption. rewrite <- Ew.
        destruct (should_process (ingest self text)).
        -- destruct (process_some _ (ingest_outstanding self text Hw))
             as [b Hb]. congruence.
        -- cbn [fst]. rewrite arm_timer_held. apply ingest_held.
    + rewrite app_nil_r. unfold timer_fires in *.
      destruct (existsb _ (live_timers self)); cbn [fst snd] in *;
        [|reflexivity].
      rewrite (process_none _ E). apply cancel_held.
Qed.

Lemma run_fst_cons (self : t) (op : Op) (ops : list Op) :
  fst (run self (op :: ops)) = fst (run (fst (step self op)) ops).
Proof. reflexivity. Qed.

End BufferSessions.

(** X1. A call of [add_text] with an empty or blank text is turned away
    before anything is touched: in any sequence of events, the blank texts
    can be left out and the buffer, its timers and the batches come out the
    same. *)
Theorem blank_text_is_ignored (self : TranscriptBuffer.t)
  (ops : list Spec.Op) :
  Spec.run self ops = Spec.run self (filter Props.has_effect ops).
Proof.
  revert self. induction ops as [|op ops IH]; intros self; [reflexivity|].
  cbn [filter]. destruct (Props.has_effect op) eqn:E.
  - cbn [Spec.run]. rewrite IH. reflexivity.
  - destruct op as [text|tm]; [|discriminate].
    cbn [Props.has_effect] in E.
    assert (Hb : Py.split text = []).
    { apply split_nil_strip. destruct (Py.strip text); [reflexivity|].
      discriminate. }
    cbn [Spec.run Spec.step]. rewrite (add_text_blank self text Hb).
    cbn [fst snd]. rewrite <- IH.
    destruct (Spec.run self ops). reflexivity.
Qed.

(** X2. As long as every call of [add_text] and every flush a timer runs
    goes to its end before the next begins, no word is lost, repeated or
    moved: over any such sequence of texts and timer firings, the words the
    flushes joined, in the order of the flushes, followed by the words still
    in the buffer, are the words the buffer held at the start followed by
    the words of the texts, in the order they came. *)
Theorem words_are_conserved (self : TranscriptBuffer.t)
  (ops : list Spec.Op) :
  Props.flushed_words self ops ++ Props.held (fst (Spec.run self ops))
  = Props.held self ++ concat (map Props.fed ops).
Proof.
  revert self. induction ops as [|op ops IH]; intros self.
  - cbn. rewrite app_nil_r. reflexivity.
  - cbn [Props.flushed_words map concat]. rewrite run_fst_cons.
    rewrite <- app_assoc, IH, !app_assoc. f_equal. apply step_words.
Qed.

Section Sentences.

Import Py TranscriptBuffer Spec Props.

Lemma normalised_join_words (ws : list str) :
  Forall word ws -> normalised (join (lit " ") ws).
Proof. intros H. unfold normalised. rewrite (split_join_words ws H). reflexivity. Qed.

Lemma sentence_not_empty (g : list str) :
  sentence_words g -> join (lit " ") g <> [].
Proof.
  intros [Hne Hw]. assert (Ht := truthy_join_words g Hw).
  destruct g; [congruence|]. destruct (join _ _); discriminate.
Qed.

Lemma is_sentence_end_last (w : str) (next : option str) :
  is_sentence_end w next = true -> is_sentence_end w None = true.
Proof.
  unfold is_sentence_end. destruct (existsb (endswith w) punctuation);
    [reflexivity|].
  rewrite !check_endings_any. intros H. apply andb_true_iff in H.
  destruct H as [-> _]. reflexivity.
Qed.

Lemma group_last (words : list str) :
  words <> [] ->
  is_sentence_end (last words []) None = true ->
  forall pend, snd (group words pend) = [].
Proof.
  induction words as [|w rest IH]; intros Hne Hlast pend; [congruence|].
  cbn [group]. destruct rest as [|w' rest'].
  - cbn [last hd_error] in *. rewrite Hlast. reflexivity.
  - assert (Hl : last (w :: w' :: rest') [] = last (w' :: rest') [])
      by reflexivity.
    rewrite Hl in Hlast.
    destruct (is_sentence_end w (hd_error (w' :: rest'))); cbn [snd];
      apply IH; try discriminate; assumption.
Qed.

Lemma group_no_end (words : list str) :
  Forall (fun w => is_sentence_end w None = false) words ->
  forall pend, group words pend = ([], pend ++ words).
Proof.
  induction 1 as [|w rest Hw _ IH]; intros pend; cbn [group].
  - rewrite app_nil_r. reflexivity.
  - destruct (is_sentence_end w (hd_error rest)) eqn:E.
    + apply is_sentence_end_last in E. congruence.
    + rewrite IH, <- app_assoc. reflexivity.
Qed.

End Sentences.

(** X3. The sentences [_split_into_sentences] returns are never empty, and
    they and the remainder come out with their words joined by single
    blanks and no whitespace around them, however the words of the input
    were spaced. *)
Theorem sentences_are_normalised (text : Py.str) :
  Forall (fun s => s <> [] /\ Props.normalised s /\ Py.strip s = s)
         (fst (TranscriptBuffer._split_into_sentences text))
  /\ Props.normalised (snd (TranscriptBuffer._split_into_sentences text))
  /\ Py.strip (snd (TranscriptBuffer._split_into_sentences text))
     = snd (TranscriptBuffer._split_into_sentences text).
Proof.
  rewrite split_into_sentences_group. cbn [fst snd].
  destruct (group_partition (Py.split text) (split_words text) []
              (Forall_nil _)) as (Hg & Hp & _).
  split; [|split].
  - apply Forall_forall. intros s Hs. apply in_map_iff in Hs.
    destruct Hs as (g & <- & Hin). rewrite Forall_forall in Hg.
    specialize (Hg g Hin). split; [apply sentence_not_empty, Hg|].
    split; [apply normalised_join_words, Hg | apply strip_join_words, Hg].
  - apply normalised_join_words, Hp.
  - apply strip_join_words, Hp.
Qed.

(** X4. When the last word of a text ends in [.], [!], [?] or one of the
    sentence endings, no partial text remains: every word of the text is
    in a sentence. *)
Theorem last_word_closes (text : Py.str) :
  Py.split text <> [] ->
  TranscriptBuffer.is_sentence_end (last (Py.split text) []) None = true ->
  snd (TranscriptBuffer._split_into_sentences text) = []
  /\ concat (map Py.split (fst (TranscriptBuffer._split_into_sentences text)))
     = Py.split text.
Proof.
  intros Hne Hlast.
  destruct (group_partition (Py.split text) (split_words text) []
              (Forall_nil _)) as (Hg & Hp & Hc).
  assert (Hpart := tokens_of_groups _ _ Hg Hp).
  rewrite Hc in Hpart. cbn [app] in Hpart.
  rewrite split_into_sentences_group. cbn [fst snd].
  rewrite (group_last (Py.split text) Hne Hlast []) in *.
  split; [reflexivity|]. unfold Spec.tokens in Hpart.
  cbn [Py.join Py.split Py.split_go Py.push_word] in Hpart.
  rewrite app_nil_r in Hpart. exact Hpart.
Qed.

Lemma last_word_closes_witness :
  snd (TranscriptBuffer._split_into_sentences
         (Py.lit "  오늘   날씨가 좋습니다 "))
  = [].
Proof.
  refine (proj1 (last_word_closes (Py.lit "  오늘   날씨가 좋습니다 ") _ _)).
  - intros H. vm_compute in H. discriminate H.
  - vm_compute. reflexivity.
Defined.

(** X5. When no word of a text ends in [.], [!], [?] or one of the sentence
    endings, no sentence is returned and the remainder is the whole text,
    its words joined by single blanks. *)
Theorem no_end_no_sentence (text : Py.str) :
  Forall (fun w => TranscriptBuffer.is_sentence_end w None = false)
         (Py.split text) ->
  TranscriptBuffer._split_into_sentences text
  = ([], Py.join (Py.lit " ") (Py.split text)).
Proof.
  intros H. rewrite split_into_sentences_group.
  rewrite (group_no_end (Py.split text) H []). reflexivity.
Qed.

Lemma no_end_no_sentence_witness :
  TranscriptBuffer._split_into_sentences (Py.lit " 그리고   생각해보면 ")
  = ([], Py.lit "그리고 생각해보면").
Proof.
  rewrite (no_end_no_sentence (Py.lit " 그리고   생각해보면 ")).
  - vm_compute. reflexivity.
  - repeat constructor.
Defined.

Section BufferInvariants.

Import Py TranscriptBuffer Spec Props.

Lemma should_process_false (self : t) :
  should_process self = false ->
  (Z.of_nat (length (current_sentences self)) < TARGET_SENTENCES self)%Z.
Proof.
  unfold should_process.
  destruct (_ >=? TARGET_SENTENCES self)%Z eqn:Et; [discriminate|].
  intros _. rewrite Z.geb_leb in Et. apply Z.leb_gt in Et. exact Et.
Qed.

Lemma step_below_target (self : t) (op : Op) :
  (0 < TARGET_SENTENCES self)%Z ->
  (Z.of_nat (length (current_sentences self)) < TARGET_SENTENCES self)%Z ->
  (Z.of_nat (length (current_sentences (fst (step self op))))
   < TARGET_SENTENCES self)%Z.
Proof.
  intros Hpos Hinv.
  destruct (snd (step self op)) as [b|] eqn:E.
  - assert (Hp := E). rewrite (step_flush self op b E) in Hp.
    rewrite (step_flush self op b E).
    destruct (process_result _ b Hp) as (_ & _ & _ & -> & _). exact Hpos.
  - destruct op as [text|tm]; cbn [step] in *.
    + destruct (split text) as [|w ws] eqn:Ew.
      * rewrite add_text_blank by assumption. exact Hinv.
      * assert (Hw : split text <> []) by (rewrite Ew; discriminate).
        rewrite add_text_words in * by assumption.
        destruct (should_process (ingest self text)) eqn:Es.
        -- destruct (process_some _ (ingest_outstanding self text Hw))
             as [b Hb]. congruence.
        -- cbn [fst]. destruct (arm_timer_content (ingest self text))
             as [-> _].
           apply should_process_false in Es.
           destruct (ingest_frame self text)
             as (_ & _ & _ & _ & _ & _ & Ht & _).
           rewrite Ht in Es. exact Es.
    + unfold timer_fires in *.
      destruct (existsb _ (live_timers self)); cbn [fst snd] in *;
        [|exact Hinv].
      rewrite (process_none _ E).
      destruct (cancel_frame tm self) as (-> & _). exact Hinv.
Qed.

Lemma step_live_outstanding (self : t) (op : Op) :
  timers_ok self ->
  live_means_outstanding self ->
  live_means_outstanding (fst (step self op)).
Proof.
  intros Hok Hinv. unfold live_means_outstanding in *.
  destruct op as [text|tm]; cbn [step].
  - destruct (split text) as [|w ws] eqn:Ew.
    + rewrite add_text_blank by assumption. exact Hinv.
    + assert (Hw : split text <> []) by (rewrite Ew; discriminate).
      destruct (add_text_timers self text Hok Hw) as [Hs _].
      destruct (snd (add_text self text)) as [b|] eqn:Er.
      * destruct (Hs b eq_refl) as (_ & -> & _). congruence.
      * intros _. rewrite add_text_words in * by assumption.
        destruct (should_process (ingest self text)).
        -- destruct (process_some _ (ingest_outstanding self text Hw))
             as [b Hb]. congruence.
        -- cbn [fst]. unfold outstanding.
           destruct (arm_timer_content (ingest self text)) as [-> ->].
           apply ingest_outstanding, Hw.
  - unfold timer_fires.
    destruct (existsb _ (live_timers self)) eqn:Ex; cbn [fst];
      [|exact Hinv].
    intros Hlive. exfalso. apply Hlive.
    destruct (process_frame (cancel tm self)) as (_ & _ & -> & _).
    destruct Hok as [[E|(tm0 & _ & E)] _]; unfold cancel;
      destruct self; buffer_fields; subst; [reflexivity|].
    cbn [existsb orb filter] in *. rewrite orb_false_r in Ex.
    rewrite Ex. reflexivity.
Qed.

Lemma reachable_live_outstanding (cfg : Config.Settings) (self : t) :
  reachable cfg self -> live_means_outstanding self.
Proof.
  induction 1 as [room cb|self op Hr IH].
  - intros H. contradiction H. reflexivity.
  - apply step_live_outstanding; [|exact IH].
    apply (reachable_timers_ok cfg), Hr.
Qed.



End BufferInvariants.

(** X6. Between any two events of a session the buffer holds fewer
    complete sentences than the target, whenever the target is positive:
    with the settings of [app/config.py], never more than three. *)
Theorem sentences_below_target (cfg : Config.Settings)
  (self : TranscriptBuffer.t) :
  Spec.reachable cfg self ->
  (0 < Config.BUFFER_TARGET_SENTENCES cfg)%Z ->
  (Z.of_nat (length (TranscriptBuffer.current_sentences self))
   < Config.BUFFER_TARGET_SENTENCES cfg)%Z.
Proof.
  intros Hr Hpos. induction Hr as [room cb|self op Hr IH].
  - exact Hpos.
  - destruct (reachable_settings cfg self Hr) as (Ht & _).
    rewrite <- Ht in *. apply step_below_target; assumption.
Qed.

Lemma sentences_below_target_witness :
  (Z.of_nat
     (length (TranscriptBuffer.current_sentences
                (fst (Spec.step
                        (fst (Spec.step Spec.fresh
                                (Spec.AddText (Py.lit "가자! 와! 끝."))))
                        (Spec.AddText (Py.lit "좋습니다 그리고"))))))
   < 4)%Z.
Proof.
  apply (sentences_below_target Config.settings
    (fst (Spec.step
            (fst (Spec.step Spec.fresh
                    (Spec.AddText (Py.lit "가자! 와! 끝."))))
            (Spec.AddText (Py.lit "좋습니다 그리고"))))).
  - apply Spec.reach_step. apply Spec.reach_step.
    exact (Spec.reach_init Config.settings (Py.lit "room") true).
  - reflexivity.
Defined.

(** X7. In a session whose calls of [add_text] and whose flushes each go to
    their end before the next begins, a live timer always has something to
    flush: when it fires and its flush runs undisturbed, a batch is
    produced, the buffer is left empty with no timer live, and the callback,
    when there is one, is called with the text and the context of that
    batch. *)
Theorem live_timer_delivers (cfg : Config.Settings)
  (self : TranscriptBuffer.t) (tm : TranscriptBuffer.Timer) :
  Spec.reachable cfg self ->
  In tm (TranscriptBuffer.live_timers self) ->
  exists b,
    snd (Spec.step self (Spec.TimerFires tm)) = Some b
    /\ TranscriptBuffer.current_sentences
         (fst (Spec.step self (Spec.TimerFires tm))) = []
    /\ TranscriptBuffer.partial_text
         (fst (Spec.step self (Spec.TimerFires tm))) = []
    /\ TranscriptBuffer.live_timers
         (fst (Spec.step self (Spec.TimerFires tm))) = []
    /\ (TranscriptBuffer.callback self = true ->
        snd (TranscriptBuffer.timer_fires tm self)
        = Some (TranscriptBuffer.korean_processed b,
                TranscriptBuffer.context b)).
Proof.
  intros Hr Hin.
  assert (Hok := reachable_timers_ok cfg self Hr).
  assert (Hout : Spec.outstanding self).
  { apply (reachable_live_outstanding cfg self Hr).
    intros E. rewrite E in Hin. exact Hin. }
  assert (Hlive : TranscriptBuffer.live_timers self = [tm]).
  { destruct Hok as [[E|(tm0 & _ & E)] _]; rewrite E in Hin;
      [contradiction|]. destruct Hin as [->|[]]. exact E. }
  assert (Hout' : Spec.outstanding (TranscriptBuffer.cancel tm self)).
  { unfold Spec.outstanding.
    destruct (cancel_frame tm self) as (-> & -> & _). exact Hout. }
  destruct (process_some _ Hout') as [b Hb].
  assert (Hstep : Spec.step self (Spec.TimerFires tm)
                  = TranscriptBuffer._process_sentences
                      (TranscriptBuffer.cancel tm self)).
  { cbn [Spec.step]. unfold TranscriptBuffer.timer_fires. rewrite Hlive.
    cbn [existsb]. rewrite Nat.eqb_refl. cbn [orb fst].
    destruct (TranscriptBuffer._process_sentences _). reflexivity. }
  exists b. rewrite Hstep.
  destruct (process_result _ b Hb) as (_ & _ & _ & Hcs & Hpt & _).
  destruct (process_frame (TranscriptBuffer.cancel tm self))
    as (_ & _ & Hl & _ & Hcb & _).
  split; [exact Hb|]. split; [exact Hcs|]. split; [exact Hpt|]. split.
  - rewrite Hl. unfold TranscriptBuffer.cancel. destruct self.
    buffer_fields. subst. cbn [filter]. rewrite Nat.eqb_refl. reflexivity.
  - intros Hc. unfold TranscriptBuffer.timer_fires. rewrite Hlive.
    cbn [existsb]. rewrite Nat.eqb_refl. cbn [orb snd].
    unfold TranscriptBuffer._timeout_flush.
    destruct (TranscriptBuffer._process_sentences
                (TranscriptBuffer.cancel tm self)) as [s r] eqn:E.
    cbn [fst snd] in *. subst r. rewrite Hcb.
    destruct (cancel_frame tm self) as (_ & _ & _ & _ & -> & _).
    rewrite Hc. reflexivity.
Qed.

Lemma live_timer_delivers_witness :
  snd (TranscriptBuffer.timer_fires
         {| TranscriptBuffer.timer_id := 0;
            TranscriptBuffer.interval := 2.0%float |}
         (fst (TranscriptBuffer.add_text Spec.fresh
                 (Py.lit "그리고 생각해보면"))))
  = Some (Py.lit "그리고 생각해보면", []).
Proof.
  destruct (live_timer_delivers Config.settings
    (fst (TranscriptBuffer.add_text Spec.fresh (Py.lit "그리고 생각해보면")))
    {| TranscriptBuffer.timer_id := 0;
       TranscriptBuffer.interval := 2.0%float |})
    as (b & Hb & _ & _ & _ & Hcall).
  - apply (Spec.reach_step Config.settings Spec.fresh
             (Spec.AddText (Py.lit "그리고 생각해보면"))).
    apply Spec.reach_init.
  - vm_compute. left. reflexivity.
  - rewrite (Hcall eq_refl).
    vm_compute in Hb. injection Hb as <-. vm_compute. reflexivity.
Defined.


Section Overlap.

Import Py TranscriptBuffer Spec Props.

(** The flush is its head followed, when there is a batch, by the
    clearing. *)
Lemma process_head_clear (self : t) :
  _process_sentences self
  = (match snd (_process_sentences_head self) with
     | Some _ => _process_sentences_clear (fst (_process_sentences_head self))
     | None => fst (_process_sentences_head self)
     end,
     snd (_process_sentences_head self)).
Proof.
  destruct self as [rid cb cs p h tm T M PT ST live made].
  unfold _process_sentences, _process_sentences_head,
    _process_sentences_clear.
  buffer_fields.
  destruct (negb (0 <? length cs)%nat && negb (truthy p)); [reflexivity|].
  destruct (truthy p); buffer_fields; destruct (5 <? _)%nat; reflexivity.
Qed.

(** What the head of a flush leaves when there is something to flush. *)
Lemma process_head_eq (self : t) :
  outstanding self ->
  let context := join (lit " ") (last_n 3 (context_history self)) in
  let text := TextCorrector.fix_text (flush_text self) context (room_id self) in
  _process_sentences_head self
  = (mk (room_id self) (callback self) (current_sentences self) []
        (cap5 (context_history self ++ [text])) (timer self)
        (TARGET_SENTENCES self) (MAX_SENTENCES self) (PARTIAL_TIMEOUT self)
        (SENTENCE_TIMEOUT self) (live_timers self) (timers_made self),
     Some {| korean_processed := text; context := context |}).
Proof.
  destruct self as [rid cb cs p h tm T M PT ST live made].
  unfold outstanding, _process_sentences_head, cap5, flush_text.
  buffer_fields. intros Hout.
  assert (Hany : negb (0 <? length cs)%nat && negb (truthy p) = false).
  { destruct cs, p; try reflexivity. destruct Hout; congruence. }
  rewrite Hany.
  assert (Hctx : match h with
                 | [] => []
                 | _ :: _ => join (lit " ") (last_n 3 h)
                 end = join (lit " ") (last_n 3 h)).
  { destruct h; reflexivity. }
  destruct p as [|c p]; cbn [truthy]; buffer_fields;
    rewrite ?app_nil_r, Hctx; destruct (5 <? _)%nat; reflexivity.
Qed.

End Overlap.

(** X28. A flush that a timer runs is not atomic against [add_text]. When a
    call of [add_text] with a text that has a word in it, and that does not
    itself flush, falls between line 183 and line 186 of a flush in
    progress: the batch of the flush is the one it would have been without
    the call; the call returns no batch; and the clearing that follows
    erases the sentences the call has just stored, so that afterwards the
    buffer holds the unfinished rest of the text and nothing else. The
    complete sentences of the text are in no batch and not in the buffer. If
    the text had such sentences the call has left a timer live, and if it had
    no unfinished rest that timer, when it fires, finds nothing to flush. *)
Theorem overlapping_flush_loses_sentences (self : TranscriptBuffer.t)
  (text : Py.str) :
  Spec.outstanding self ->
  Py.split text <> [] ->
  let flushing := fst (TranscriptBuffer._process_sentences_head self) in
  TranscriptBuffer.should_process (TranscriptBuffer.ingest flushing text)
  = false ->
  let after :=
    TranscriptBuffer._process_sentences_clear
      (fst (TranscriptBuffer.add_text flushing text)) in
  let sentences :=
    fst (TranscriptBuffer._split_into_sentences (Py.strip text)) in
  let remaining :=
    snd (TranscriptBuffer._split_into_sentences (Py.strip text)) in
  snd (TranscriptBuffer._process_sentences_head self)
  = snd (TranscriptBuffer._process_sentences self)
  /\ snd (TranscriptBuffer.add_text flushing text) = None
  /\ TranscriptBuffer.current_sentences
       (fst (TranscriptBuffer.add_text flushing text))
     = TranscriptBuffer.current_sentences self ++ sentences
  /\ TranscriptBuffer.current_sentences after = []
  /\ TranscriptBuffer.partial_text after = remaining
  /\ (sentences <> [] -> TranscriptBuffer.live_timers after <> [])
  /\ (remaining = [] ->
      forall tm,
        snd (fst (TranscriptBuffer.timer_fires tm after)) = None).
Proof.
  intros Hout Hne. cbv zeta.
  rewrite (process_head_clear self). cbn [snd].
  rewrite (process_head_eq self Hout). cbn [fst snd].
  set (flushing :=
         TranscriptBuffer.mk (TranscriptBuffer.room_id self)
           (TranscriptBuffer.callback self)
           (TranscriptBuffer.current_sentences self) [] _
           (TranscriptBuffer.timer self) _ _ _ _ _ _).
  intros Hno. rewrite (add_text_words flushing text Hne), Hno. cbn [fst snd].
  assert (Hcomb : Spec.combined flushing text = Py.strip text)
    by reflexivity.
  assert (Hcs := ingest_current_sentences flushing text).
  assert (Hp := ingest_partial_text flushing text).
  rewrite Hcomb in Hcs, Hp.
  change (TranscriptBuffer.current_sentences flushing)
    with (TranscriptBuffer.current_sentences self) in Hcs.
  destruct (arm_timer_content (TranscriptBuffer.ingest flushing text))
    as [Hac Hap].
  split; [reflexivity|]. split; [reflexivity|].
  split; [rewrite Hac; exact Hcs|].
  split; [reflexivity|].
  split.
  { unfold TranscriptBuffer._process_sentences_clear.
    transitivity (TranscriptBuffer.partial_text
                    (TranscriptBuffer.arm_timer
                       (TranscriptBuffer.ingest flushing text))).
    - destruct (TranscriptBuffer.arm_timer _); reflexivity.
    - rewrite Hap. exact Hp. }
  split.
  { intros Hs.
    assert (Hlive : TranscriptBuffer.live_timers
                      (TranscriptBuffer.arm_timer
                         (TranscriptBuffer.ingest flushing text)) <> []).
    { unfold TranscriptBuffer.arm_timer. rewrite Hcs.
      destruct (TranscriptBuffer.current_sentences self
                ++ fst (TranscriptBuffer._split_into_sentences
                          (Py.strip text))) as [|x l] eqn:E.
      - apply app_eq_nil in E. destruct E as [_ E]. contradiction.
      - unfold TranscriptBuffer.start_timer. buffer_fields.
        intros H. apply app_eq_nil in H. destruct H as [_ H].
        discriminate H. }
    unfold TranscriptBuffer._process_sentences_clear.
    destruct (TranscriptBuffer.arm_timer _); exact Hlive. }
  intros Hr tm. unfold TranscriptBuffer.timer_fires.
  destruct (existsb _ _); [|reflexivity]. cbn [fst snd].
  assert (Hempty : forall s,
            TranscriptBuffer.current_sentences s = [] ->
            TranscriptBuffer.partial_text s = [] ->
            snd (TranscriptBuffer._process_sentences s) = None).
  { intros s H1 H2. unfold TranscriptBuffer._process_sentences.
    rewrite H1, H2. reflexivity. }
  apply Hempty.
  - unfold TranscriptBuffer.cancel, TranscriptBuffer._process_sentences_clear.
    destruct (TranscriptBuffer.arm_timer _); reflexivity.
  - unfold TranscriptBuffer.cancel, TranscriptBuffer._process_sentences_clear.
    transitivity (TranscriptBuffer.partial_text
                    (TranscriptBuffer.arm_timer
                       (TranscriptBuffer.ingest flushing text))).
    + destruct (TranscriptBuffer.arm_timer _); reflexivity.
    + rewrite Hap, Hp. exact Hr.
Qed.

(** A sentence is waiting when the timer's flush begins, and a text of one
    sentence arrives before the flush has cleared the list. *)
Lemma overlapping_flush_loses_sentences_witness :
  let self :=
    fst (TranscriptBuffer.add_text
           (TranscriptBuffer.__init__ Config.settings (Py.lit "room") true)
           (Py.lit "안녕하세요.")) in
  let flushing := fst (TranscriptBuffer._process_sentences_head self) in
  let text := Py.lit "반갑습니다." in
  let after :=
    TranscriptBuffer._process_sentences_clear
      (fst (TranscriptBuffer.add_text flushing text)) in
  TranscriptBuffer.current_sentences
    (fst (TranscriptBuffer.add_text flushing text))
  = [Py.lit "안녕하세요."; Py.lit "반갑습니다."]
  /\ TranscriptBuffer.current_sentences after = []
  /\ TranscriptBuffer.partial_text after = [].
Proof.
  cbv zeta.
  destruct (overlapping_flush_loses_sentences
              (fst (TranscriptBuffer.add_text
                      (TranscriptBuffer.__init__ Config.settings
                         (Py.lit "room") true)
                      (Py.lit "안녕하세요.")))
              (Py.lit "반갑습니다."))
    as (_ & _ & Hstored & Hcleared & Hrest & _).
  - left. vm_compute. discriminate.
  - vm_compute. discriminate.
  - vm_compute. reflexivity.
  - split; [|split; [exact Hcleared|]].
    + rewrite Hstored. vm_compute. reflexivity.
    + rewrite Hrest. vm_compute. reflexivity.
Defined.

(* ================================================================== *)
(** * Further properties of the corrector *)
(* ================================================================== *)

Section Corrector.

Import Py TextCorrector Props.

Lemma apply_table_clean (table : list (str * str)) (text : str) :
  forallb (fun entry : str * str => negb (contains text (fst entry))) table
  = true ->
  apply_table table text = text.
Proof.
  unfold apply_table. induction table as [|[wrong correct] table IH];
    cbn [forallb fold_left fst]; [reflexivity|].
  intros H. apply andb_true_iff in H. destruct H as [Hw Ht].
  apply negb_true_iff in Hw. rewrite Hw. apply IH, Ht.
Qed.

End Corrector.

Transparent TextCorrector.fix_text.

(** X9. A text in which no entry of the two correction tables occurs, and
    which is not one of the two special phrases, comes back stripped and
    otherwise as it was, or with a subject put in front of it; it comes
    back as it was when the context is empty, when the text names a subject
    or when it has 15 characters or more. *)
Theorem clean_text_is_kept (text context room_id : Py.str) :
  Props.clean (Py.strip text) = true ->
  Py.eqb (Py.strip text) (Py.lit "그래서가")
  || Py.eqb (Py.strip text) (Py.lit "그래서 가") = false ->
  (TextCorrector.fix_text text context room_id = Py.strip text
   \/ TextCorrector.fix_text text context room_id
      = Py.lit "저는 " ++ Py.strip text
   \/ TextCorrector.fix_text text context room_id
      = Py.lit "우리는 " ++ Py.strip text)
  /\ (context = []
      \/ existsb (Py.contains (Py.strip text)) TextCorrector.subjects = true
      \/ (15 <= Py.len (Py.strip text))%nat ->
      TextCorrector.fix_text text context room_id = Py.strip text).
Proof.
  intros Hclean Hspecial. unfold Props.clean in Hclean.
  rewrite forallb_app in Hclean. apply andb_true_iff in Hclean.
  destruct Hclean as [Hp Hf].
  unfold TextCorrector.fix_text.
  rewrite (apply_table_clean _ _ Hp), (apply_table_clean _ _ Hf), Hspecial.
  split.
  - destruct (negb (existsb _ TextCorrector.subjects)); [|left; reflexivity].
    destruct ((Py.len (Py.strip text) <? 15)%nat && _);
      [|left; reflexivity].
    destruct (Py.truthy context && _); [right; left; reflexivity|].
    destruct (Py.truthy context && _); [right; right; reflexivity|].
    left. reflexivity.
  - intros [->|[Hs|Hl]].
    + cbn [Py.truthy andb].
      destruct (negb _); [|reflexivity]. destruct (_ && _); reflexivity.
    + rewrite Hs. reflexivity.
    + apply Nat.ltb_ge in Hl. rewrite Hl. cbn [andb].
      destruct (negb _); reflexivity.
Qed.

Opaque TextCorrector.fix_text.

Lemma clean_text_is_kept_witness :
  TextCorrector.fix_text (Py.lit "  감사합니다 ") (Py.lit "저는 갑니다") []
  = Py.lit "저는 감사합니다"
  /\ TextCorrector.fix_text (Py.lit "  감사합니다 ") [] []
     = Py.lit "감사합니다".
Proof.
  split; [vm_compute; reflexivity|].
  rewrite (proj2 (clean_text_is_kept (Py.lit "  감사합니다 ") [] []
                    ltac:(vm_compute; reflexivity)
                    ltac:(vm_compute; reflexivity))
             (or_introl eq_refl)).
  vm_compute. reflexivity.
Defined.

(* ================================================================== *)
(** * Further properties of the recognition link *)
(* ================================================================== *)

Section Tokens.

Import Py RTZRWebSocketClient Spec Props.

(** [get_token] when the token is stale, by what the endpoint replies. *)
Lemma get_token_stale (self : t) (now : float) (endpoint : nat -> AuthReply) :
  stale self now = true ->
  get_token self now endpoint
  = match granted (endpoint (auth_posts self)) with
    | Some tok =>
        (set_token (set_auth_posts self (S (auth_posts self)))
           (Some {| access_token := tok;
                    expire_at := PrimFloat.add now 86400%float |}),
         tok)
    | None => (set_auth_posts self (S (auth_posts self)), Json.Null)
    end.
Proof.
  unfold stale, get_token, granted. intros ->.
  destruct (endpoint (auth_posts self)) as [|code [[| | | | | |items]|]];
    try reflexivity; destruct (code =? 200)%Z; reflexivity.
Qed.

Lemma get_token_fresh (self : t) (now : float) (endpoint : nat -> AuthReply)
  (tk : Token) :
  _token self = Some tk ->
  PrimFloat.ltb (expire_at tk) now = false ->
  get_token self now endpoint = (self, access_token tk).
Proof.
  intros Ht Hl. unfold get_token. rewrite Ht, Hl. reflexivity.
Qed.

End Tokens.

(** X10. A token that was granted is kept: until the clock passes its
    expiry, 86400 seconds after it was fetched, every call of [get_token]
    returns it and sends no request, whatever the endpoint would reply. *)
Theorem token_is_cached (self : RTZRWebSocketClient.t) (now later : float)
  (endpoint other : nat -> RTZRWebSocketClient.AuthReply)
  (tok : Json.value) :
  Props.stale self now = true ->
  Props.granted (endpoint (RTZRWebSocketClient.auth_posts self)) = Some tok ->
  PrimFloat.ltb (PrimFloat.add now 86400%float) later = false ->
  let fetched := RTZRWebSocketClient.get_token self now endpoint in
  snd fetched = tok
  /\ RTZRWebSocketClient.auth_posts (fst fetched)
     = S (RTZRWebSocketClient.auth_posts self)
  /\ RTZRWebSocketClient.get_token (fst fetched) later other
     = (fst fetched, tok).
Proof.
  intros Hs Hg Hl. cbv zeta. rewrite (get_token_stale self now endpoint Hs).
  rewrite Hg. cbn [fst snd]. split; [reflexivity|]. split.
  - destruct self; reflexivity.
  - apply (get_token_fresh _ later other
             {| RTZRWebSocketClient.access_token := tok;
                RTZRWebSocketClient.expire_at :=
                  PrimFloat.add now 86400%float |});
      [destruct self; reflexivity | exact Hl].
Qed.

Lemma token_is_cached_witness :
  let endpoint := fun _ : nat =>
    RTZRWebSocketClient.Response 200
      (Some (Json.Obj [(Py.lit "access_token", Json.Str (Py.lit "tok"))])) in
  let fetched :=
    RTZRWebSocketClient.get_token
      (RTZRWebSocketClient.__init__ (Py.lit "room")) 1000%float endpoint in
  RTZRWebSocketClient.get_token (fst fetched) 87400%float
    (fun _ => RTZRWebSocketClient.Unreachable)
  = (fst fetched, Json.Str (Py.lit "tok")).
Proof.
  cbv zeta.
  apply (token_is_cached (RTZRWebSocketClient.__init__ (Py.lit "room"))
           1000%float 87400%float
           (fun _ : nat =>
              RTZRWebSocketClient.Response 200
                (Some (Json.Obj
                         [(Py.lit "access_token", Json.Str (Py.lit "tok"))])))
           (fun _ => RTZRWebSocketClient.Unreachable)
           (Json.Str (Py.lit "tok")));
    vm_compute; reflexivity.
Defined.

(** X11. A request for a token that fails (no reply, a status other than
    200, a body that is not a dictionary with [access_token]) makes
    [get_token] return [None] after that one request and store nothing: the
    token the client had is the one it has, and the next call, the token
    being as stale as before, sends a new request. *)
Theorem failed_fetch_stores_nothing (self : RTZRWebSocketClient.t)
  (now : float) (endpoint : nat -> RTZRWebSocketClient.AuthReply) :
  Props.stale self now = true ->
  Props.granted (endpoint (RTZRWebSocketClient.auth_posts self)) = None ->
  let after := fst (RTZRWebSocketClient.get_token self now endpoint) in
  snd (RTZRWebSocketClient.get_token self now endpoint) = Json.Null
  /\ RTZRWebSocketClient._token after = RTZRWebSocketClient._token self
  /\ RTZRWebSocketClient.auth_posts after
     = S (RTZRWebSocketClient.auth_posts self)
  /\ (forall again,
        RTZRWebSocketClient.auth_posts
          (fst (RTZRWebSocketClient.get_token after now again))
        = S (S (RTZRWebSocketClient.auth_posts self))
        /\ (forall tok,
              Props.granted (again (S (RTZRWebSocketClient.auth_posts self)))
              = Some tok ->
              snd (RTZRWebSocketClient.get_token after now again) = tok)).
Proof.
  intros Hs Hg. cbv zeta. rewrite (get_token_stale self now endpoint Hs), Hg.
  cbn [fst snd].
  assert (Hs' : Props.stale
                  (RTZRWebSocketClient.set_auth_posts self
                     (S (RTZRWebSocketClient.auth_posts self))) now = true).
  { destruct self; exact Hs. }
  split; [reflexivity|]. split; [destruct self; reflexivity|].
  split; [destruct self; reflexivity|].
  intros again. rewrite (get_token_stale _ now again Hs').
  replace (RTZRWebSocketClient.auth_posts
             (RTZRWebSocketClient.set_auth_posts self
                (S (RTZRWebSocketClient.auth_posts self))))
    with (S (RTZRWebSocketClient.auth_posts self))
    by (destruct self; reflexivity).
  destruct (Props.granted (again (S (RTZRWebSocketClient.auth_posts self))))
    as [tok|]; cbn [fst snd].
  - split; [destruct self; reflexivity|]. intros tok' E. congruence.
  - split; [destruct self; reflexivity|]. discriminate.
Qed.

Lemma failed_fetch_stores_nothing_witness :
  let endpoint := fun n : nat =>
    match n with
    | O => RTZRWebSocketClient.Response 200
             (Some (Json.Obj [(Py.lit "error", Json.Str (Py.lit "denied"))]))
    | S _ =>
        RTZRWebSocketClient.Response 200
          (Some (Json.Obj [(Py.lit "access_token", Json.Str (Py.lit "tok"))]))
    end in
  let after :=
    fst (RTZRWebSocketClient.get_token
           (RTZRWebSocketClient.__init__ (Py.lit "room")) 0%float endpoint) in
  RTZRWebSocketClient._token after = None
  /\ snd (RTZRWebSocketClient.get_token after 0%float endpoint)
     = Json.Str (Py.lit "tok").
Proof.
  cbv zeta.
  destruct (failed_fetch_stores_nothing
              (RTZRWebSocketClient.__init__ (Py.lit "room")) 0%float
              (fun n : nat =>
                 match n with
                 | O => RTZRWebSocketClient.Response 200
                          (Some (Json.Obj
                                   [(Py.lit "error",
                                     Json.Str (Py.lit "denied"))]))
                 | S _ =>
                     RTZRWebSocketClient.Response 200
                       (Some (Json.Obj
                                [(Py.lit "access_token",
                                  Json.Str (Py.lit "tok"))]))
                 end)
              eq_refl ltac:(vm_compute; reflexivity))
    as (_ & Htok & _ & Hagain).
  split; [exact Htok|]. apply Hagain. vm_compute. reflexivity.
Defined.

Section Loops.

Import Py RTZRWebSocketClient Spec Props.

Lemma running_set_audio_queue (self : t) (q : list bytes) :
  running (set_audio_queue self q) = running self.
Proof. destruct self; reflexivity. Qed.

Lemma set_audio_queue_twice (self : t) (q q' : list bytes) :
  set_audio_queue (set_audio_queue self q) q' = set_audio_queue self q'.
Proof. destruct self; reflexivity. Qed.

Lemma set_audio_queue_same (self : t) :
  set_audio_queue self (audio_queue self) = self.
Proof. destruct self; reflexivity. Qed.

(** The passes of the send loop while [ws.send] returns. *)
Lemma send_audio_fifo (n : nat) :
  forall self,
    running self = true ->
    send_audio self (repeat true n)
    = (set_audio_queue self (skipn n (audio_queue self)),
       firstn n (audio_queue self)).
Proof.
  induction n as [|n IH]; intros self Hrun.
  - cbn [repeat send_audio skipn firstn]. rewrite set_audio_queue_same.
    reflexivity.
  - cbn [repeat send_audio]. unfold send_audio_step. rewrite Hrun.
    destruct (audio_queue self) as [|a q] eqn:Eq.
    + rewrite (IH self Hrun), Eq. rewrite skipn_nil, firstn_nil.
      reflexivity.
    + rewrite (IH (set_audio_queue self q))
        by (rewrite running_set_audio_queue; exact Hrun).
      rewrite set_audio_queue_twice.
      replace (audio_queue (set_audio_queue self q)) with q
        by (destruct self; reflexivity).
      reflexivity.
Qed.

(** The loop once it has stopped. *)
Lemma send_audio_stopped (passes : list bool) :
  forall self,
    is_running self = false ->
    send_audio self passes = (self, []).
Proof.
  induction passes as [|ok passes IH]; intros self Hstop; [reflexivity|].
  cbn [send_audio]. unfold send_audio_step, running. rewrite Hstop.
  cbn [andb].
  replace (set_is_running self false) with self
    by (destruct self; cbn in Hstop; subst; reflexivity).
  rewrite (IH self Hstop). reflexivity.
Qed.

Lemma send_audio_app (first : list bool) :
  forall self rest,
    send_audio self (first ++ rest)
    = (fst (send_audio (fst (send_audio self first)) rest),
       snd (send_audio self first)
       ++ snd (send_audio (fst (send_audio self first)) rest)).
Proof.
  induction first as [|ok first IH]; intros self rest.
  - cbn [app send_audio fst snd]. destruct (send_audio self rest).
    reflexivity.
  - cbn [app send_audio]. destruct (send_audio_step self ok) as [s sent].
    rewrite IH. destruct (send_audio s first) as [s' later].
    cbn [fst snd]. destruct sent; reflexivity.
Qed.


Lemma receive_app_handled (messages : list Json.value) :
  forall self rest,
    running self = true ->
    all_handled self messages ->
    receive_messages self (delivered messages ++ rest)
    = (fst (receive_messages self rest),
       snd (receive_messages self (delivered messages))
       ++ snd (receive_messages self rest)).
Proof.
  induction messages as [|data messages IH]; intros self rest Hrun Hall.
  - cbn [delivered map app receive_messages]. rewrite Hrun. cbn [snd app].
    destruct (receive_messages self rest). reflexivity.
  - inversion Hall as [|? ? Hd Hrest]; subst.
    cbn [delivered map app receive_messages]. rewrite Hrun.
    destruct (handle_message self data) as [effects|]; [|congruence].
    fold (delivered messages). rewrite (IH self rest Hrun Hrest).
    destruct (receive_messages self (delivered messages)) as [s later].
    cbn [fst snd]. rewrite app_assoc. reflexivity.
Qed.

Lemma receive_end (self : t) (event : Incoming) (rest : list Incoming) :
  running self = true ->
  ends_loop self event ->
  receive_messages self (event :: rest) = receive_messages self [event]
  /\ is_running (fst (receive_messages self [event])) = false
  /\ calls (snd (receive_messages self [event])) = [].
Proof.
  intros Hrun Hend. cbn [receive_messages]. rewrite Hrun.
  destruct event as [[data|]| |]; cbn [ends_loop] in Hend;
    try rewrite Hend; repeat split; destruct self; reflexivity.
Qed.

End Loops.

(** X12. When the socket cannot be opened, [connect_websocket] gives up
    after that one attempt and leaves the client neither running nor ready.
    The frames submitted while it was connecting are still in
    [pending_audio], and so is every frame submitted afterwards: none is
    dropped, none is put on the queue. *)
Theorem handshake_failure_keeps_frames (self : RTZRWebSocketClient.t)
  (cb : option RTZRWebSocketClient.Callable) (now : float)
  (endpoint : nat -> RTZRWebSocketClient.AuthReply) :
  Json.truthy (snd (RTZRWebSocketClient.get_token self now endpoint)) = true ->
  let result :=
    RTZRWebSocketClient.connect_websocket_open self cb now endpoint
      RTZRWebSocketClient.HandshakeFails in
  snd result = RTZRWebSocketClient.Returned
  /\ RTZRWebSocketClient.connection_ready (fst result) = false
  /\ RTZRWebSocketClient.is_running (fst result) = false
  /\ RTZRWebSocketClient.ws (fst result) = RTZRWebSocketClient.ws self
  /\ RTZRWebSocketClient.ws_connects (fst result)
     = S (RTZRWebSocketClient.ws_connects self)
  /\ (forall frames,
        let final :=
          fold_left RTZRWebSocketClient.add_audio frames (fst result) in
        RTZRWebSocketClient.pending_audio final
        = RTZRWebSocketClient.pending_audio self ++ frames
        /\ RTZRWebSocketClient.audio_queue final
           = RTZRWebSocketClient.audio_queue self).
Proof.
  intros Htok. cbv zeta.
  rewrite <- (get_token_callback self cb now endpoint) in Htok.
  destruct (get_token_frame (RTZRWebSocketClient.set_on_transcript self cb)
              now endpoint) as (Hws & Hq & _ & _ & _ & Hp & Hc & _).
  unfold RTZRWebSocketClient.connect_websocket_open.
  destruct (RTZRWebSocketClient.get_token
              (RTZRWebSocketClient.set_on_transcript self cb) now endpoint)
    as [s tok].
  cbn [fst snd] in *. rewrite Htok. cbn [negb fst snd].
  unfold RTZRWebSocketClient.connect_websocket_finally.
  assert (E : RTZRWebSocketClient.ws s = RTZRWebSocketClient.ws self
              /\ RTZRWebSocketClient.audio_queue s
                 = RTZRWebSocketClient.audio_queue self
              /\ RTZRWebSocketClient.pending_audio s
                 = RTZRWebSocketClient.pending_audio self
              /\ RTZRWebSocketClient.ws_connects s
                 = RTZRWebSocketClient.ws_connects self).
  { rewrite Hws, Hq, Hp, Hc. destruct self. repeat split. }
  destruct E as (E1 & E2 & E3 & E4).
  split; [reflexivity|]. split; [destruct s; reflexivity|].
  split; [destruct s; reflexivity|].
  split; [rewrite <- E1; destruct s; reflexivity|].
  split; [rewrite <- E4; destruct s; reflexivity|].
  intros frames. cbv zeta.
  match goal with |- context [fold_left _ frames ?c] =>
    destruct (submissions_not_ready frames c) as (H1 & H2 & _) end;
    [destruct s; reflexivity|].
  rewrite H1, H2, <- E2, <- E3. destruct s. split; reflexivity.
Qed.

Lemma handshake_failure_keeps_frames_witness :
  let endpoint := fun _ : nat =>
    RTZRWebSocketClient.Response 200
      (Some (Json.Obj [(Py.lit "access_token", Json.Str (Py.lit "tok"))])) in
  let waiting :=
    RTZRWebSocketClient.add_audio
      (RTZRWebSocketClient.__init__ (Py.lit "room")) [Byte.x01] in
  let failed :=
    fst (RTZRWebSocketClient.connect_websocket_open waiting (Some 0%nat)
           0%float endpoint RTZRWebSocketClient.HandshakeFails) in
  RTZRWebSocketClient.pending_audio
    (fold_left RTZRWebSocketClient.add_audio [[Byte.x02]] failed)
  = [[Byte.x01]; [Byte.x02]].
Proof.
  cbv zeta.
  destruct (handshake_failure_keeps_frames
              (RTZRWebSocketClient.add_audio
                 (RTZRWebSocketClient.__init__ (Py.lit "room")) [Byte.x01])
              (Some 0%nat) 0%float
              (fun _ : nat =>
                 RTZRWebSocketClient.Response 200
                   (Some (Json.Obj
                            [(Py.lit "access_token",
                              Json.Str (Py.lit "tok"))])))
              ltac:(vm_compute; reflexivity))
    as (_ & _ & _ & _ & _ & Hframes).
  apply (Hframes [[Byte.x02]]).
Defined.

(** X13. The send loop sends the frames of the queue from its head, in
    their order, one per pass, and sleeps when the queue is empty. When
    [ws.send] fails, the frame that was being sent has already left the
    queue and does not go out; the loop stops, and no later pass sends
    anything. *)
Theorem send_loop_is_fifo (self : RTZRWebSocketClient.t) (n : nat)
  (later : list bool) :
  RTZRWebSocketClient.running self = true ->
  let queue := RTZRWebSocketClient.audio_queue self in
  RTZRWebSocketClient.send_audio self (repeat true n)
  = (RTZRWebSocketClient.set_audio_queue self (skipn n queue),
     firstn n queue)
  /\ ((n < length queue)%nat ->
      let result :=
        RTZRWebSocketClient.send_audio self
          (repeat true n ++ false :: later) in
      snd result = firstn n queue
      /\ RTZRWebSocketClient.audio_queue (fst result) = skipn (S n) queue
      /\ RTZRWebSocketClient.is_running (fst result) = false).
Proof.
  intros Hrun. cbv zeta.
  split; [apply send_audio_fifo, Hrun|]. intros Hn.
  rewrite send_audio_app, (send_audio_fifo n self Hrun). cbn [fst snd].
  cbn [RTZRWebSocketClient.send_audio].
  unfold RTZRWebSocketClient.send_audio_step.
  rewrite running_set_audio_queue, Hrun.
  replace (RTZRWebSocketClient.audio_queue
             (RTZRWebSocketClient.set_audio_queue self
                (skipn n (RTZRWebSocketClient.audio_queue self))))
    with (skipn n (RTZRWebSocketClient.audio_queue self))
    by (destruct self; reflexivity).
  destruct (skipn n (RTZRWebSocketClient.audio_queue self)) as [|a q] eqn:E.
  - exfalso. assert (Hl := length_skipn n
                             (RTZRWebSocketClient.audio_queue self)).
    rewrite E in Hl. cbn [length] in Hl. lia.
  - rewrite set_audio_queue_twice.
    rewrite send_audio_stopped by (destruct self; reflexivity).
    cbn [fst snd]. rewrite app_nil_r. split; [reflexivity|]. split.
    + replace (S n) with (1 + n)%nat by reflexivity.
      rewrite <- skipn_skipn, E. destruct self; reflexivity.
    + destruct self; reflexivity.
Qed.

Lemma send_loop_is_fifo_witness :
  let self :=
    RTZRWebSocketClient.mk (Py.lit "room") None (Some 0%nat)
      [[Byte.x01]; [Byte.x02]; [Byte.x03]] true None true [] 0 0 in
  let result :=
    RTZRWebSocketClient.send_audio self [true; false; true] in
  snd result = [[Byte.x01]]
  /\ RTZRWebSocketClient.audio_queue (fst result) = [[Byte.x03]].
Proof.
  cbv zeta.
  destruct (send_loop_is_fifo
              (RTZRWebSocketClient.mk (Py.lit "room") None (Some 0%nat)
                 [[Byte.x01]; [Byte.x02]; [Byte.x03]] true None true [] 0 0)
              1 [true] eq_refl) as (_ & Hfail).
  destruct (Hfail ltac:(cbn; lia)) as (H1 & H2 & _).
  split; [exact H1 | exact H2].
Defined.

Section Resumed.

Import Py RTZRWebSocketClient Spec.

(** While the client is running, a loop taken up in [recv] goes on as the
    loop does from its test. *)
Lemma receive_resumed_running (self : t) (incoming : list Incoming) :
  running self = true ->
  receive_resumed self incoming = receive_messages self incoming.
Proof.
  intros Hrun. destruct incoming as [|event rest];
    cbn [receive_resumed receive_messages]; rewrite Hrun; reflexivity.
Qed.


End Resumed.


(** X15. The receive loop ends at the first message that cannot be decoded
    or makes its body raise, and at the first exception of the socket:
    [is_running] is then false, the event itself causes no call of the
    callback, and whatever the socket would deliver afterwards is never
    read. *)
Theorem receive_loop_ends (self : RTZRWebSocketClient.t)
  (messages : list Json.value) (event : RTZRWebSocketClient.Incoming)
  (rest : list RTZRWebSocketClient.Incoming) :
  RTZRWebSocketClient.running self = true ->
  Props.all_handled self messages ->
  Props.ends_loop self event ->
  let result :=
    RTZRWebSocketClient.receive_messages self
      (Props.delivered messages ++ event :: rest) in
  result
  = RTZRWebSocketClient.receive_messages self
      (Props.delivered messages ++ [event])
  /\ RTZRWebSocketClient.is_running (fst result) = false
  /\ Spec.calls (snd result)
     = Spec.calls (snd (RTZRWebSocketClient.receive_messages self
                          (Props.delivered messages))).
Proof.
  intros Hrun Hall Hend. cbv zeta.
  destruct (receive_end self event rest Hrun Hend) as (Hsame & Hstop & Hno).
  rewrite !(receive_app_handled messages self _ Hrun Hall), Hsame.
  cbn [fst snd]. split; [reflexivity|]. split; [exact Hstop|].
  rewrite calls_app, Hno, app_nil_r. reflexivity.
Qed.

Lemma receive_loop_ends_witness :
  let self :=
    RTZRWebSocketClient.mk (Py.lit "room") None (Some 0%nat) [] true
      (Some 7%nat) true [] 0 0 in
  let final (text : Py.str) :=
    Json.Obj
      [(Py.lit "alternatives",
        Json.Arr [Json.Obj [(Py.lit "text", Json.Str text)]]);
       (Py.lit "final", Json.Bool true)] in
  Spec.calls
    (snd (RTZRWebSocketClient.receive_messages self
            (Props.delivered [final (Py.lit "하나")]
             ++ RTZRWebSocketClient.Message (Some (Json.Arr []))
                :: Props.delivered [final (Py.lit "둘")])))
  = [(7%nat, Py.lit "하나")].
Proof.
  cbv beta zeta.
  assert (Hall : Props.all_handled
    (RTZRWebSocketClient.mk (Py.lit "room") None (Some 0%nat) [] true
       (Some 7%nat) true [] 0 0)
    [Json.Obj
       [(Py.lit "alternatives",
         Json.Arr [Json.Obj [(Py.lit "text", Json.Str (Py.lit "하나"))]]);
        (Py.lit "final", Json.Bool true)]]).
  { constructor; [|constructor]. intros H. vm_compute in H. discriminate H. }
  rewrite (proj2 (proj2 (receive_loop_ends
    (RTZRWebSocketClient.mk (Py.lit "room") None (Some 0%nat) [] true
       (Some 7%nat) true [] 0 0)
    [Json.Obj
       [(Py.lit "alternatives",
         Json.Arr [Json.Obj [(Py.lit "text", Json.Str (Py.lit "하나"))]]);
        (Py.lit "final", Json.Bool true)]]
    (RTZRWebSocketClient.Message (Some (Json.Arr [])))
    (Props.delivered
       [Json.Obj
          [(Py.lit "alternatives",
            Json.Arr [Json.Obj [(Py.lit "text", Json.Str (Py.lit "둘"))]]);
           (Py.lit "final", Json.Bool true)]])
    eq_refl Hall eq_refl))).
  vm_compute. reflexivity.
Defined.

(* ================================================================== *)
(** * Dictionaries *)
(* ================================================================== *)

Section DictFacts.

Import Py.

Context {V : Type}.

Lemma eqb_eq (s t : str) : eqb s t = true <-> s = t.
Proof.
  unfold eqb. destruct (list_eq_dec N.eq_dec s t); split; intros H;
    congruence.
Qed.

Lemma eqb_refl (s : str) : eqb s s = true.
Proof. apply eqb_eq. reflexivity. Qed.

Lemma eqb_neq (s t : str) : eqb s t = false <-> s <> t.
Proof.
  unfold eqb. destruct (list_eq_dec N.eq_dec s t); split; intros H;
    congruence.
Qed.

Lemma get_none_keys (d : PyDict.dict V) (k : str) :
  PyDict.get d k = None <-> ~ In k (PyDict.keys d).
Proof.
  induction d as [|[k' v'] d IH]; cbn [PyDict.get PyDict.keys map fst In].
  - tauto.
  - destruct (eqb k' k) eqn:E.
    + apply eqb_eq in E. split; [discriminate | tauto].
    + apply eqb_neq in E. unfold PyDict.keys in IH. rewrite IH. tauto.
Qed.

Lemma get_set_same (d : PyDict.dict V) (k : str) (v : V) :
  PyDict.get (PyDict.set d k v) k = Some v.
Proof.
  induction d as [|[k' v'] d IH]; cbn [PyDict.set PyDict.get].
  - rewrite eqb_refl. reflexivity.
  - destruct (eqb k' k) eqn:E; cbn [PyDict.get]; rewrite E; auto.
Qed.

Lemma get_set_other (d : PyDict.dict V) (k k' : str) (v : V) :
  k' <> k -> PyDict.get (PyDict.set d k v) k' = PyDict.get d k'.
Proof.
  intros Hne. induction d as [|[k0 v0] d IH]; cbn [PyDict.set PyDict.get].
  - replace (eqb k k') with false; [reflexivity|].
    symmetry. apply eqb_neq. congruence.
  - destruct (eqb k0 k) eqn:E; cbn [PyDict.get].
    + apply eqb_eq in E. subst k0.
      replace (eqb k k') with false; [reflexivity|].
      symmetry. apply eqb_neq. congruence.
    + rewrite IH. reflexivity.
Qed.

Lemma keys_set_absent (d : PyDict.dict V) (k : str) (v : V) :
  PyDict.get d k = None ->
  PyDict.keys (PyDict.set d k v) = PyDict.keys d ++ [k].
Proof.
  induction d as [|[k0 v0] d IH]; cbn [PyDict.set PyDict.get]; [reflexivity|].
  destruct (eqb k0 k); [discriminate|]. intros H.
  unfold PyDict.keys in *. cbn [map fst app]. rewrite IH by exact H.
  reflexivity.
Qed.

Lemma keys_set_present (d : PyDict.dict V) (k : str) (v : V) :
  PyDict.get d k <> None ->
  PyDict.keys (PyDict.set d k v) = PyDict.keys d.
Proof.
  induction d as [|[k0 v0] d IH]; cbn [PyDict.set PyDict.get];
    [congruence|].
  destruct (eqb k0 k); [reflexivity|]. intros H.
  unfold PyDict.keys in *. cbn [map fst]. rewrite IH by exact H.
  reflexivity.
Qed.

Lemma length_set (d : PyDict.dict V) (k : str) (v : V) :
  (length (PyDict.set d k v) <= S (length d))%nat.
Proof.
  induction d as [|[k0 v0] d IH]; cbn [PyDict.set length]; [lia|].
  destruct (eqb k0 k); cbn [length]; lia.
Qed.

Lemma keys_length (d : PyDict.dict V) : length (PyDict.keys d) = length d.
Proof. apply length_map. Qed.

Lemma unique_set (d : PyDict.dict V) (k : str) (v : V) :
  NoDup (PyDict.keys d) -> NoDup (PyDict.keys (PyDict.set d k v)).
Proof.
  intros H. destruct (PyDict.get d k) eqn:E.
  - rewrite keys_set_present by congruence. exact H.
  - rewrite keys_set_absent by exact E.
    apply NoDup_app; [exact H | repeat constructor; tauto |].
    intros x Hx [<-|[]]. apply get_none_keys in E. contradiction.
Qed.

Lemma keys_del_incl (d : PyDict.dict V) (k x : str) :
  In x (PyDict.keys (PyDict.del d k)) -> In x (PyDict.keys d).
Proof.
  induction d as [|[k0 v0] d IH]; cbn [PyDict.del]; [tauto|].
  destruct (eqb k0 k); unfold PyDict.keys in *; cbn [map fst In]; tauto.
Qed.

Lemma unique_del (d : PyDict.dict V) (k : str) :
  NoDup (PyDict.keys d) -> NoDup (PyDict.keys (PyDict.del d k)).
Proof.
  induction d as [|[k0 v0] d IH]; cbn [PyDict.del]; [tauto|].
  unfold PyDict.keys in *. cbn [map fst]. intros H.
  inversion H as [|? ? Hn Hd]; subst.
  destruct (eqb k0 k); [exact Hd|]. cbn [map fst].
  constructor; [|apply IH, Hd]. intros Hin. apply Hn.
  apply (keys_del_incl d k k0 Hin).
Qed.

Lemma get_del_same (d : PyDict.dict V) (k : str) :
  NoDup (PyDict.keys d) -> PyDict.get (PyDict.del d k) k = None.
Proof.
  induction d as [|[k0 v0] d IH]; cbn [PyDict.del]; [reflexivity|].
  unfold PyDict.keys in *. cbn [map fst]. intros H.
  inversion H as [|? ? Hn Hd]; subst.
  destruct (eqb k0 k) eqn:E.
  - apply eqb_eq in E. subst. apply get_none_keys. exact Hn.
  - cbn [PyDict.get]. rewrite E. apply IH, Hd.
Qed.

Lemma get_del_other (d : PyDict.dict V) (k k' : str) :
  k' <> k -> PyDict.get (PyDict.del d k) k' = PyDict.get d k'.
Proof.
  intros Hne. induction d as [|[k0 v0] d IH]; cbn [PyDict.del PyDict.get];
    [reflexivity|].
  destruct (eqb k0 k) eqn:E; cbn [PyDict.get].
  - apply eqb_eq in E. subst.
    replace (eqb k k') with false; [reflexivity|].
    symmetry. apply eqb_neq. congruence.
  - rewrite IH. reflexivity.
Qed.

Lemma length_del (d : PyDict.dict V) (k : str) :
  PyDict.get d k <> None -> S (length (PyDict.del d k)) = length d.
Proof.
  induction d as [|[k0 v0] d IH]; cbn [PyDict.del PyDict.get length];
    [congruence|].
  destruct (eqb k0 k); [reflexivity|]. intros H. cbn [length].
  rewrite IH by exact H. reflexivity.
Qed.

Lemma values_set (d : PyDict.dict V) (k : str) (v x : V) :
  In x (PyDict.values (PyDict.set d k v)) ->
  x = v \/ In x (PyDict.values d).
Proof.
  unfold PyDict.values.
  induction d as [|[k0 v0] d IH]; cbn [PyDict.set].
  - cbn [map snd In]. intros [H|[]]. left. congruence.
  - destruct (eqb k0 k); cbn [map snd In].
    + intros [H|H]; [left; congruence | right; right; exact H].
    + intros [H|H]; [right; left; exact H|].
      destruct (IH H) as [H'|H']; [left | right; right]; exact H'.
Qed.

End DictFacts.

(* ================================================================== *)
(** * Properties of the translation service *)
(* ================================================================== *)

Section Translation.

Import Py TranslationService Props.

(** The call that reaches the API and gets back a translation to keep. *)
Lemma translate_success (self : t) (k context c : str)
  (api : nat -> Completion) :
  truthy k = true ->
  PyDict.get (translation_cache self) k = None ->
  client self = true ->
  api (api_calls self) = ApiContent c ->
  _contains_korean (strip c) = false ->
  translate_with_gpt self k context api
  = match _add_to_cache (set_api_calls self (S (api_calls self))) k (strip c)
    with
    | Some self' => (self', Some (strip c))
    | None =>
        (set_api_calls self (S (api_calls self)),
         Some (lit "Translation error"))
    end.
Proof.
  intros Hk Hg Hc Ha Hn. unfold translate_with_gpt.
  rewrite Hk, Hg, Hc, Ha, Hn. reflexivity.
Qed.

(** What a call can do to the cache. *)
Lemma translate_cache_cases (self : t) (k context : str)
  (api : nat -> Completion) :
  translation_cache (fst (translate_with_gpt self k context api))
  = translation_cache self
  \/ exists c self',
       truthy k = true
       /\ PyDict.get (translation_cache self) k = None
       /\ client self = true
       /\ api (api_calls self) = ApiContent c
       /\ _contains_korean (strip c) = false
       /\ _add_to_cache (set_api_calls self (S (api_calls self))) k (strip c)
          = Some self'
       /\ translate_with_gpt self k context api = (self', Some (strip c)).
Proof.
  unfold translate_with_gpt.
  destruct (truthy k) eqn:Hk; cbn [negb]; [|left; reflexivity].
  destruct (PyDict.get (translation_cache self) k) eqn:Hg;
    [left; reflexivity|].
  destruct (client self) eqn:Hc; cbn [negb]; [|left; reflexivity].
  destruct (api (api_calls self)) as [|c] eqn:Ha;
    [left; destruct self; reflexivity|].
  destruct (_contains_korean (strip c)) eqn:Hn;
    [left; destruct self; reflexivity|].
  destruct (_add_to_cache _ k (strip c)) as [self'|] eqn:Hadd;
    [|left; destruct self; reflexivity].
  right. exists c, self'. repeat split; auto.
Qed.

Lemma add_to_cache_spec (self self' : t) (k v : str) :
  _add_to_cache self k v = Some self' ->
  max_cache_size self' = max_cache_size self
  /\ client self' = client self
  /\ api_calls self' = api_calls self
  /\ ((Z.of_nat (length (translation_cache self)) < max_cache_size self)%Z
      /\ translation_cache self' = PyDict.set (translation_cache self) k v
      \/ (max_cache_size self
          <= Z.of_nat (length (translation_cache self)))%Z
         /\ translation_cache self <> []
         /\ translation_cache self'
            = PyDict.set (tl (translation_cache self)) k v).
Proof.
  unfold _add_to_cache.
  destruct (_ >=? max_cache_size self)%Z eqn:E.
  - rewrite Z.geb_leb in E. apply Z.leb_le in E.
    destruct self as [cl cache mx n]. cbn in *.
    destruct cache as [|[oldest v0] d]; [discriminate|].
    intros H. injection H as <-. cbn [PyDict.del]. rewrite eqb_refl.
    cbn in *.
    repeat split; try reflexivity.
    right. split; [exact E|]. split; [discriminate | reflexivity].
  - rewrite Z.geb_leb in E. apply Z.leb_gt in E.
    intros H. injection H as <-. destruct self. cbn in *.
    repeat split; try reflexivity.
    left. split; [exact E | reflexivity].
Qed.

Lemma translate_cache_ok (self : t) (k context : str)
  (api : nat -> Completion) :
  cache_ok self ->
  cache_ok (fst (translate_with_gpt self k context api))
  /\ max_cache_size (fst (translate_with_gpt self k context api))
     = max_cache_size self.
Proof.
  intros (Hlen & Hu & Hv & He).
  destruct (translate_cache_cases self k context api)
    as [Hsame|(c & self' & Hk & Hg & Hc & Ha & Hn & Hadd & ->)].
  - assert (Hm : max_cache_size (fst (translate_with_gpt self k context api))
                 = max_cache_size self).
    { unfold translate_with_gpt.
      destruct (negb (truthy k)); [reflexivity|].
      destruct (PyDict.get _ k); [reflexivity|].
      destruct (negb (client self)); [reflexivity|].
      destruct (api (api_calls self)); [destruct self; reflexivity|].
      destruct (_contains_korean _); [destruct self; reflexivity|].
      destruct (_add_to_cache _ k _) as [s|] eqn:Hadd;
        [|destruct self; reflexivity].
      destruct (add_to_cache_spec _ _ _ _ Hadd) as (Hm' & _).
      cbn [fst]. rewrite Hm'. destruct self; reflexivity. }
    unfold cache_ok. rewrite Hsame, Hm. auto.
  - cbn [fst].
    destruct (add_to_cache_spec _ _ _ _ Hadd) as (Hm & _ & _ & Hcase).
    replace (max_cache_size (set_api_calls self (S (api_calls self))))
      with (max_cache_size self) in * by (destruct self; reflexivity).
    replace (translation_cache (set_api_calls self (S (api_calls self))))
      with (translation_cache self) in * by (destruct self; reflexivity).
    split; [|exact Hm]. unfold cache_ok. rewrite Hm.
    assert (Hkne : k <> []) by (destruct k; [discriminate | discriminate]).
    destruct Hcase as [[Hlt ->]|(Hge & Hne & ->)].
    + split; [|split; [|split]].
      * assert (H := length_set (translation_cache self) k (strip c)). lia.
      * apply unique_set, Hu.
      * apply Forall_forall. intros x Hx. apply values_set in Hx.
        destruct Hx as [->|Hx]; [exact Hn|].
        rewrite Forall_forall in Hv. apply Hv, Hx.
      * rewrite keys_set_absent by exact Hg. intros Hin.
        apply in_app_or in Hin. destruct Hin as [Hin|[Hin|[]]];
          [contradiction | congruence].
    + destruct (translation_cache self) as [|[k0 v0] d] eqn:Ed;
        [congruence|].
      cbn [tl]. unfold PyDict.keys, PyDict.values in Hu, Hv, He.
      cbn [map fst snd] in Hu, Hv, He.
      change (length ((k0, v0) :: d)) with (S (length d)) in Hlen.
      inversion Hu as [|? ? Hn0 Hd]; subst.
      inversion Hv as [|? ? Hv0 Hvd]; subst.
      split; [|split; [|split]].
      * assert (H := length_set d k (strip c)). lia.
      * apply (unique_set d k (strip c) Hd).
      * apply Forall_forall. intros x Hx. apply values_set in Hx.
        destruct Hx as [->|Hx]; [exact Hn|].
        rewrite Forall_forall in Hvd. apply Hvd, Hx.
      * assert (Hgd : PyDict.get d k = None).
        { cbn [PyDict.get] in Hg. destruct (eqb k0 k); [discriminate|].
          exact Hg. }
        rewrite (keys_set_absent d k (strip c) Hgd). intros Hin.
        apply in_app_or in Hin. destruct Hin as [Hin|[Hin|[]]];
          [|congruence].
        apply He. right. exact Hin.
Qed.

Lemma translate_all_ok (requests : list (str * str))
  (api : nat -> Completion) :
  forall self,
    cache_ok self ->
    cache_ok (fst (translate_all self requests api))
    /\ max_cache_size (fst (translate_all self requests api))
       = max_cache_size self.
Proof.
  induction requests as [|[k context] requests IH]; intros self Hok.
  - cbn [translate_all fst]. auto.
  - cbn [translate_all].
    destruct (translate_cache_ok self k context api Hok) as [Hok' Hm].
    destruct (translate_with_gpt self k context api) as [s r].
    cbn [fst] in *. destruct (IH s Hok') as [Hok'' Hm'].
    destruct (translate_all s requests api) as [s' rs]. cbn [fst] in *.
    split; [exact Hok'' | congruence].
Qed.

Lemma translate_calls (self : t) (k context : str)
  (api : nat -> Completion) :
  (api_calls (fst (translate_with_gpt self k context api))
   <= S (api_calls self))%nat.
Proof.
  unfold translate_with_gpt.
  destruct (negb (truthy k)); cbn [fst]; [lia|].
  destruct (PyDict.get _ k); cbn [fst]; [lia|].
  destruct (negb (client self)); cbn [fst]; [lia|].
  destruct (api (api_calls self)); [destruct self; cbn; lia|].
  destruct (_contains_korean _); [destruct self; cbn; lia|].
  destruct (_add_to_cache _ k _) as [s|] eqn:Hadd;
    [|destruct self; cbn; lia].
  destruct (add_to_cache_spec _ _ _ _ Hadd) as (_ & _ & Hcalls & _).
  cbn [fst]. rewrite Hcalls. destruct self; cbn; lia.
Qed.

Lemma translate_all_calls (requests : list (str * str))
  (api : nat -> Completion) :
  forall self,
    (api_calls (fst (translate_all self requests api))
     <= api_calls self + length requests)%nat.
Proof.
  induction requests as [|[k context] requests IH]; intros self.
  - cbn [translate_all fst length]. lia.
  - cbn [translate_all length].
    assert (H := translate_calls self k context api).
    destruct (translate_with_gpt self k context api) as [s r].
    cbn [fst] in H. specialize (IH s).
    destruct (translate_all s requests api) as [s' rs]. cbn [fst] in *. lia.
Qed.

(** X16. Over any sequence of translation requests to a new service,
    whatever the API answers, the cache never holds more than
    [TRANSLATION_CACHE_SIZE] entries, no cached translation contains a
    Hangul syllable, and the service makes at most one request to the API per
    call. *)
Theorem cache_stays_bounded (has_client : bool)
  (requests : list (str * str)) (api : nat -> Completion) :
  let self := fst (translate_all (__init__ has_client) requests api) in
  (Z.of_nat (length (translation_cache self)) <= TRANSLATION_CACHE_SIZE)%Z
  /\ Forall (fun v => _contains_korean v = false)
            (PyDict.values (translation_cache self))
  /\ (api_calls self <= length requests)%nat.
Proof.
  cbv zeta.
  assert (Hinit : cache_ok (__init__ has_client)).
  { unfold cache_ok, __init__, TRANSLATION_CACHE_SIZE.
    cbn [translation_cache max_cache_size length PyDict.keys PyDict.values
         map].
    split; [lia|]. split; [constructor|]. split; [constructor|].
    intros []. }
  destruct (translate_all_ok requests api _ Hinit)
    as [(Hlen & _ & Hv & _) Hm].
  rewrite Hm in Hlen. split; [exact Hlen|]. split; [exact Hv|].
  change (length requests) with (api_calls (__init__ has_client)
                                 + length requests)%nat.
  apply translate_all_calls.
Qed.


(** X18. The cache changes only when a translation is returned: after any
    call, either the cache is as it was, or the API answered this call with
    a text without Hangul, the result is that text stripped, and the cache
    maps the request to it. The API is asked at most once per call, and
    only with a client, for a text that is not empty and not cached. *)
Theorem only_translations_are_cached (self : t) (k context : str)
  (api : nat -> Completion) :
  let (self', result) := translate_with_gpt self k context api in
  (translation_cache self' = translation_cache self
   \/ exists c,
        api (api_calls self) = ApiContent c
        /\ _contains_korean (strip c) = false
        /\ result = Some (strip c)
        /\ PyDict.get (translation_cache self') k = Some (strip c))
  /\ (api_calls self' = api_calls self
      \/ api_calls self' = S (api_calls self)
         /\ client self = true
         /\ k <> []
         /\ PyDict.get (translation_cache self) k = None)
  /\ client self' = client self
  /\ max_cache_size self' = max_cache_size self.
Proof.
  destruct (translate_cache_cases self k context api)
    as [Hsame|(c & self' & Hk & Hg & Hc & Ha & Hn & Hadd & Heq)].
  - revert Hsame. unfold translate_with_gpt.
    destruct (truthy k) eqn:Hk; cbn [negb fst]; [|auto 6].
    destruct (PyDict.get (translation_cache self) k) eqn:Hg; [auto 6|].
    destruct (client self) eqn:Hc; cbn [negb fst]; [|auto 6].
    assert (Hkne : k <> []) by (destruct k; discriminate).
    destruct (api (api_calls self)) as [|c] eqn:Ha.
    { intros Hsame. destruct self; cbn in *. auto 8. }
    destruct (_contains_korean (strip c)) eqn:Hn.
    { intros Hsame. destruct self; cbn in *. auto 8. }
    destruct (_add_to_cache _ k (strip c)) as [self'|] eqn:Hadd.
    + destruct (add_to_cache_spec _ _ _ _ Hadd) as (Hm & Hcl & Hcalls & _).
      cbn [fst]. intros Hsame. rewrite Hm, Hcl, Hcalls.
      destruct self; cbn in *. auto 8.
    + intros Hsame. destruct self; cbn in *. auto 8.
  - rewrite Heq.
    destruct (add_to_cache_spec _ _ _ _ Hadd) as (Hm & Hcl & Hcalls & Hcase).
    assert (Hkne : k <> []) by (destruct k; discriminate).
    split; [right; exists c; repeat split; auto|].
    + destruct Hcase as [[_ ->]|(_ & _ & ->)]; apply get_set_same.
    + rewrite Hm, Hcl, Hcalls. destruct self; cbn in *. auto 8.
Qed.

(** X19. Eviction is first in, first out: when the cache is full and a new
    translation is stored, the entry that was inserted first is the one
    that goes, even if it has just been read (a hit leaves the service as
    it is), the other entries keep their translations, and the new entry
    becomes the newest. *)
Theorem oldest_is_evicted (self : t) (oldest v k context c : str)
  (rest : PyDict.dict str) (api : nat -> Completion) :
  translation_cache self = (oldest, v) :: rest ->
  NoDup (PyDict.keys (translation_cache self)) ->
  (max_cache_size self <= Z.of_nat (length (translation_cache self)))%Z ->
  truthy oldest = true ->
  truthy k = true ->
  PyDict.get (translation_cache self) k = None ->
  client self = true ->
  api (api_calls self) = ApiContent c ->
  _contains_korean (strip c) = false ->
  translate_with_gpt self oldest context api = (self, Some v)
  /\ let self' := fst (translate_with_gpt self k context api) in
     PyDict.keys (translation_cache self') = PyDict.keys rest ++ [k]
     /\ PyDict.get (translation_cache self') oldest = None
     /\ forall k', k' <> oldest -> k' <> k ->
         PyDict.get (translation_cache self') k'
         = PyDict.get (translation_cache self) k'.
Proof.
  intros Hcache Hu Hfull Ho Hk Hg Hc Ha Hn. split.
  { unfold translate_with_gpt. rewrite Ho, Hcache. cbn [negb PyDict.get].
    rewrite eqb_refl. reflexivity. }
  rewrite (translate_success self k context c api Hk Hg Hc Ha Hn).
  unfold _add_to_cache.
  replace (max_cache_size (set_api_calls self (S (api_calls self))))
    with (max_cache_size self) by (destruct self; reflexivity).
  replace (translation_cache (set_api_calls self (S (api_calls self))))
    with (translation_cache self) by (destruct self; reflexivity).
  replace (_ >=? max_cache_size self)%Z with true
    by (symmetry; rewrite Z.geb_leb; apply Z.leb_le; exact Hfull).
  rewrite Hcache in *. cbn [PyDict.del]. rewrite eqb_refl.
  cbv zeta. cbn [fst translation_cache set_translation_cache].
  assert (Hne : oldest <> k).
  { intros ->. cbn [PyDict.get] in Hg. rewrite eqb_refl in Hg.
    discriminate. }
  assert (Hgr : PyDict.get rest k = None).
  { cbn [PyDict.get] in Hg.
    replace (eqb oldest k) with false in Hg; [exact Hg|].
    symmetry. apply eqb_neq. exact Hne. }
  unfold PyDict.keys in Hu. cbn [map fst] in Hu.
  inversion Hu as [|? ? Hnin Hd]; subst.
  split; [apply keys_set_absent, Hgr|]. split.
  - rewrite get_set_other by exact Hne. apply get_none_keys. exact Hnin.
  - intros k' Hk1 Hk2. rewrite get_set_other by exact Hk2.
    cbn [PyDict.get].
    replace (eqb oldest k') with false; [reflexivity|].
    symmetry. apply eqb_neq. congruence.
Qed.

End Translation.


Lemma oldest_is_evicted_witness :
  let self :=
    TranslationService.mk true
      [(Py.lit "하나", Py.lit "one"); (Py.lit "둘", Py.lit "two")] 2 5 in
  let api := fun _ : nat => TranslationService.ApiContent (Py.lit "three") in
  TranslationService.translate_with_gpt self (Py.lit "하나") [] api
  = (self, Some (Py.lit "one"))
  /\ PyDict.keys
       (TranslationService.translation_cache
          (fst (TranslationService.translate_with_gpt self (Py.lit "셋") []
                  api)))
     = [Py.lit "둘"; Py.lit "셋"].
Proof.
  cbv zeta.
  destruct (oldest_is_evicted
              (TranslationService.mk true
                 [(Py.lit "하나", Py.lit "one"); (Py.lit "둘", Py.lit "two")]
                 2 5)
              (Py.lit "하나") (Py.lit "one") (Py.lit "셋") [] (Py.lit "three")
              [(Py.lit "둘", Py.lit "two")]
              (fun _ : nat => TranslationService.ApiContent (Py.lit "three")))
    as (Hhit & Hkeys & _).
  - reflexivity.
  - vm_compute. repeat constructor; cbn; intuition discriminate.
  - vm_compute. discriminate.
  - vm_compute. reflexivity.
  - vm_compute. reflexivity.
  - vm_compute. reflexivity.
  - reflexivity.
  - reflexivity.
  - vm_compute. reflexivity.
  - split; [exact Hhit | exact Hkeys].
Defined.

(* ================================================================== *)
(** * Properties of the room manager *)
(* ================================================================== *)

Section SetFacts.

Import Py.

Lemma mem_in (x : str) (s : PyDict.pyset) :
  PyDict.mem x s = true <-> In x s.
Proof.
  unfold PyDict.mem. rewrite existsb_exists. split.
  - intros (y & Hy & E). apply eqb_eq in E. subst. exact Hy.
  - intros H. exists x. split; [exact H | apply eqb_refl].
Qed.

Lemma mem_add_same (s : PyDict.pyset) (x : str) :
  PyDict.mem x (PyDict.add s x) = true.
Proof.
  unfold PyDict.add. destruct (PyDict.mem x s) eqn:E; [exact E|].
  apply mem_in, in_or_app. right. left. reflexivity.
Qed.

Lemma mem_add_other (s : PyDict.pyset) (x y : str) :
  y <> x -> PyDict.mem y (PyDict.add s x) = PyDict.mem y s.
Proof.
  intros Hne. unfold PyDict.add. destruct (PyDict.mem x s); [reflexivity|].
  unfold PyDict.mem. rewrite existsb_app. cbn [existsb].
  replace (eqb y x) with false by (symmetry; apply eqb_neq; exact Hne).
  rewrite !orb_false_r. reflexivity.
Qed.

Lemma mem_discard_same (s : PyDict.pyset) (x : str) :
  PyDict.mem x (PyDict.discard s x) = false.
Proof.
  destruct (PyDict.mem x (PyDict.discard s x)) eqn:E; [|reflexivity].
  apply mem_in in E. unfold PyDict.discard in E. apply filter_In in E.
  destruct E as [_ E]. rewrite eqb_refl in E. discriminate.
Qed.

Lemma mem_discard_other (s : PyDict.pyset) (x y : str) :
  y <> x -> PyDict.mem y (PyDict.discard s x) = PyDict.mem y s.
Proof.
  intros Hne. unfold PyDict.mem, PyDict.discard.
  induction s as [|z s IH]; [reflexivity|]. cbn [filter].
  destruct (eqb x z) eqn:E; cbn [negb existsb].
  - apply eqb_eq in E. subst z.
    replace (eqb y x) with false by (symmetry; apply eqb_neq; exact Hne).
    exact IH.
  - rewrite IH. reflexivity.
Qed.

Lemma discard_absent (s : PyDict.pyset) (x : str) :
  PyDict.mem x s = false -> PyDict.discard s x = s.
Proof.
  unfold PyDict.mem, PyDict.discard.
  induction s as [|z s IH]; [reflexivity|]. cbn [existsb filter].
  intros H. apply orb_false_elim in H. destruct H as [-> H]. cbn [negb].
  rewrite IH by exact H. reflexivity.
Qed.

Lemma length_add (s : PyDict.pyset) (x : str) :
  length (PyDict.add s x)
  = (length s + if PyDict.mem x s then 0 else 1)%nat.
Proof.
  unfold PyDict.add. destruct (PyDict.mem x s).
  - lia.
  - rewrite length_app. reflexivity.
Qed.

Context {V : Type}.

Lemma set_get_same (d : PyDict.dict V) (k : str) (v : V) :
  PyDict.get d k = Some v -> PyDict.set d k v = d.
Proof.
  induction d as [|[k0 v0] d IH]; cbn [PyDict.get PyDict.set];
    [discriminate|].
  destruct (eqb k0 k).
  - intros H. injection H as ->. reflexivity.
  - intros H. rewrite IH by exact H. reflexivity.
Qed.

Lemma set_set (d : PyDict.dict V) (k : str) (v w : V) :
  PyDict.set (PyDict.set d k v) k w = PyDict.set d k w.
Proof.
  induction d as [|[k0 v0] d IH]; cbn [PyDict.set].
  - rewrite eqb_refl. reflexivity.
  - destruct (eqb k0 k) eqn:E; cbn [PyDict.set]; rewrite E;
      [reflexivity|]. rewrite IH. reflexivity.
Qed.

End SetFacts.

Section Rooms.

Import Py RoomManager Props.

Lemma add_add (s : PyDict.pyset) (x : str) :
  PyDict.add (PyDict.add s x) x = PyDict.add s x.
Proof.
  unfold PyDict.add at 1. rewrite mem_add_same. reflexivity.
Qed.

Lemma joined_twice (room : Room.t) (sid : str) :
  let joined :=
    Room.set_listeners room (PyDict.add (Room.listeners room) sid) in
  Room.set_listeners joined (PyDict.add (Room.listeners joined) sid)
  = joined.
Proof.
  destruct room. cbv zeta.
  cbn [Room.set_listeners Room.room_id Room.speaker_sid Room.speaker_name
       Room.listeners Room.status Room.created_at Room.stt_client
       Room.transcript_buffer].
  rewrite add_add. reflexivity.
Qed.

Lemma generate_room_id_free (self : t) (draws : list str) (rid : str) :
  generate_room_id self draws = Some rid ->
  get_room self rid = None
  /\ exists used later,
       draws = used ++ rid :: later
       /\ Forall (fun r => get_room self r <> None) used.
Proof.
  unfold get_room.
  induction draws as [|r draws IH]; cbn [generate_room_id]; [discriminate|].
  unfold PyDict.has. destruct (PyDict.get self r) eqn:E; cbn [negb].
  - intros H. destruct (IH H) as (Hfree & used & later & -> & Hused).
    split; [exact Hfree|]. exists (r :: used), later.
    split; [reflexivity|]. constructor; [congruence | exact Hused].
  - intros H. injection H as <-. split; [exact E|].
    exists [], draws. split; [reflexivity | constructor].
Qed.

Lemma listens_remove (self : t) (r rid sid : str) :
  listens (fst (remove_listener self r sid)) rid sid
  = listens self rid sid && negb (eqb r rid).
Proof.
  unfold remove_listener, listens, get_room.
  destruct (PyDict.get self r) as [room|] eqn:E; cbn [fst].
  - destruct (eqb r rid) eqn:Er; cbn [negb].
    + apply eqb_eq in Er. subst r. rewrite get_set_same.
      cbn [Room.listeners Room.set_listeners].
      rewrite mem_discard_same, andb_false_r. reflexivity.
    + apply eqb_neq in Er. rewrite get_set_other by congruence.
      rewrite andb_true_r. reflexivity.
  - destruct (eqb r rid) eqn:Er; cbn [negb].
    + apply eqb_eq in Er. subst r. rewrite E. reflexivity.
    + rewrite andb_true_r. reflexivity.
Qed.

Lemma listens_remove_other (self : t) (r rid sid sid' : str) :
  sid' <> sid ->
  listens (fst (remove_listener self r sid)) rid sid'
  = listens self rid sid'.
Proof.
  intros Hne. unfold remove_listener, listens, get_room.
  destruct (PyDict.get self r) as [room|] eqn:E; cbn [fst]; [|reflexivity].
  destruct (eqb r rid) eqn:Er.
  - apply eqb_eq in Er. subst r. rewrite get_set_same, E.
    cbn [Room.listeners Room.set_listeners].
    apply mem_discard_other, Hne.
  - apply eqb_neq in Er. rewrite get_set_other by congruence. reflexivity.
Qed.

Lemma keys_remove (self : t) (r sid : str) :
  PyDict.keys (fst (remove_listener self r sid)) = PyDict.keys self.
Proof.
  unfold remove_listener, get_room.
  destruct (PyDict.get self r) eqn:E; cbn [fst]; [|reflexivity].
  apply keys_set_present. congruence.
Qed.

Lemma speakers_remove (self : t) (r sid : str) :
  map (fun entry : str * Room.t => Room.speaker_sid (snd entry))
      (fst (remove_listener self r sid))
  = map (fun entry : str * Room.t => Room.speaker_sid (snd entry)) self.
Proof.
  unfold remove_listener, get_room.
  destruct (PyDict.get self r) as [room|] eqn:E; cbn [fst]; [|reflexivity].
  revert room E. induction self as [|[k0 v0] d IH]; intros room;
    cbn [PyDict.get PyDict.set]; [discriminate|].
  destruct (eqb k0 r).
  - intros H. injection H as ->. reflexivity.
  - intros H. cbn [map snd]. rewrite (IH room H). reflexivity.
Qed.

Lemma leave_all (rids : list str) (sid : str) :
  forall self : t,
    let self' :=
      fold_left
        (fun manager room_id => fst (remove_listener manager room_id sid))
        rids self in
    PyDict.keys self' = PyDict.keys self
    /\ (forall rid,
          listens self' rid sid
          = listens self rid sid && negb (PyDict.mem rid rids))
    /\ (forall rid sid',
          sid' <> sid -> listens self' rid sid' = listens self rid sid')
    /\ map (fun entry : str * Room.t => Room.speaker_sid (snd entry)) self'
       = map (fun entry : str * Room.t => Room.speaker_sid (snd entry)) self.
Proof.
  cbv zeta. induction rids as [|r rids IH]; intros self; cbn [fold_left].
  - repeat split; auto. intros rid. cbn. rewrite andb_true_r. reflexivity.
  - destruct (IH (fst (remove_listener self r sid)))
      as (Hk & Hl & Ho & Hs).
    split; [rewrite Hk; apply keys_remove|]. split; [|split].
    + intros rid. rewrite Hl, listens_remove.
      unfold PyDict.mem. cbn [existsb]. rewrite negb_orb, andb_assoc.
      f_equal. f_equal. f_equal.
      destruct (eqb r rid) eqn:E1, (eqb rid r) eqn:E2; try reflexivity.
      * apply eqb_eq in E1. apply eqb_neq in E2. congruence.
      * apply eqb_eq in E2. apply eqb_neq in E1. congruence.
    + intros rid sid' Hne. rewrite Ho by exact Hne.
      apply listens_remove_other, Hne.
    + rewrite Hs. apply speakers_remove.
Qed.

Lemma listens_found (self : t) (rid sid : str) :
  listens self rid sid = true ->
  PyDict.mem rid (find_rooms_with_listener self sid) = true.
Proof.
  unfold listens, get_room.
  induction self as [|[k0 room0] d IH];
    cbn [PyDict.get find_rooms_with_listener]; [discriminate|].
  destruct (eqb k0 rid) eqn:E.
  - intros H. rewrite H. apply eqb_eq in E. subst k0.
    unfold PyDict.mem. cbn [existsb]. rewrite eqb_refl. reflexivity.
  - intros H. specialize (IH H).
    destruct (PyDict.mem sid (Room.listeners room0)); [|exact IH].
    unfold PyDict.mem in *. cbn [existsb]. rewrite IH. apply orb_true_r.
Qed.

Lemma speaker_found (self : t) (sid rid : str) :
  find_room_by_speaker self sid = Some rid ->
  get_room self rid <> None
  /\ exists room, In (rid, room) self /\ Room.speaker_sid room = sid.
Proof.
  unfold get_room.
  induction self as [|[k0 room0] d IH]; cbn [find_room_by_speaker];
    [discriminate|].
  destruct (eqb (Room.speaker_sid room0) sid) eqn:E.
  - intros H. injection H as <-. apply eqb_eq in E. split.
    + cbn [PyDict.get]. rewrite eqb_refl. discriminate.
    + exists room0. split; [left; reflexivity | exact E].
  - intros H. destruct (IH H) as (Hg & room & Hin & Hs). split.
    + cbn [PyDict.get]. destruct (eqb k0 rid); [discriminate | exact Hg].
    + exists room. split; [right; exact Hin | exact Hs].
Qed.

Lemma get_in_unique (self : t) (rid : str) (room : Room.t) :
  unique_ids self -> In (rid, room) self -> get_room self rid = Some room.
Proof.
  unfold unique_ids, get_room, PyDict.keys.
  induction self as [|[k0 room0] d IH]; cbn [map fst In PyDict.get];
    [tauto|].
  intros Hu Hin. inversion Hu as [|? ? Hn Hd]; subst.
  destruct Hin as [Hin|Hin].
  - injection Hin as -> ->. rewrite eqb_refl. reflexivity.
  - destruct (eqb k0 rid) eqn:E; [|apply IH; assumption].
    apply eqb_eq in E. subst k0. exfalso. apply Hn.
    apply (in_map fst) in Hin. exact Hin.
Qed.

Lemma total_set (self : t) (rid : str) (room room' : Room.t) :
  PyDict.get self rid = Some room ->
  (get_total_listeners (PyDict.set self rid room')
   + length (Room.listeners room)
   = get_total_listeners self + length (Room.listeners room'))%nat.
Proof.
  unfold get_total_listeners, PyDict.values.
  induction self as [|[k0 room0] d IH]; cbn [PyDict.get PyDict.set];
    [discriminate|].
  destruct (eqb k0 rid).
  - intros H. injection H as ->. unfold list_sum in *. cbn [map snd fold_right] in *. lia.
  - intros H. specialize (IH H). unfold list_sum in *. cbn [map snd fold_right] in *. lia.
Qed.

Lemma find_by_keys_speakers (self self' : t) (sid : str) :
  PyDict.keys self' = PyDict.keys self ->
  map (fun entry : str * Room.t => Room.speaker_sid (snd entry)) self'
  = map (fun entry : str * Room.t => Room.speaker_sid (snd entry)) self ->
  find_room_by_speaker self' sid = find_room_by_speaker self sid.
Proof.
  unfold PyDict.keys. revert self'.
  induction self as [|[k0 room0] d IH]; intros [|[k1 room1] d'];
    cbn [map fst snd]; try discriminate; [reflexivity|].
  intros Hk Hs. injection Hk as -> Hk. injection Hs as Hs0 Hs.
  cbn [find_room_by_speaker]. rewrite Hs0, (IH d' Hk Hs). reflexivity.
Qed.

(** X20. A room that [create_room] returns is found under its id, new:
    active, without listeners, with the speaker given and a recognition
    client of its own that is not yet running, also when the id was given
    and in use (the room that was there is replaced). The other rooms are as
    they were, and an id that [generate_room_id] chose was free: it is the
    first draw that is not in use. *)
Theorem created_room_is_found (self self' : t) (speaker_sid speaker_name : str)
  (room_id : option str) (draws : list str) (now : float) (room : Room.t) :
  create_room self speaker_sid speaker_name room_id draws now
  = Some (self', room) ->
  get_room self' (Room.room_id room) = Some room
  /\ (forall rid, rid <> Room.room_id room ->
                  get_room self' rid = get_room self rid)
  /\ room
     = Room.mk (Room.room_id room) speaker_sid speaker_name [] Room.ACTIVE
         now (Some (RTZRWebSocketClient.__init__ (Room.room_id room))) None
  /\ match room_id with
     | Some rid => Room.room_id room = rid
     | None =>
         get_room self (Room.room_id room) = None
         /\ exists used later,
              draws = used ++ Room.room_id room :: later
              /\ Forall (fun r => get_room self r <> None) used
     end
  /\ (unique_ids self -> unique_ids self').
Proof.
  unfold create_room.
  destruct (match room_id with
            | Some rid => Some rid
            | None => generate_room_id self draws
            end) as [rid|] eqn:Eid; [|discriminate].
  intros H. injection H as <- <-.
  cbn [Room.room_id Room.new Room.set_stt_client Room.speaker_sid
       Room.speaker_name Room.listeners Room.status Room.created_at
       Room.transcript_buffer].
  split; [apply get_set_same|].
  split; [intros rid' Hne; apply get_set_other, Hne|].
  split; [reflexivity|]. split.
  - destruct room_id as [rid0|].
    + congruence.
    + apply generate_room_id_free, Eid.
  - apply unique_set.
Qed.

(** X21. In a room that is there [add_listener] returns [True] and makes
    the session a listener of it; no other session's listening and no other
    room changes; the total of listeners goes up by one if the session was
    not listening to the room and stays otherwise; adding the session again
    changes nothing. *)
Theorem add_listener_joins (self : t) (room_id listener_sid : str)
  (room : Room.t) :
  get_room self room_id = Some room ->
  let self' := fst (add_listener self room_id listener_sid) in
  snd (add_listener self room_id listener_sid) = true
  /\ listens self' room_id listener_sid = true
  /\ (forall rid sid, sid <> listener_sid ->
                      listens self' rid sid = listens self rid sid)
  /\ (forall rid, rid <> room_id -> get_room self' rid = get_room self rid)
  /\ get_total_listeners self'
     = (get_total_listeners self
        + if listens self room_id listener_sid then 0 else 1)%nat
  /\ add_listener self' room_id listener_sid = (self', true).
Proof.
  intros Hroom. cbv zeta. unfold add_listener. rewrite Hroom.
  cbn [fst snd]. unfold get_room in *. split; [reflexivity|].
  split.
  { unfold listens, get_room. rewrite get_set_same.
    cbn [Room.listeners Room.set_listeners]. apply mem_add_same. }
  split.
  { intros rid sid Hne. unfold listens, get_room.
    destruct (eqb room_id rid) eqn:E.
    - apply eqb_eq in E. subst rid. rewrite get_set_same, Hroom.
      cbn [Room.listeners Room.set_listeners]. apply mem_add_other, Hne.
    - apply eqb_neq in E. rewrite get_set_other by congruence. reflexivity. }
  split; [intros rid Hne; apply get_set_other, Hne|].
  split.
  { assert (H := total_set self room_id room
                   (Room.set_listeners room
                      (PyDict.add (Room.listeners room) listener_sid))
                   Hroom).
    cbn [Room.listeners Room.set_listeners] in H.
    rewrite length_add in H. unfold listens, get_room. rewrite Hroom. lia. }
  rewrite get_set_same, set_set, joined_twice. reflexivity.
Qed.

(** X22. In a room that is there [remove_listener] returns [True], and
    afterwards the session does not listen to the room; no other session's
    listening and no other room changes; for a session that was not
    listening the manager is left as it was. In a room that is not there
    both [add_listener] and [remove_listener] return [False] and change
    nothing. *)
Theorem remove_listener_leaves (self : t) (room_id listener_sid : str) :
  let self' := fst (remove_listener self room_id listener_sid) in
  listens self' room_id listener_sid = false
  /\ (forall rid sid, sid <> listener_sid ->
                      listens self' rid sid = listens self rid sid)
  /\ (forall rid, rid <> room_id ->
                  get_room self' rid = get_room self rid)
  /\ PyDict.keys self' = PyDict.keys self
  /\ (listens self room_id listener_sid = false -> self' = self)
  /\ match get_room self room_id with
     | Some _ => snd (remove_listener self room_id listener_sid) = true
     | None =>
         remove_listener self room_id listener_sid = (self, false)
         /\ add_listener self room_id listener_sid = (self, false)
     end.
Proof.
  cbv zeta.
  split.
  { rewrite listens_remove, eqb_refl. apply andb_false_r. }
  split; [intros rid sid Hne; apply listens_remove_other, Hne|].
  split.
  { intros rid Hne. unfold remove_listener, get_room.
    destruct (PyDict.get self room_id); cbn [fst]; [|reflexivity].
    apply get_set_other, Hne. }
  split; [apply keys_remove|].
  unfold remove_listener, add_listener, listens, get_room.
  destruct (PyDict.get self room_id) as [room|] eqn:E; cbn [fst snd].
  - split; [|reflexivity]. intros Hm.
    rewrite (discard_absent _ _ Hm). apply set_get_same. rewrite E.
    destruct room; reflexivity.
  - split; [reflexivity | split; reflexivity].
Qed.

(** X23. [close_room] on a room that is there returns [True], takes the
    room out of the manager and leaves every other room as it was; the room
    object is marked as closing and its recognition client is stopped; a
    second [close_room] on the same id returns [False] and changes
    nothing. *)
Theorem close_room_removes (self : t) (room_id : str) (room : Room.t) :
  unique_ids self ->
  get_room self room_id = Some room ->
  exists self' closed,
    close_room self room_id = (self', true, Some closed)
    /\ get_room self' room_id = None
    /\ (forall rid, rid <> room_id -> get_room self' rid = get_room self rid)
    /\ unique_ids self'
    /\ Room.status closed = Room.CLOSING
    /\ Room.listeners closed = Room.listeners room
    /\ match Room.stt_client room with
       | Some client =>
           Room.stt_client closed
           = Some (RTZRWebSocketClient.disconnect client)
       | None => Room.stt_client closed = None
       end
    /\ close_room self' room_id = (self', false, None).
Proof.
  intros Hu Hroom. unfold close_room. rewrite Hroom.
  exists (PyDict.del self room_id), (closing room).
  assert (Hgone : get_room (PyDict.del self room_id) room_id = None)
    by (apply get_del_same, Hu).
  split; [reflexivity|]. split; [exact Hgone|].
  split; [intros rid Hne; apply get_del_other, Hne|].
  split; [apply unique_del, Hu|].
  rewrite Hgone. unfold closing.
  destruct room as [rid sid name ls st ct [client|] buf];
    cbn [Room.set_status Room.set_stt_client Room.room_id Room.speaker_sid
         Room.speaker_name Room.listeners Room.status Room.created_at
         Room.stt_client Room.transcript_buffer];
    repeat split.
Qed.

(** X24. When a session that is not the speaker of a room with a non-empty
    id disconnects, [cleanup_disconnected_user] takes it out of the
    listeners of every room: afterwards it listens nowhere, every other
    session listens where it did, and no room is closed, not even a room
    with the empty id whose speaker the session is (the test [if room_id]
    fails for the empty string). *)
Theorem cleanup_of_a_listener (self : t) (session_id : str) :
  (forall rid, find_room_by_speaker self session_id = Some rid -> rid = []) ->
  let self' := cleanup_disconnected_user self session_id in
  (forall rid, listens self' rid session_id = false)
  /\ (forall rid sid, sid <> session_id ->
                      listens self' rid sid = listens self rid sid)
  /\ PyDict.keys self' = PyDict.keys self
  /\ find_room_by_speaker self' session_id
     = find_room_by_speaker self session_id.
Proof.
  intros Hspk. cbv zeta.
  assert (Heq : cleanup_disconnected_user self session_id
                = fold_left
                    (fun manager room_id =>
                       fst (remove_listener manager room_id session_id))
                    (find_rooms_with_listener self session_id) self).
  { unfold cleanup_disconnected_user.
    destruct (find_room_by_speaker self session_id) as [[|c rid]|] eqn:E;
      try reflexivity.
    specialize (Hspk _ eq_refl). discriminate. }
  rewrite Heq.
  destruct (leave_all (find_rooms_with_listener self session_id) session_id
              self) as (Hk & Hl & Ho & Hs).
  split; [|split; [exact Ho | split; [exact Hk|]]].
  - intros rid. rewrite Hl.
    destruct (listens self rid session_id) eqn:E; [|reflexivity].
    rewrite (listens_found _ _ _ E). reflexivity.
  - apply find_by_keys_speakers; [exact Hk | exact Hs].
Qed.

(** X25. When the speaker of a room with a non-empty id disconnects,
    [cleanup_disconnected_user] closes the first room of that speaker and
    returns: that room is gone, every other room is exactly as it was, so
    the session is still a listener wherever it listened. *)
Theorem cleanup_of_a_speaker (self : t) (session_id room_id : str) :
  unique_ids self ->
  find_room_by_speaker self session_id = Some room_id ->
  room_id <> [] ->
  let self' := cleanup_disconnected_user self session_id in
  get_room self' room_id = None
  /\ (exists room, get_room self room_id = Some room
                   /\ Room.speaker_sid room = session_id)
  /\ (forall rid, rid <> room_id ->
                  get_room self' rid = get_room self rid
                  /\ listens self' rid session_id
                     = listens self rid session_id).
Proof.
  intros Hu Hf Hne. cbv zeta.
  destruct (speaker_found self session_id room_id Hf)
    as (_ & room & Hin & Hs).
  assert (Hroom := get_in_unique self room_id room Hu Hin).
  assert (Heq : cleanup_disconnected_user self session_id
                = PyDict.del self room_id).
  { unfold cleanup_disconnected_user. rewrite Hf.
    destruct room_id as [|c rid]; [congruence|].
    unfold close_room. rewrite Hroom. reflexivity. }
  rewrite Heq.
  split; [apply get_del_same, Hu|].
  split; [exists room; split; [exact Hroom | exact Hs]|].
  intros rid' Hne'. unfold listens, get_room.
  rewrite get_del_other by exact Hne'. split; reflexivity.
Qed.

End Rooms.

Lemma created_room_is_found_witness :
  let first :=
    Room.mk (Py.lit "aaaaaa") (Py.lit "s1") (Py.lit "Speaker") []
      Room.ACTIVE 0%float
      (Some (RTZRWebSocketClient.__init__ (Py.lit "aaaaaa"))) None in
  let room :=
    Room.mk (Py.lit "bbbbbb") (Py.lit "s2") (Py.lit "Speaker") []
      Room.ACTIVE 1%float
      (Some (RTZRWebSocketClient.__init__ (Py.lit "bbbbbb"))) None in
  let self := [(Py.lit "aaaaaa", first)] in
  let self' := [(Py.lit "aaaaaa", first); (Py.lit "bbbbbb", room)] in
  RoomManager.create_room self (Py.lit "s2") (Py.lit "Speaker") None
    [Py.lit "aaaaaa"; Py.lit "bbbbbb"] 1%float
  = Some (self', room)
  /\ RoomManager.get_room self' (Py.lit "bbbbbb") = Some room
  /\ RoomManager.get_room self (Py.lit "bbbbbb") = None.
Proof.
  cbv zeta.
  assert (E : RoomManager.create_room
                [(Py.lit "aaaaaa",
                  Room.mk (Py.lit "aaaaaa") (Py.lit "s1") (Py.lit "Speaker")
                    [] Room.ACTIVE 0%float
                    (Some (RTZRWebSocketClient.__init__ (Py.lit "aaaaaa")))
                    None)]
                (Py.lit "s2") (Py.lit "Speaker") None
                [Py.lit "aaaaaa"; Py.lit "bbbbbb"] 1%float
              = Some
                  ([(Py.lit "aaaaaa",
                     Room.mk (Py.lit "aaaaaa") (Py.lit "s1")
                       (Py.lit "Speaker") [] Room.ACTIVE 0%float
                       (Some (RTZRWebSocketClient.__init__ (Py.lit "aaaaaa")))
                       None);
                    (Py.lit "bbbbbb",
                     Room.mk (Py.lit "bbbbbb") (Py.lit "s2")
                       (Py.lit "Speaker") [] Room.ACTIVE 1%float
                       (Some (RTZRWebSocketClient.__init__ (Py.lit "bbbbbb")))
                       None)],
                   Room.mk (Py.lit "bbbbbb") (Py.lit "s2") (Py.lit "Speaker")
                     [] Room.ACTIVE 1%float
                     (Some (RTZRWebSocketClient.__init__ (Py.lit "bbbbbb")))
                     None))
    by (vm_compute; reflexivity).
  destruct (created_room_is_found _ _ _ _ _ _ _ _ E)
    as (Hfound & _ & _ & (Hfree & _) & _).
  split; [exact E|]. split; [exact Hfound | exact Hfree].
Defined.

Lemma add_listener_joins_witness :
  let first :=
    Room.mk (Py.lit "aaaaaa") (Py.lit "s1") (Py.lit "Speaker") []
      Room.ACTIVE 0%float
      (Some (RTZRWebSocketClient.__init__ (Py.lit "aaaaaa"))) None in
  let self := [(Py.lit "aaaaaa", first)] in
  let self' :=
    fst (RoomManager.add_listener self (Py.lit "aaaaaa") (Py.lit "l1")) in
  Props.listens self' (Py.lit "aaaaaa") (Py.lit "l1") = true
  /\ RoomManager.get_total_listeners self' = 1%nat
  /\ RoomManager.add_listener self' (Py.lit "aaaaaa") (Py.lit "l1")
     = (self', true).
Proof.
  cbv zeta.
  destruct (add_listener_joins
              [(Py.lit "aaaaaa",
                Room.mk (Py.lit "aaaaaa") (Py.lit "s1") (Py.lit "Speaker") []
                  Room.ACTIVE 0%float
                  (Some (RTZRWebSocketClient.__init__ (Py.lit "aaaaaa")))
                  None)]
              (Py.lit "aaaaaa") (Py.lit "l1")
              (Room.mk (Py.lit "aaaaaa") (Py.lit "s1") (Py.lit "Speaker") []
                 Room.ACTIVE 0%float
                 (Some (RTZRWebSocketClient.__init__ (Py.lit "aaaaaa")))
                 None))
    as (_ & Hjoin & _ & _ & Htotal & Hagain).
  - vm_compute. reflexivity.
  - split; [exact Hjoin|]. split; [|exact Hagain].
    rewrite Htotal. vm_compute. reflexivity.
Defined.

Lemma close_room_removes_witness :
  let first :=
    Room.mk (Py.lit "aaaaaa") (Py.lit "s1") (Py.lit "Speaker")
      [Py.lit "l1"] Room.ACTIVE 0%float
      (Some (RTZRWebSocketClient.mk (Py.lit "aaaaaa") None (Some 0%nat) []
               true None true [] 1 1)) None in
  let self := [(Py.lit "aaaaaa", first)] in
  snd (fst (RoomManager.close_room self (Py.lit "aaaaaa"))) = true
  /\ RoomManager.get_room
       (fst (fst (RoomManager.close_room self (Py.lit "aaaaaa"))))
       (Py.lit "aaaaaa")
     = None.
Proof.
  cbv zeta.
  destruct (close_room_removes
              [(Py.lit "aaaaaa",
                Room.mk (Py.lit "aaaaaa") (Py.lit "s1") (Py.lit "Speaker")
                  [Py.lit "l1"] Room.ACTIVE 0%float
                  (Some (RTZRWebSocketClient.mk (Py.lit "aaaaaa") None
                           (Some 0%nat) [] true None true [] 1 1)) None)]
              (Py.lit "aaaaaa")
              (Room.mk (Py.lit "aaaaaa") (Py.lit "s1") (Py.lit "Speaker")
                 [Py.lit "l1"] Room.ACTIVE 0%float
                 (Some (RTZRWebSocketClient.mk (Py.lit "aaaaaa") None
                          (Some 0%nat) [] true None true [] 1 1)) None))
    as (self' & closed & E & Hgone & _).
  - constructor; [intros [] | constructor].
  - vm_compute. reflexivity.
  - rewrite E. cbn [fst snd]. split; [reflexivity | exact Hgone].
Defined.

Lemma cleanup_of_a_listener_witness :
  let nameless :=
    Room.mk [] (Py.lit "s1") (Py.lit "Speaker") [] Room.ACTIVE 0%float
      (Some (RTZRWebSocketClient.__init__ [])) None in
  let other :=
    Room.mk (Py.lit "aaaaaa") (Py.lit "s2") (Py.lit "Speaker")
      [Py.lit "s1"; Py.lit "l1"] Room.ACTIVE 0%float
      (Some (RTZRWebSocketClient.__init__ (Py.lit "aaaaaa"))) None in
  let self := [([], nameless); (Py.lit "aaaaaa", other)] in
  let self' := RoomManager.cleanup_disconnected_user self (Py.lit "s1") in
  Props.listens self' (Py.lit "aaaaaa") (Py.lit "s1") = false
  /\ PyDict.keys self' = [[]; Py.lit "aaaaaa"].
Proof.
  cbv zeta.
  destruct (cleanup_of_a_listener
              [([],
                Room.mk [] (Py.lit "s1") (Py.lit "Speaker") [] Room.ACTIVE
                  0%float (Some (RTZRWebSocketClient.__init__ [])) None);
               (Py.lit "aaaaaa",
                Room.mk (Py.lit "aaaaaa") (Py.lit "s2") (Py.lit "Speaker")
                  [Py.lit "s1"; Py.lit "l1"] Room.ACTIVE 0%float
                  (Some (RTZRWebSocketClient.__init__ (Py.lit "aaaaaa")))
                  None)]
              (Py.lit "s1"))
    as (Hnone & _ & Hkeys & _).
  - intros rid H. vm_compute in H. injection H as <-. reflexivity.
  - split; [apply Hnone | exact Hkeys].
Defined.

Lemma cleanup_of_a_speaker_witness :
  let own :=
    Room.mk (Py.lit "aaaaaa") (Py.lit "s1") (Py.lit "Speaker")
      [Py.lit "l1"] Room.ACTIVE 0%float
      (Some (RTZRWebSocketClient.__init__ (Py.lit "aaaaaa"))) None in
  let other :=
    Room.mk (Py.lit "bbbbbb") (Py.lit "s2") (Py.lit "Speaker")
      [Py.lit "s1"] Room.ACTIVE 0%float
      (Some (RTZRWebSocketClient.__init__ (Py.lit "bbbbbb"))) None in
  let self := [(Py.lit "aaaaaa", own); (Py.lit "bbbbbb", other)] in
  let self' := RoomManager.cleanup_disconnected_user self (Py.lit "s1") in
  RoomManager.get_room self' (Py.lit "aaaaaa") = None
  /\ Props.listens self' (Py.lit "bbbbbb") (Py.lit "s1") = true.
Proof.
  cbv zeta.
  destruct (cleanup_of_a_speaker
              [(Py.lit "aaaaaa",
                Room.mk (Py.lit "aaaaaa") (Py.lit "s1") (Py.lit "Speaker")
                  [Py.lit "l1"] Room.ACTIVE 0%float
                  (Some (RTZRWebSocketClient.__init__ (Py.lit "aaaaaa")))
                  None);
               (Py.lit "bbbbbb",
                Room.mk (Py.lit "bbbbbb") (Py.lit "s2") (Py.lit "Speaker")
                  [Py.lit "s1"] Room.ACTIVE 0%float
                  (Some (RTZRWebSocketClient.__init__ (Py.lit "bbbbbb")))
                  None)]
              (Py.lit "s1") (Py.lit "aaaaaa"))
    as (Hgone & _ & Hrest).
  - vm_compute. constructor.
    + intros [H|[]]. discriminate H.
    + constructor; [intros [] | constructor].
  - vm_compute. reflexivity.
  - vm_compute. discriminate.
  - split; [exact Hgone|].
    destruct (Hrest (Py.lit "bbbbbb")) as [_ Hl].
    + vm_compute. discriminate.
    + rewrite Hl. vm_compute. reflexivity.
Defined.

Section RoomSessions.

Import Py RoomManager Props.

Context {V : Type}.

Lemma forall_set (P : str * V -> Prop) (d : PyDict.dict V) (k : str) (v : V) :
  Forall P d -> P (k, v) -> Forall P (PyDict.set d k v).
Proof.
  intros Hd Hp. induction Hd as [|[k0 v0] d H0 Hd IH]; cbn [PyDict.set].
  - repeat constructor. exact Hp.
  - destruct (eqb k0 k) eqn:E.
    + apply eqb_eq in E. subst k0. constructor; assumption.
    + constructor; assumption.
Qed.

Lemma forall_del (P : str * V -> Prop) (d : PyDict.dict V) (k : str) :
  Forall P d -> Forall P (PyDict.del d k).
Proof.
  intros Hd. induction Hd as [|[k0 v0] d H0 Hd IH]; cbn [PyDict.del].
  - constructor.
  - destruct (eqb k0 k); [exact Hd | constructor; assumption].
Qed.

Lemma get_in (d : PyDict.dict V) (k : str) (v : V) :
  PyDict.get d k = Some v -> In (k, v) d.
Proof.
  induction d as [|[k0 v0] d IH]; cbn [PyDict.get]; [discriminate|].
  destruct (eqb k0 k) eqn:E.
  - apply eqb_eq in E. subst k0. intros H. injection H as ->.
    left. reflexivity.
  - intros H. right. apply IH, H.
Qed.

End RoomSessions.

Section RoomInvariant.

Import Py RoomManager Props.

Lemma nodup_add (s : PyDict.pyset) (x : str) :
  NoDup s -> NoDup (PyDict.add s x).
Proof.
  intros H. unfold PyDict.add. destruct (PyDict.mem x s) eqn:E; [exact H|].
  apply NoDup_app; [exact H | repeat constructor; intros [] |].
  intros y Hy [<-|[]]. apply mem_in in Hy. congruence.
Qed.

Lemma nodup_discard (s : PyDict.pyset) (x : str) :
  NoDup s -> NoDup (PyDict.discard s x).
Proof. apply NoDup_filter. Qed.

Lemma rooms_ok_listeners (self : t) (rid : str) (room : Room.t)
  (ls : PyDict.pyset) :
  rooms_ok self ->
  get_room self rid = Some room ->
  NoDup ls ->
  rooms_ok (PyDict.set self rid (Room.set_listeners room ls)).
Proof.
  intros [Hu Hf] Hroom Hls. split; [apply unique_set, Hu|].
  apply forall_set; [exact Hf|].
  rewrite Forall_forall in Hf.
  destruct (Hf _ (get_in _ _ _ Hroom)) as [Hid _].
  cbn [fst snd] in *. destruct room; cbn in *. split; assumption.
Qed.

Lemma rooms_ok_remove (self : t) (rid sid : str) :
  rooms_ok self -> rooms_ok (fst (remove_listener self rid sid)).
Proof.
  intros Hok. unfold remove_listener.
  destruct (get_room self rid) as [room|] eqn:E; cbn [fst]; [|exact Hok].
  apply rooms_ok_listeners; [exact Hok | exact E |].
  apply nodup_discard.
  destruct Hok as [_ Hf]. rewrite Forall_forall in Hf.
  apply (Hf _ (get_in _ _ _ E)).
Qed.

Lemma rooms_ok_close (self : t) (rid : str) :
  rooms_ok self -> rooms_ok (fst (fst (close_room self rid))).
Proof.
  intros Hok. unfold close_room.
  destruct (get_room self rid); cbn [fst]; [|exact Hok].
  destruct Hok as [Hu Hf]. split; [apply unique_del, Hu|].
  apply forall_del, Hf.
Qed.

Lemma rooms_ok_step (self : t) (op : RoomOp) :
  rooms_ok self -> rooms_ok (room_step self op).
Proof.
  intros Hok.
  destruct op as [sid name rid draws now|rid sid|rid sid|rid|sid];
    cbn [room_step].
  - unfold create_room.
    destruct (match rid with
              | Some rid => Some rid
              | None => generate_room_id self draws
              end) as [r|]; [|exact Hok].
    destruct Hok as [Hu Hf]. split; [apply unique_set, Hu|].
    apply forall_set; [exact Hf|]. split; [reflexivity | constructor].
  - unfold add_listener.
    destruct (get_room self rid) as [room|] eqn:E; cbn [fst]; [|exact Hok].
    apply rooms_ok_listeners; [exact Hok | exact E |].
    apply nodup_add.
    destruct Hok as [_ Hf]. rewrite Forall_forall in Hf.
    apply (Hf _ (get_in _ _ _ E)).
  - apply rooms_ok_remove, Hok.
  - apply rooms_ok_close, Hok.
  - unfold cleanup_disconnected_user.
    assert (Hfold : forall rids self0,
               rooms_ok self0 ->
               rooms_ok
                 (fold_left
                    (fun manager room_id =>
                       fst (remove_listener manager room_id sid))
                    rids self0)).
    { induction rids as [|r rids IH]; intros self0 H0; cbn [fold_left];
        [exact H0|]. apply IH, rooms_ok_remove, H0. }
    destruct (find_room_by_speaker self sid) as [[|c rid]|].
    + apply Hfold, Hok.
    + apply rooms_ok_close, Hok.
    + apply Hfold, Hok.
Qed.

(** X26. Whatever calls are made on a new manager, in whatever order, its
    rooms stay consistent: no room id occurs twice, every room is found
    under its own id, and no session is listed twice among a room's
    listeners. What the theorems on [close_room] and on the speaker's
    [cleanup_disconnected_user] ask of the manager therefore holds of every
    manager a server builds. *)
Theorem rooms_stay_consistent (ops : list RoomOp) :
  let self := fold_left room_step ops RoomManager.__init__ in
  unique_ids self
  /\ forall rid room,
       get_room self rid = Some room ->
       Room.room_id room = rid /\ NoDup (Room.listeners room).
Proof.
  cbv zeta.
  assert (Hok : rooms_ok (fold_left room_step ops RoomManager.__init__)).
  { assert (Hinit : rooms_ok RoomManager.__init__)
      by (split; constructor).
    revert Hinit. generalize RoomManager.__init__.
    induction ops as [|op ops IH]; intros self H; cbn [fold_left];
      [exact H|]. apply IH, rooms_ok_step, H. }
  destruct Hok as [Hu Hf]. split; [exact Hu|].
  intros rid room Hroom. rewrite Forall_forall in Hf.
  apply (Hf _ (get_in _ _ _ Hroom)).
Qed.

End RoomInvariant.

(* ================================================================== *)
(** * What the translation of a batch brings the room *)
(* ================================================================== *)

Section Events.

Import Py TranslationService WebSocket.

(** X27. Of the failures of the translation service only one is withheld
    from the room. For a batch whose text is not empty and not cached, the
    first event always carries the placeholder; without a client the
    second event carries the text "Translation service unavailable" as the
    translation; when the API answers with Hangul it carries "Translation
    error - please try again"; when the request fails no second event
    follows. *)
Theorem failures_the_room_sees (translation_service : t)
  (room_id korean_text context batch_id : str) (t1 t2 : float)
  (api : nat -> Completion) :
  truthy korean_text = true ->
  PyDict.get (translation_cache translation_service) korean_text = None ->
  let placeholder :=
    TranslationOf room_id batch_id korean_text (lit "번역 중...") t1 in
  let shown english :=
    TranslationOf room_id batch_id korean_text english t2 in
  let emits :=
    snd (on_buffered_transcript translation_service room_id korean_text
           context batch_id t1 t2 api) in
  (exists rest, emits = placeholder :: rest /\ (length rest <= 1)%nat)
  /\ (client translation_service = false ->
      emits = [placeholder; shown (lit "Translation service unavailable")])
  /\ (client translation_service = true ->
      api (api_calls translation_service) = ApiFails ->
      emits = [placeholder])
  /\ (client translation_service = true ->
      forall content,
        api (api_calls translation_service) = ApiContent content ->
        _contains_korean (strip content) = true ->
        emits
        = [placeholder;
           shown (lit "Translation error - please try again")]).
Proof.
  intros Hk Hg. cbv zeta.
  assert (E1 : truthy (lit "Translation service unavailable")
               && negb (eqb (lit "Translation service unavailable")
                          (lit "Translation error")) = true)
    by (vm_compute; reflexivity).
  assert (E2 : truthy (lit "Translation error - please try again")
               && negb (eqb (lit "Translation error - please try again")
                          (lit "Translation error")) = true)
    by (vm_compute; reflexivity).
  assert (E3 : truthy (lit "Translation error")
               && negb (eqb (lit "Translation error")
                          (lit "Translation error")) = false)
    by (vm_compute; reflexivity).
  split.
  { unfold on_buffered_transcript.
    destruct (translate_with_gpt translation_service korean_text context api)
      as [s [e|]]; [|exists []; split; [reflexivity | cbn; lia]].
    destruct (truthy e && negb (eqb e (lit "Translation error")));
      cbn [snd]; eexists; (split; [reflexivity | cbn; lia]). }
  unfold on_buffered_transcript, translate_with_gpt. rewrite Hk, Hg.
  cbn [negb]. split; [|split].
  - intros Hc. rewrite Hc. cbn [negb]. rewrite E1. reflexivity.
  - intros Hc Ha. rewrite Hc, Ha. cbn [negb]. rewrite E3. reflexivity.
  - intros Hc content Ha Hn. rewrite Hc, Ha, Hn. cbn [negb]. rewrite E2.
    reflexivity.
Qed.

End Events.

Lemma failures_the_room_sees_witness :
  snd (WebSocket.on_buffered_transcript (TranslationService.__init__ false)
         (Py.lit "aaaaaa") (Py.lit "안녕하세요") [] (Py.lit "1b9d6bcd")
         1%float 2%float (fun _ => TranslationService.ApiFails))
  = [WebSocket.TranslationOf (Py.lit "aaaaaa") (Py.lit "1b9d6bcd")
       (Py.lit "안녕하세요") (Py.lit "번역 중...") 1%float;
     WebSocket.TranslationOf (Py.lit "aaaaaa") (Py.lit "1b9d6bcd")
       (Py.lit "안녕하세요") (Py.lit "Translation service unavailable")
       2%float].
Proof.
  destruct (failures_the_room_sees (TranslationService.__init__ false)
              (Py.lit "aaaaaa") (Py.lit "안녕하세요") [] (Py.lit "1b9d6bcd")
              1%float 2%float (fun _ => TranslationService.ApiFails))
    as (_ & Hnone & _).
  - vm_compute. reflexivity.
  - vm_compute. reflexivity.
  - apply Hnone. reflexivity.
Defined.
